(** * prime.py: ignore rules and tree packing

    A shallow embedding of [src/prime.py] (the ignore-rule engine
    [is_ignored], the loader [load_gitignore], the packer [scan_and_pack]
    and the driver [main]) together with the library functions it calls
    ([fnmatch.fnmatch], [os.path.splitext], [os.path.relpath], [os.walk]),
    modelled for a POSIX host ([os.sep] is the slash, [os.path.normcase] is
    the identity).

    Python [str] values are [string]s; a path is the list of the components
    of its absolute, normalised form ([main] calls [os.path.abspath] on the
    root before anything else, and every other path is built from it by
    [os.path.join] with a directory entry). *)

From Stdlib Require Import String Ascii List Bool Arith NArith Lia.
From Stdlib Require Import DecimalString.
Import ListNotations.

Local Open Scope string_scope.
Local Open Scope list_scope.

(** ** Strings *)

Module Str.

Definition nl : string := String (ascii_of_nat 10) EmptyString.

(** [c in s] for a one-character [c]. *)
Fixpoint contains (c : ascii) (s : string) : bool :=
  match s with
  | EmptyString => false
  | String a s' => Ascii.eqb a c || contains c s'
  end.

(** [s.endswith(suffix)]: some tail of [s] is [suffix]. *)
Fixpoint endswith (s suffix : string) : bool :=
  if String.eqb s suffix then true
  else match s with
       | EmptyString => false
       | String _ s' => endswith s' suffix
       end.

(** [s.startswith(p)] *)
Fixpoint startswith (s p : string) {struct p} : bool :=
  match p with
  | EmptyString => true
  | String a p' =>
      match s with
      | EmptyString => false
      | String b s' => Ascii.eqb a b && startswith s' p'
      end
  end.

Definition lower_char (c : ascii) : ascii :=
  let n := nat_of_ascii c in
  if ((65 <=? n) && (n <=? 90))%nat then ascii_of_nat (n + 32) else c.

(** [s.lower()] on ASCII text. *)
Fixpoint lower (s : string) : string :=
  match s with
  | EmptyString => EmptyString
  | String c s' => String (lower_char c) (lower s')
  end.

(** The characters [str.strip()] removes: tab, LF, VT, FF, CR, the four
    separators 0x1c-0x1f and the space. *)
Definition is_space (c : ascii) : bool :=
  let n := nat_of_ascii c in
  (((9 <=? n) && (n <=? 13)) || ((28 <=? n) && (n <=? 31)) || (n =? 32))%nat.

Fixpoint lstrip (s : string) : string :=
  match s with
  | EmptyString => EmptyString
  | String c s' => if is_space c then lstrip s' else s
  end.

Fixpoint rstrip (s : string) : string :=
  match s with
  | EmptyString => EmptyString
  | String c s' =>
      match rstrip s' with
      | EmptyString => if is_space c then EmptyString else String c EmptyString
      | r => String c r
      end
  end.

Definition strip (s : string) : string := rstrip (lstrip s).

(** The lines of a text file.  Text mode translates CR LF and CR to LF;
    splitting at both characters yields the same lines up to empty ones,
    and [load_gitignore] drops those after stripping. *)
Fixpoint lines_aux (cur : string) (s : string) : list string :=
  match s with
  | EmptyString => match cur with EmptyString => [] | _ => [cur] end
  | String c s' =>
      if ((nat_of_ascii c =? 10) || (nat_of_ascii c =? 13))%nat
      then cur :: lines_aux EmptyString s'
      else lines_aux (cur ++ String c EmptyString)%string s'
  end.

Definition lines (s : string) : list string := lines_aux EmptyString s.

(** [sep.join(parts)] *)
Fixpoint join (sep : string) (parts : list string) : string :=
  match parts with
  | [] => EmptyString
  | [p] => p
  | p :: rest => (p ++ sep ++ join sep rest)%string
  end.

(** The concatenation of a list of strings. *)
Definition concat (parts : list string) : string :=
  fold_right String.append EmptyString parts.

(** [x in xs] for a set or list of strings. *)
Definition mem (x : string) (xs : list string) : bool :=
  existsb (String.eqb x) xs.

(** [s.rfind(c)], [-1] written as [None]. *)
Fixpoint rfind_from (c : ascii) (s : string) (i : nat) : option nat :=
  match s with
  | EmptyString => None
  | String a s' =>
      match rfind_from c s' (S i) with
      | Some j => Some j
      | None => if Ascii.eqb a c then Some i else None
      end
  end.

Definition rfind (c : ascii) (s : string) : option nat := rfind_from c s 0.

(** [s[:n]] and [s[n:]] *)
Fixpoint take (n : nat) (s : string) : string :=
  match n, s with
  | S n', String c s' => String c (take n' s')
  | _, _ => EmptyString
  end.

Fixpoint drop (n : nat) (s : string) : string :=
  match n, s with
  | S n', String _ s' => drop n' s'
  | _, _ => s
  end.

End Str.

(** ** fnmatch

    [fnmatch.fnmatch(name, pat)] as CPython implements it: [translate]
    turns the pattern into a regular expression that must match the whole
    name.  The regular expression is kept as a list of items. *)

Module Fnmatch.

Inductive item : Type :=
| Star                                      (* [*]: any run of characters *)
| AnyChar                                   (* [?]: any one character *)
| Lit (c : ascii)                           (* the character itself *)
| CharSet (negate : bool) (body : list (ascii * ascii)).
                                            (* [[seq]], [[!seq]] as ranges *)

Definition ord := nat_of_ascii.

(** The body of a bracket expression, left to right: [lo-hi] is a range,
    a hyphen that opens or closes the body is literal. *)
Fixpoint ranges (fuel : nat) (s : list ascii) : list (ascii * ascii) :=
  match fuel with
  | O => []
  | S fuel' =>
      match s with
      | [] => []
      | lo :: h :: hi :: rest =>
          if Ascii.eqb h "-" then (lo, hi) :: ranges fuel' rest
          else (lo, lo) :: ranges fuel' (h :: hi :: rest)
      | lo :: rest => (lo, lo) :: ranges fuel' rest
      end
  end.

(** [translate] removes the ranges whose bounds are out of order; when
    that uncovers an exclamation mark at the head of a set that had
    none, the set it builds is the negated one. *)
Fixpoint drop_empty_ranges (fuel : nat) (s : list ascii) : list ascii :=
  match fuel with
  | O => s
  | S fuel' =>
      match s with
      | lo :: h :: hi :: rest =>
          if (Ascii.eqb h "-" && (ord hi <? ord lo)%nat)
          then drop_empty_ranges fuel' rest
          else s
      | _ => s
      end
  end.

Definition charset (stuff : list ascii) : item :=
  match stuff with
  | "!"%char :: body => CharSet true (ranges (length body) body)
  | _ =>
      match drop_empty_ranges (length stuff) stuff with
      | "!"%char :: body => CharSet true (ranges (length body) body)
      | body => CharSet false (ranges (length body) body)
      end
  end.

(** Index, within the text after an opening bracket, of the bracket that
    closes it: a leading [!] and a [[]] right after it do not close. *)
Fixpoint index_from (c : ascii) (s : list ascii) (i : nat) : option nat :=
  match s with
  | [] => None
  | a :: s' => if Ascii.eqb a c then Some i else index_from c s' (S i)
  end.

Definition find_close (rest : list ascii) : option nat :=
  let j := match rest with "!"%char :: _ => 1 | _ => 0 end in
  let j := match skipn j rest with "]"%char :: _ => S j | _ => j end in
  index_from "]" (skipn j rest) j.

(** [translate]: [skip] counts the characters of a bracket expression
    still to be passed over. *)
Fixpoint translate_from (skip : nat) (pat : list ascii) : list item :=
  match pat with
  | [] => []
  | c :: rest =>
      match skip with
      | S k => translate_from k rest
      | O =>
          if Ascii.eqb c "*" then Star :: translate_from 0 rest
          else if Ascii.eqb c "?" then AnyChar :: translate_from 0 rest
          else if Ascii.eqb c "[" then
            match find_close rest with
            | None => Lit "[" :: translate_from 0 rest
            | Some j => charset (firstn j rest) :: translate_from (S j) rest
            end
          else Lit c :: translate_from 0 rest
      end
  end.

Definition translate (pat : string) : list item :=
  translate_from 0 (list_ascii_of_string pat).

Definition in_range (c : ascii) (r : ascii * ascii) : bool :=
  ((ord (fst r) <=? ord c) && (ord c <=? ord (snd r)))%nat.

Definition item_matches (it : item) (c : ascii) : bool :=
  match it with
  | Star => true
  | AnyChar => true
  | Lit a => Ascii.eqb a c
  | CharSet neg body => xorb neg (existsb (in_range c) body)
  end.

(** Whole-string match of the translated pattern. *)
Fixpoint match_items (items : list item) (s : list ascii) : bool :=
  match items with
  | [] => match s with [] => true | _ => false end
  | Star :: items' =>
      (fix star (s : list ascii) : bool :=
         match_items items' s
         || match s with [] => false | _ :: s' => star s' end) s
  | it :: items' =>
      match s with
      | [] => false
      | c :: s' => item_matches it c && match_items items' s'
      end
  end.

Definition fnmatch (name pat : string) : bool :=
  match_items (translate pat) (list_ascii_of_string name).

End Fnmatch.

(** ** The file system

    A read that fails: the message of the exception raised, and the text
    of the lines a reader going line by line was handed before it (none
    when it is [open] that fails). *)

Record failure : Type := mk_failure {
  delivered : string;
  message : string
}.

Coercion message : failure >-> string.

(** A failure of [open] itself. *)
Definition at_open (err : string) : failure :=
  {| delivered := ""; message := err |}.

(** What [open(...).read()] gives for a file: its decoded text
    ([errors='ignore'] never fails on malformed bytes), or the exception
    raised. *)
Inductive read_result : Type :=
| Readable (text : string)
| Unreadable (err : failure).

(** A directory lists its entries in the order [os.scandir] reports them.
    Symbolic links are resolved: [os.walk] and [os.path.isdir] both follow
    them when they classify an entry, and [os.walk] does not recurse into
    a linked directory, which is then a [Dir] without entries. *)
#[local] Unset Elimination Schemes.
Inductive node : Type :=
| File (name : string) (content : read_result)
| Dir (name : string) (entries : list node).
#[local] Set Elimination Schemes.

Definition path := list string.

Definition node_name (n : node) : string :=
  match n with File x _ => x | Dir x _ => x end.

Fixpoint find_entry (x : string) (es : list node) : option node :=
  match es with
  | [] => None
  | e :: es' => if String.eqb (node_name e) x then Some e else find_entry x es'
  end.

Fixpoint fs_lookup (n : node) (p : path) : option node :=
  match p with
  | [] => Some n
  | c :: p' =>
      match n with
      | File _ _ => None
      | Dir _ es =>
          match find_entry c es with
          | Some e => fs_lookup e p'
          | None => None
          end
      end
  end.

(** Apply [f] to the first entry called [x]; without one, add [dflt]. *)
Fixpoint update_entry (x : string) (f : node -> option node)
    (dflt : option node) (es : list node) : option (list node) :=
  match es with
  | [] => match dflt with Some e => Some [e] | None => None end
  | e :: es' =>
      if String.eqb (node_name e) x
      then match f e with Some e' => Some (e' :: es') | None => None end
      else match update_entry x f dflt es' with
           | Some es'' => Some (e :: es'')
           | None => None
           end
  end.

(** [open(p, 'w')] followed by writing [text] and closing: the file is
    created or replaced; [None] when [p] names a directory or lies below
    something that is not one. *)
Fixpoint fs_write (n : node) (p : path) (text : string) : option node :=
  match p with
  | [] =>
      match n with
      | File x _ => Some (File x (Readable text))
      | Dir _ _ => None
      end
  | c :: p' =>
      match n with
      | File _ _ => None
      | Dir x es =>
          let fresh := match p' with
                       | [] => Some (File c (Readable text))
                       | _ => None
                       end in
          match update_entry c (fun e => fs_write e p' text) fresh es with
          | Some es' => Some (Dir x es')
          | None => None
          end
      end
  end.

(** ** os.path *)

Module OsPath.

Definition sep : string := "/".

(** [os.path.basename] *)
Definition basename (p : path) : string := last p "".

(** [os.path.join(dirpath, entry)] *)
Definition join (dirpath : path) (entry : string) : path := dirpath ++ [entry].

Fixpoint commonprefix (a b : path) : path :=
  match a, b with
  | x :: a', y :: b' => if String.eqb x y then x :: commonprefix a' b' else []
  | _, _ => []
  end.

(** [os.path.relpath(p, start)] *)
Definition relpath (p start : path) : string :=
  let i := length (commonprefix start p) in
  let rel_list := repeat ".." (length start - i) ++ skipn i p in
  match rel_list with
  | [] => "."
  | _ => Str.join sep rel_list
  end.

(** [os.path.isdir] *)
Definition isdir (fs : node) (p : path) : bool :=
  match fs_lookup fs p with
  | Some (Dir _ _) => true
  | _ => false
  end.

Fixpoint all_dots (s : string) : bool :=
  match s with
  | EmptyString => true
  | String c s' => Ascii.eqb c "." && all_dots s'
  end.

(** [os.path.splitext]: the extension starts at the last dot of the last
    component, unless only dots precede it there. *)
Definition splitext (p : string) : string * string :=
  match Str.rfind "." p with
  | None => (p, "")
  | Some dotIndex =>
      let filenameIndex :=
        match Str.rfind "/" p with None => 0 | Some sepIndex => S sepIndex end in
      if (filenameIndex <=? dotIndex)%nat
      then if all_dots (Str.take (dotIndex - filenameIndex) (Str.drop filenameIndex p))
           then (p, "")
           else (Str.take dotIndex p, Str.drop dotIndex p)
      else (p, "")
  end.

(** [os.path.normpath] of the components of an absolute path. *)
Fixpoint normpath (acc : path) (comps : list string) : path :=
  match comps with
  | [] => acc
  | c :: rest =>
      if String.eqb c "" || String.eqb c "." then normpath acc rest
      else if String.eqb c ".." then normpath (removelast acc) rest
      else normpath (acc ++ [c]) rest
  end.

Fixpoint split_aux (cur : string) (s : string) : list string :=
  match s with
  | EmptyString => [cur]
  | String c s' =>
      if Ascii.eqb c "/" then cur :: split_aux "" s'
      else split_aux (cur ++ String c "")%string s'
  end.

(** [os.path.abspath(s)] with the working directory [cwd].  (POSIX keeps
    a root written with exactly two slashes apart from the plain root;
    both are the empty list here.) *)
Definition abspath (cwd : path) (s : string) : path :=
  if Str.startswith s "/" then normpath [] (split_aux "" s)
  else normpath cwd (split_aux "" s).

End OsPath.

(** ** Configuration *)

Definition INCLUDED_EXTENSIONS : list string :=
  [ ".py"; ".js"; ".ts"; ".tsx"; ".html"; ".css"; ".json"; ".md";
    ".sql"; ".go"; ".rs"; ".java"; ".cpp"; ".c"; ".h"; ".hpp"; ".ino";
    ".txt"; ".yaml"; ".yml"; ".toml"; ".xml"; ".sh"; ".bat"; ".env" ].

Definition DEFAULT_IGNORE_DIRS : list string :=
  [ ".git"; "node_modules"; "venv"; ".venv"; "pycache"; "__pycache__";
    "dist"; "build"; ".idea"; ".vscode"; ".gemini";
    "package-lock.json"; "yarn.lock"; "pnpm-lock.yaml"; "bun.lockb";
    "images"; "assets"; "public"; "test-results"; "playwright-report";
    "coverage"; ".next"; ".nuxt"; "target";
    "logs.txt"; "*.log"; "*.audit.json" ].

Definition GEMINI_URL : string := "https://gemini.google.com/app".
Definition OUTPUT_FILENAME : string := "codebase_context.md".

Definition USER_PROMPT : string :=
"I have attached a file `codebase_context.md` which contains the full source code and directory structure of my project. 

**Instruction:**
1.  **Analyze** the provided codebase to understand its architecture, tech stack, and key components.
2.  **Act** as a Senior Software Architect and Coding Assistant for this specific project.
3.  **Wait** for my next command. I will ask you to implement features, fix bugs, or explain code. When I do, provide concrete code examples and file modifications that fit the existing style and structure.

Please confirm you have ingested the context and are ready.".

Definition META_PROMPT : string :=
"# Codebase Context
I am providing my codebase context below in this flattened markdown file. 

## Project Structure
(See file paths below)

---
".

(** ** load_gitignore

    The patterns of the [.gitignore] at the root, and what was printed.
    The patterns are appended line by line: when the read fails, those of
    the lines handed over before the exception are kept and returned, and
    the warning is printed. *)

(** Lines 58-61: the patterns of the lines of a text. *)
Definition patterns_of (text : string) : list string :=
  filter (fun line => negb (String.eqb line "") && negb (Str.startswith line "#"))
         (map Str.strip (Str.lines text)).

Definition load_gitignore (fs : node) (root_path : path)
  : list string * list string :=
  let gitignore_path := OsPath.join root_path ".gitignore" in
  match fs_lookup fs gitignore_path with
  | None => ([], [])
  | Some (File _ (Readable text)) => (patterns_of text, [])
  | Some (File _ (Unreadable e)) =>
      (patterns_of (delivered e), ["Warning: Could not read .gitignore: " ++ e]%string)
  | Some (Dir _ _) =>
      ([], ["Warning: Could not read .gitignore: [Errno 21] Is a directory: '"
              ++ Str.join "/" ("" :: gitignore_path) ++ "'"]%string)
  end.

(** ** is_ignored *)

Definition is_ignored (fs : node) (p root_path : path)
    (gitignore_patterns : list string) : bool :=
  let name := OsPath.basename p in
  (* 1. exact match against the defaults *)
  if Str.mem name DEFAULT_IGNORE_DIRS then true
  (* 2. the defaults that hold a wildcard *)
  else if existsb (fun pattern => Str.contains "*" pattern && Fnmatch.fnmatch name pattern)
                  DEFAULT_IGNORE_DIRS then true
  else
    (* 3. the .gitignore patterns; os.sep is already the slash *)
    let rel_path := OsPath.relpath p root_path in
    (fix loop (patterns : list string) : bool :=
       match patterns with
       | [] => false
       | pattern :: rest =>
           if Str.endswith pattern "/" && OsPath.isdir fs p
              && (Fnmatch.fnmatch (rel_path ++ "/") pattern
                  || Fnmatch.fnmatch (name ++ "/") pattern)
           then true
           else if Fnmatch.fnmatch rel_path pattern || Fnmatch.fnmatch name pattern
           then true
           else loop rest
       end) gitignore_patterns.

(** ** os.walk

    Top-down [os.walk]: for each directory it yields the directory path,
    the names of its sub-directories and the names of its other entries,
    and then descends into the sub-directories still named in [dirnames]
    once the loop body has run.  [edit] is what the body does to
    [dirnames] in place; the entries of a directory bear distinct names,
    so that the sub-directories still named are the ones
    [os.path.join(top, name)] designates. *)

Module Os.

Definition dir_names (entries : list node) : list string :=
  flat_map (fun e => match e with Dir d _ => [d] | File _ _ => [] end) entries.

Definition file_names (entries : list node) : list string :=
  flat_map (fun e => match e with File f _ => [f] | Dir _ _ => [] end) entries.

Section Walk.
Variable edit : path -> list string -> list string.

Fixpoint walk (top : path) (n : node) : list (path * list string * list string) :=
  match n with
  | File _ _ => []
  | Dir _ entries =>
      let dirnames := edit top (dir_names entries) in
      (top, dirnames, file_names entries)
        :: flat_map (fun e =>
                       match e with
                       | Dir d _ =>
                           if Str.mem d dirnames
                           then walk (OsPath.join top d) e
                           else []
                       | File _ _ => []
                       end) entries
  end.
End Walk.

End Os.

(** ** scan_and_pack *)

(** The packer's variables, the lines it printed, and two traces kept for
    the statements below: every path handed to [open] for reading, and the
    (path, content) of every entry written to the output file. *)
Record pack_state : Type := mk_pack_state {
  outfile : string;
  file_count : nat;
  total_size : nat;
  stdout : list string;
  opened : list path;
  packed : list (path * string)
}.

Definition path_str (p : path) : string := ("/" ++ Str.join "/" p)%string.

(** The message of the [OSError] that [open(p)] raises when [p] is not a
    file that can be opened. *)
Definition open_error (fs : node) (p : path) : string :=
  if OsPath.isdir fs p
  then ("[Errno 21] Is a directory: '" ++ path_str p ++ "'")%string
  else if existsb (fun k => match fs_lookup fs (firstn k p) with
                            | Some (File _ _) => true
                            | _ => false
                            end) (seq 0 (length p))
  then ("[Errno 20] Not a directory: '" ++ path_str p ++ "'")%string
  else ("[Errno 2] No such file or directory: '" ++ path_str p ++ "'")%string.

(** [open(file_path, 'r', ...).read()] *)
Definition read_file (fs : node) (p : path) : read_result :=
  match fs_lookup fs p with
  | Some (File _ c) => c
  | _ => Unreadable (at_open (open_error fs p))
  end.

(** [list.remove(d)]: drops the first occurrence. *)
Fixpoint list_remove (d : string) (l : list string) : list string :=
  match l with
  | [] => []
  | x :: l' => if String.eqb x d then l' else x :: list_remove d l'
  end.

(** The text appended for one file. *)
Definition section_text (rel_path content : string) : string :=
  (Str.nl ++ "## File: `" ++ rel_path ++ "`" ++ Str.nl ++ Str.nl
   ++ "```" ++ Str.nl ++ content ++ Str.nl ++ "```" ++ Str.nl)%string.

Section Scan.
Variable fs : node.
Variable root_path : path.
Variable gitignore_patterns : list string.

(** Lines 116-119: [for d in list(dirnames): ... dirnames.remove(d)]. *)
Definition prune_dirnames (dirpath : path) (dirnames : list string) : list string :=
  fold_left
    (fun (dirnames : list string) (d : string) =>
       let full_dir_path := OsPath.join dirpath d in
       if is_ignored fs full_dir_path root_path gitignore_patterns
       then list_remove d dirnames
       else dirnames)
    dirnames dirnames.

(** Lines 121-151: the body of [for filename in filenames]. *)
Definition pack_file (dirpath : path) (st : pack_state) (filename : string)
  : pack_state :=
  let file_path := OsPath.join dirpath filename in
  let rel_path := OsPath.relpath file_path root_path in
  if String.eqb filename OUTPUT_FILENAME then st
  else if is_ignored fs file_path root_path gitignore_patterns then st
  else
    let ext := snd (OsPath.splitext filename) in
    if negb (Str.mem (Str.lower ext) INCLUDED_EXTENSIONS) then st
    else
      match read_file fs file_path with
      | Readable content =>
          {| outfile := (outfile st ++ section_text rel_path content)%string;
             file_count := file_count st + 1;
             total_size := total_size st + String.length content;
             stdout := stdout st ++ ["  Packed: " ++ rel_path]%string;
             opened := opened st ++ [file_path];
             packed := packed st ++ [(file_path, content)] |}
      | Unreadable e =>
          {| outfile := outfile st;
             file_count := file_count st;
             total_size := total_size st;
             stdout := stdout st
                         ++ ["  Skipped (Read Error): " ++ rel_path ++ " - " ++ e]%string;
             opened := opened st ++ [file_path];
             packed := packed st |}
      end.

(** Lines 114-151: the loop over [os.walk(root_path)]. *)
Definition walk_loop (st : pack_state) : pack_state :=
  match fs_lookup fs root_path with
  | None => st
  | Some top =>
      fold_left
        (fun st '(dirpath, _, filenames) =>
           fold_left (pack_file dirpath) filenames st)
        (Os.walk prune_dirnames root_path top) st
  end.
End Scan.

(** What a call leaves behind: the file system and the final state, or the
    exception that escaped, with the file system and what had been printed. *)
Inductive outcome : Type :=
| Returned (fs : node) (st : pack_state)
| Raised (fs : node) (printed : list string) (err : string).

Definition scan_and_pack (fs : node) (root_path output_file : path) : outcome :=
  let printed := ["Scanning project at: " ++ path_str root_path ++ "..."]%string in
  let '(gitignore_patterns, warning) := load_gitignore fs root_path in
  (* with open(output_file, 'w') as outfile: the file now exists, empty *)
  match fs_write fs output_file "" with
  | None =>
      Raised fs (printed ++ warning) (open_error fs output_file)
  | Some fs1 =>
      let st0 := {| outfile := META_PROMPT; file_count := 0; total_size := 0;
                    stdout := printed ++ warning; opened := []; packed := [] |} in
      let st := walk_loop fs1 root_path gitignore_patterns st0 in
      (* leaving the with block flushes and closes the output file *)
      match fs_write fs1 output_file (outfile st) with
      | Some fs2 => Returned fs2 st
      | None => Raised fs1 (stdout st) (open_error fs1 output_file)
      end
  end.

(** ** main *)

(** What the process is started with: the two ways of giving the path on
    the command line, the [CONTEXT_ROOT] variable, the working directory,
    and whether the clipboard and the file manager can be reached (the
    exception otherwise). *)
Record invocation : Type := mk_invocation {
  args_path : option string;
  args_flag_path : option string;
  env_CONTEXT_ROOT : option string;
  getcwd : path;
  clipboard_error : option string;
  explorer_error : option string
}.

(** What a run leaves behind. *)
Record world : Type := mk_world {
  w_fs : node;
  w_stdout : list string;
  w_clipboard : option string;
  w_browser : list string;
  w_explorer : list path
}.

(** Python's [a or b]: [None] and the empty string are false. *)
Definition or_else (a : option string) (b : option string) : option string :=
  match a with
  | Some s => if String.eqb s "" then b else a
  | None => b
  end.

Definition decimal (n : N) : string :=
  NilEmpty.string_of_uint (N.to_uint n).

(** The floating-point number that stands for an integer in a true
    division by a power of two: the integer itself below [2^53], and from
    there on the nearest integer with 53 significant bits, the even one
    when half-way.  (From about [2^1034] on the division raises
    [OverflowError]; no file system holds that many characters, and this
    is not modelled.) *)
Definition to_float (n : N) : N :=
  if (n <? 2 ^ 53)%N then n
  else
    let e := (N.log2 n - 52)%N in
    let m := (n / 2 ^ e)%N in
    let r := (n mod 2 ^ e)%N in
    let half := (2 ^ (e - 1))%N in
    let m' := if (half <? r)%N then (m + 1)%N
              else if (r =? half)%N then (if N.even m then m else m + 1)%N
              else m in
    (m' * 2 ^ e)%N.

(** [f"{total_chars / 1024 / 1024:.2f}"]: the count is rounded to a
    floating-point number by the first division, dividing by a power of
    two is exact from there, and the formatting rounds the exact quotient
    to the nearest hundredth, to the even one when half-way. *)
Definition format_mb (total_chars : N) : string :=
  let q := ((to_float total_chars * 100) / 1048576)%N in
  let r := ((to_float total_chars * 100) mod 1048576)%N in
  let cents :=
    if (524288 <? r)%N then (q + 1)%N
    else if (r =? 524288)%N then (if N.even q then q else q + 1)%N
    else q in
  let frac := (cents mod 100)%N in
  (decimal (cents / 100) ++ "."
   ++ (if (frac <? 10)%N then "0" else "") ++ decimal frac)%string.

Definition dashes : string := "--------------------------------------------------".

(** Lines 177-179 and 185: the root to scan and the output file. *)
Definition target_path_of (inv : invocation) : path :=
  match or_else (args_path inv) (or_else (args_flag_path inv) (env_CONTEXT_ROOT inv)) with
  | Some s => OsPath.abspath (getcwd inv) s
  | None => getcwd inv
  end.

Definition output_path_of (inv : invocation) : path :=
  OsPath.join (getcwd inv) OUTPUT_FILENAME.

Definition success_line : string :=
  ("SUCCESS! Context packed into: " ++ OUTPUT_FILENAME)%string.

Definition nothing_line : string := "No matching files found to pack.".

(** Lines 169-230, on a host that is not Windows.  An interrupt from the
    keyboard is not modelled. *)
Definition main (inv : invocation) (fs : node) : world :=
  let target_path := target_path_of inv in
  if negb (OsPath.isdir fs target_path) then
    {| w_fs := fs;
       w_stdout := ["Error: The path '" ++ path_str target_path
                      ++ "' is not a valid directory."]%string;
       w_clipboard := None; w_browser := []; w_explorer := [] |}
  else
    let output_path := output_path_of inv in
    match scan_and_pack fs target_path output_path with
    | Raised fs' printed e =>
        {| w_fs := fs';
           w_stdout := printed ++ [Str.nl ++ "An error occurred: " ++ e]%string;
           w_clipboard := None; w_browser := []; w_explorer := [] |}
    | Returned fs' st =>
        if (file_count st =? 0)%nat then
          {| w_fs := fs';
             w_stdout := stdout st ++ [nothing_line];
             w_clipboard := None; w_browser := []; w_explorer := [] |}
        else
          let clipboard := match clipboard_error inv with
                           | None => Some USER_PROMPT
                           | Some _ => None
                           end in
          let prompt_status := match clipboard_error inv with
                               | None => "Copied to clipboard!"
                               | Some _ => "Could not copy to clipboard (missing dependency?)"
                               end in
          match fs_write fs' (OsPath.join (getcwd inv) "prompt.txt") USER_PROMPT with
          | None =>
              {| w_fs := fs';
                 w_stdout := stdout st
                   ++ [Str.nl ++ "An error occurred: [Errno 21] Is a directory: 'prompt.txt'"]%string;
                 w_clipboard := clipboard; w_browser := []; w_explorer := [] |}
          | Some fs'' =>
              {| w_fs := fs'';
                 w_stdout := stdout st
                   ++ [ dashes;
                        success_line;
                        " - Files included: " ++ decimal (N.of_nat (file_count st));
                        " - Approximate size: " ++ format_mb (N.of_nat (total_size st)) ++ " MB";
                        dashes;
                        "INSTRUCTION PROMPT: " ++ prompt_status;
                        dashes;
                        "STEPS:";
                        "1. Gemini Web App is opening...";
                        "2. DRAG & DROP 'codebase_context.md' into the chat.";
                        "3. PASTE (Ctrl+V) the instruction prompt.";
                        dashes ]%string
                   ++ match explorer_error inv with
                      | None => []
                      | Some e => ["Could not open file explorer: " ++ e]%string
                      end;
                 w_clipboard := clipboard;
                 w_browser := [GEMINI_URL];
                 w_explorer := match explorer_error inv with
                               | None => [getcwd inv]
                               | Some _ => []
                               end |}
          end
    end.

(** ** Notions used in the statements *)

(** The three stages of [is_ignored], each on its own. *)
Definition default_exact (name : string) : bool :=
  Str.mem name DEFAULT_IGNORE_DIRS.

Definition default_wildcard (name : string) : bool :=
  existsb (fun pattern => Str.contains "*" pattern && Fnmatch.fnmatch name pattern)
          DEFAULT_IGNORE_DIRS.

Definition pattern_hits (fs : node) (p root_path : path) (pattern : string) : bool :=
  let name := OsPath.basename p in
  let rel_path := OsPath.relpath p root_path in
  (Str.endswith pattern "/" && OsPath.isdir fs p
   && (Fnmatch.fnmatch (rel_path ++ "/") pattern || Fnmatch.fnmatch (name ++ "/") pattern))
  || (Fnmatch.fnmatch rel_path pattern || Fnmatch.fnmatch name pattern).

(** A name a directory entry can have: not empty, no slash in it. *)
Definition valid_name (x : string) : bool :=
  negb (String.eqb x "") && negb (Str.contains "/" x).

(** The directories below [dirpath] named, one after the other, by
    [comps] are all let through by the ignore rules. *)
Fixpoint dirs_kept (fs : node) (root_path : path) (pats : list string)
    (dirpath : path) (comps : list string) : bool :=
  match comps with
  | [] => true
  | d :: rest =>
      negb (is_ignored fs (OsPath.join dirpath d) root_path pats)
      && dirs_kept fs root_path pats (OsPath.join dirpath d) rest
  end.

(** The test of lines 133-135 on a file name. *)
Definition extension_allowed (filename : string) : bool :=
  Str.mem (Str.lower (snd (OsPath.splitext filename))) INCLUDED_EXTENSIONS.

(** The conditions under which [pack_file] hands a path to [open]. *)
Definition eligible (fs : node) (root_path : path) (pats : list string) (p : path) : Prop :=
  exists comps filename,
    p = root_path ++ comps ++ [filename]
    /\ dirs_kept fs root_path pats root_path comps = true
    /\ filename <> OUTPUT_FILENAME
    /\ is_ignored fs p root_path pats = false
    /\ extension_allowed filename = true.

(** What ties the traces to the packer's own variables. *)
Definition consistent (fs : node) (root_path : path) (pats : list string)
    (st : pack_state) : Prop :=
  file_count st = length (packed st)
  /\ total_size st = list_sum (map (fun e => String.length (snd e)) (packed st))
  /\ outfile st
     = (META_PROMPT
        ++ Str.concat
             (map (fun e => section_text (OsPath.relpath (fst e) root_path) (snd e))
                  (packed st)))%string
  /\ Forall (fun e => In (fst e) (opened st) /\ read_file fs (fst e) = Readable (snd e))
            (packed st)
  /\ Forall (eligible fs root_path pats) (opened st).

(** The state when the loop starts. *)
Definition initial_state (printed : list string) : pack_state :=
  {| outfile := META_PROMPT; file_count := 0; total_size := 0;
     stdout := printed; opened := []; packed := [] |}.

(** The line printed for a file that could not be read. *)
Definition skip_line (root_path p : path) (e : string) : string :=
  ("  Skipped (Read Error): " ++ OsPath.relpath p root_path ++ " - " ++ e)%string.

(** Every path opened was either packed or reported as skipped. *)
Definition accounted (fs : node) (root_path : path) (st : pack_state) : Prop :=
  Forall (fun p => match read_file fs p with
                   | Readable content => In (p, content) (packed st)
                   | Unreadable e => In (skip_line root_path p e) (stdout st)
                   end) (opened st).

(** The lines [scan_and_pack] prints all start in one of three ways. *)
Definition scan_line (l : string) : bool :=
  Str.startswith l "Scanning project at: "
  || Str.startswith l "Warning: Could not read .gitignore: "
  || Str.startswith l "  ".

(** The file [fs_write] creates when the last component is missing. *)
Definition fresh_file (c : string) (p' : path) (text : string) : option node :=
  match p' with [] => Some (File c (Readable text)) | _ => None end.

(** What a lookup tells apart: nothing there, a directory, or a file with
    its name and content. *)
Definition kind (o : option node) : option (option (string * read_result)) :=
  match o with
  | None => None
  | Some (Dir _ _) => Some None
  | Some (File x r) => Some (Some (x, r))
  end.

(** Names and nesting of a tree, contents forgotten. *)
Fixpoint shape (n : node) : node :=
  match n with
  | File x _ => File x (Readable "")
  | Dir x es => Dir x (map shape es)
  end.

(** Induction on a tree, with the property known of every entry of a
    directory. *)
Section NodeInduction.
Variable P : node -> Prop.
Hypothesis HFile : forall x c, P (File x c).
Hypothesis HDir : forall x es, Forall P es -> P (Dir x es).

Fixpoint node_ind (n : node) : P n :=
  match n with
  | File x c => HFile x c
  | Dir x es =>
      HDir x es
        ((fix all (es : list node) : Forall P es :=
            match es with
            | [] => Forall_nil P
            | e :: es' => Forall_cons e (node_ind e) (all es')
            end) es)
  end.
End NodeInduction.

(** ** Sample trees and runs *)

Definition demo_fs : node :=
  Dir "" [ Dir "proj"
             [ File ".gitignore" (Readable "# build output
out/
  *.tmp  

secret.txt");
               File "a.py" (Readable "print(1)");
               File "a.log" (Readable "noise");
               File "out" (Readable "a file called out");
               File "notes.TXT" (Readable "hello");
               File ".env" (Readable "KEY=1");
               File "x.env" (Readable "KEY=2");
               File "locked.py" (Unreadable (at_open "[Errno 13] Permission denied"));
               File "secret.txt" (Readable "s");
               File "codebase_context.md" (Readable "old artifact");
               Dir "node_modules" [ File "x.py" (Readable "dep") ];
               Dir "src" [ File "b.tmp" (Readable "t");
                           File "main.c" (Readable "int main;");
                           Dir "out" [ File "gen.py" (Readable "g") ];
                           Dir "deep" [ Dir "build" [ File "y.py" (Readable "y") ] ] ] ] ].

Definition demo_run : outcome :=
  scan_and_pack demo_fs ["proj"] ["proj"; OUTPUT_FILENAME].

Definition fs_after (o : outcome) : node :=
  match o with Returned fs' _ => fs' | Raised fs' _ _ => fs' end.

Definition state_after (o : outcome) : pack_state :=
  match o with
  | Returned _ st => st
  | Raised _ printed _ => mk_pack_state "" 0 0 printed [] []
  end.

Definition demo_after : node := fs_after demo_run.
Definition demo_state : pack_state := state_after demo_run.

Definition demo_inv : invocation :=
  {| args_path := None; args_flag_path := Some ""; env_CONTEXT_ROOT := None;
     getcwd := ["proj"]; clipboard_error := None; explorer_error := None |}.

Definition demo_walk_fs : node :=
  match fs_write demo_fs ["proj"; OUTPUT_FILENAME] "" with
  | Some fs1 => fs1
  | None => demo_fs
  end.

Definition empty_fs : node :=
  Dir "" [ Dir "work" [ File "a.log" (Readable "noise");
                        File "README" (Readable "no extension");
                        Dir "node_modules" [ File "x.py" (Readable "dep") ] ] ].

Definition empty_inv : invocation :=
  {| args_path := None; args_flag_path := None; env_CONTEXT_ROOT := Some "/work/";
     getcwd := ["work"]; clipboard_error := None; explorer_error := None |}.

Definition pruned_fs : node :=
  Dir "" [ Dir "proj" [ File "a.py" (Readable "print(1)"); Dir "build" [] ] ].

Definition pruned_inv : invocation :=
  {| args_path := Some "/proj"; args_flag_path := None; env_CONTEXT_ROOT := None;
     getcwd := ["proj"; "build"]; clipboard_error := None; explorer_error := None |}.

(** ** Further notions *)

(** The line printed for a file handed to [open]. *)
Definition log_line (fs : node) (root_path p : path) : string :=
  match read_file fs p with
  | Readable _ => ("  Packed: " ++ OsPath.relpath p root_path)%string
  | Unreadable e => skip_line root_path p e
  end.

Definition is_readable (fs : node) (p : path) : bool :=
  match read_file fs p with Readable _ => true | Unreadable _ => false end.

(** The same invocation on a host whose clipboard and file manager answer
    differently. *)
Definition with_collaborators (inv : invocation) (ce ee : option string) : invocation :=
  {| args_path := args_path inv;
     args_flag_path := args_flag_path inv;
     env_CONTEXT_ROOT := env_CONTEXT_ROOT inv;
     getcwd := getcwd inv;
     clipboard_error := ce;
     explorer_error := ee |}.

(** A pattern without any of the characters [fnmatch] gives a meaning. *)
Definition plain_char (c : ascii) : bool :=
  negb (Ascii.eqb c "*") && negb (Ascii.eqb c "?") && negb (Ascii.eqb c "[").

Definition plain (pattern : string) : bool :=
  forallb plain_char (list_ascii_of_string pattern).

(** A line of [.gitignore] as [load_gitignore] keeps it: stripped, not
    empty, not a comment, and on one line. *)
Definition clean_pattern (pattern : string) : bool :=
  negb (String.eqb pattern "")
  && negb (Str.startswith pattern "#")
  && String.eqb (Str.strip pattern) pattern
  && negb (Str.contains (ascii_of_nat 10) pattern)
  && negb (Str.contains (ascii_of_nat 13) pattern).

(** The entry written for a path handed to [open]: none when the read fails. *)
Definition packed_entry (fs : node) (p : path) : list (path * string) :=
  match read_file fs p with
  | Readable content => [(p, content)]
  | Unreadable _ => []
  end.

(** The first line [scan_and_pack] prints. *)
Definition scanning_line (root_path : path) : string :=
  ("Scanning project at: " ++ path_str root_path ++ "...")%string.

(** A [.gitignore] with one pattern on each line. *)
Definition tidy_patterns : list string := ["out/"; "*.tmp"; "secret.txt"].

Definition tidy_fs : node :=
  Dir "" [ Dir "proj" [ File ".gitignore" (Readable "out/
*.tmp
secret.txt");
                        File "a.py" (Readable "print(1)") ] ].

(** A [.gitignore] whose read fails after its first two lines. *)
Definition torn_fs : node :=
  Dir "" [ Dir "proj" [ File ".gitignore"
                          (Unreadable {| delivered := "# generated
gen/
";
                                         message := "[Errno 5] Input/output error" |});
                        File "a.py" (Readable "print(1)");
                        Dir "gen" [ File "g.py" (Readable "g") ] ] ].

(** The state [st] continues [st0]: the paths opened since then, with the
    lines printed and the entries written for them. *)
Definition continues (fs : node) (root_path : path) (st0 st : pack_state) : Prop :=
  exists new,
    opened st = opened st0 ++ new
    /\ stdout st = stdout st0 ++ map (log_line fs root_path) new
    /\ packed st = packed st0 ++ flat_map (packed_entry fs) new.

(** The entries of every directory bear distinct names. *)
Fixpoint distinct (l : list string) : bool :=
  match l with
  | [] => true
  | x :: l' => negb (Str.mem x l') && distinct l'
  end.

Fixpoint well_formed (n : node) : bool :=
  match n with
  | File _ _ => true
  | Dir _ es => distinct (map node_name es) && forallb well_formed es
  end.

(** The three tests of [pack_file] on a path. *)
Definition passes (fs : node) (root_path : path) (pats : list string) (p : path) : bool :=
  negb (String.eqb (OsPath.basename p) OUTPUT_FILENAME)
  && negb (is_ignored fs p root_path pats)
  && extension_allowed (OsPath.basename p).

(** The files of the directories a walk yields, in its order. *)
Definition files_walked (walked : list (path * list string * list string)) : list path :=
  flat_map (fun t => map (OsPath.join (fst (fst t))) (snd t)) walked.

(** A component of a normalised path: a name other than [.] and [..]. *)
Definition normal_name (c : string) : bool :=
  valid_name c && negb (String.eqb c ".") && negb (String.eqb c "..").

(** The digits [format_mb] prints for a number of hundredths. *)
Definition hundredths (cents : N) : string :=
  (decimal (cents / 100) ++ "."
   ++ (if (cents mod 100 <? 10)%N then "0" else "") ++ decimal (cents mod 100))%string.

(** * Properties *)

(** ** The model on the sample trees *)

Example fnmatch_log : Fnmatch.fnmatch "a.log" "*.log" = true.
Proof. reflexivity. Qed.

Example fnmatch_set :
  Fnmatch.fnmatch "b7" "[a-c][!a-z]" = true /\
  Fnmatch.fnmatch "d7" "[a-c][!a-z]" = false /\
  Fnmatch.fnmatch "]" "[]a]" = true /\
  Fnmatch.fnmatch "[a" "[a" = true /\
  Fnmatch.fnmatch "-" "[a-]" = true /\
  Fnmatch.fnmatch "src/x.py" "*.py" = true /\
  Fnmatch.fnmatch "build" "build/" = false.
Proof. repeat split; reflexivity. Qed.

Example splitext_examples :
  OsPath.splitext "notes.TXT" = ("notes", ".TXT") /\
  OsPath.splitext ".env" = (".env", "") /\
  OsPath.splitext "x.env" = ("x", ".env") /\
  OsPath.splitext "a.tar.gz" = ("a.tar", ".gz") /\
  OsPath.splitext "..x" = ("..x", "") /\
  OsPath.splitext "Makefile" = ("Makefile", "").
Proof. repeat split; reflexivity. Qed.

Example relpath_examples :
  OsPath.relpath ["home"; "u"; "proj"; "src"; "a.py"] ["home"; "u"; "proj"] = "src/a.py" /\
  OsPath.relpath ["home"; "u"; "proj"] ["home"; "u"; "proj"] = "." /\
  OsPath.relpath ["home"; "v"] ["home"; "u"; "proj"] = "../../v" /\
  OsPath.abspath ["home"; "u"] "proj/../x/./y" = ["home"; "u"; "x"; "y"] /\
  OsPath.abspath ["home"; "u"] "/srv//data/" = ["srv"; "data"].
Proof. repeat split; reflexivity. Qed.

Example load_gitignore_demo :
  load_gitignore demo_fs ["proj"] = (["out/"; "*.tmp"; "secret.txt"], []).
Proof. reflexivity. Qed.

Example is_ignored_demo :
  let pats := fst (load_gitignore demo_fs ["proj"]) in
  is_ignored demo_fs ["proj"; "out"] ["proj"] pats = false /\
  is_ignored demo_fs ["proj"; "src"; "out"] ["proj"] pats = true /\
  is_ignored demo_fs ["proj"; "src"; "b.tmp"] ["proj"] pats = true /\
  is_ignored demo_fs ["proj"; "a.log"] ["proj"] pats = true /\
  is_ignored demo_fs ["proj"; "node_modules"] ["proj"] pats = true /\
  is_ignored demo_fs ["proj"; "a.py"] ["proj"] pats = false.
Proof. repeat split; reflexivity. Qed.

Lemma demo_run_returned :
  scan_and_pack demo_fs ["proj"] ["proj"; OUTPUT_FILENAME] = Returned demo_after demo_state.
Proof. vm_compute. reflexivity. Qed.

Example demo_run_packs :
  match demo_run with
  | Returned _ st =>
      map fst (packed st)
      = [ ["proj"; "a.py"]; ["proj"; "notes.TXT"]; ["proj"; "x.env"];
          ["proj"; "src"; "main.c"] ]
      /\ opened st
      = [ ["proj"; "a.py"]; ["proj"; "notes.TXT"]; ["proj"; "x.env"];
          ["proj"; "locked.py"]; ["proj"; "src"; "main.c"] ]
      /\ file_count st = 4 /\ total_size st = 27
  | Raised _ _ _ => False
  end.
Proof. vm_compute. repeat split. Qed.

Example demo_main_stdout :
  w_stdout (main demo_inv demo_fs)
  = [ "Scanning project at: /proj...";
      "  Packed: a.py"; "  Packed: notes.TXT"; "  Packed: x.env";
      "  Skipped (Read Error): locked.py - [Errno 13] Permission denied";
      "  Packed: src/main.c";
      dashes;
      "SUCCESS! Context packed into: codebase_context.md";
      " - Files included: 4";
      " - Approximate size: 0.00 MB";
      dashes;
      "INSTRUCTION PROMPT: Copied to clipboard!";
      dashes;
      "STEPS:";
      "1. Gemini Web App is opening...";
      "2. DRAG & DROP 'codebase_context.md' into the chat.";
      "3. PASTE (Ctrl+V) the instruction prompt.";
      dashes ].
Proof. vm_compute. reflexivity. Qed.

Example format_mb_examples :
  format_mb 0 = "0.00" /\ format_mb 5243 = "0.01" /\ format_mb 5242 = "0.00" /\
  format_mb 13002343 = "12.40" /\ format_mb 1048576 = "1.00" /\
  format_mb 131072 = "0.12" /\ format_mb 393216 = "0.38".
Proof. vm_compute. repeat split. Qed.

(** From [2^53] on the count is rounded before it is divided. *)
Example format_mb_large :
  format_mb (2 ^ 53 + 1) = "8589934592.00" /\
  format_mb (2 ^ 66 + 5243) = "70368744177664.00" /\
  to_float (2 ^ 53 + 1) = (2 ^ 53)%N /\ to_float (2 ^ 53 + 3) = (2 ^ 53 + 4)%N.
Proof. vm_compute. repeat split. Qed.

(** ** Strings and patterns *)

Lemma list_ascii_app (a b : string) :
  list_ascii_of_string (a ++ b) = list_ascii_of_string a ++ list_ascii_of_string b.
Proof. induction a as [|c a IH]; simpl; [reflexivity | now rewrite IH]. Qed.

Lemma append_assoc (a b c : string) : ((a ++ b) ++ c = a ++ (b ++ c))%string.
Proof. induction a as [|x a IH]; simpl; [reflexivity | now rewrite IH]. Qed.

Lemma endswith_cons (a : ascii) (s suffix : string) :
  Str.endswith (String a s) suffix
  = if String.eqb (String a s) suffix then true else Str.endswith s suffix.
Proof. reflexivity. Qed.

Lemma endswith_char (s : string) (c : ascii) :
  Str.endswith s (String c "") = true ->
  exists l, list_ascii_of_string s = l ++ [c].
Proof.
  induction s as [|a s IH].
  - discriminate.
  - rewrite endswith_cons.
    destruct (String.eqb (String a s) (String c "")) eqn:E.
    + apply String.eqb_eq in E. inversion E; subst. now exists [].
    + intros H. destruct (IH H) as [l Hl]. exists (a :: l). simpl. now rewrite Hl.
Qed.

Lemma index_from_spec (c : ascii) (s : list ascii) (i j : nat) :
  Fnmatch.index_from c s i = Some j -> i <= j /\ nth_error s (j - i) = Some c.
Proof.
  revert i. induction s as [|a s IH]; simpl; intros i H; [discriminate|].
  destruct (Ascii.eqb a c) eqn:E.
  - inversion H; subst. apply Ascii.eqb_eq in E. subst.
    rewrite Nat.sub_diag. split; [lia | reflexivity].
  - destruct (IH _ H) as [Hle Hn]. split; [lia|].
    replace (j - i) with (S (j - S i)) by lia. exact Hn.
Qed.

Lemma nth_error_skipn {A} (l : list A) (k n : nat) :
  nth_error (skipn k l) n = nth_error l (k + n).
Proof.
  revert l. induction k as [|k IH]; intros l; [reflexivity|].
  destruct l; simpl; [now destruct n | apply IH].
Qed.

Lemma find_close_spec (rest : list ascii) (j : nat) :
  Fnmatch.find_close rest = Some j -> nth_error rest j = Some "]"%char.
Proof.
  unfold Fnmatch.find_close. intros H.
  apply index_from_spec in H. destruct H as [Hle Hn].
  rewrite nth_error_skipn in Hn.
  match type of Hn with nth_error _ (?a + (j - ?b)) = _ =>
    replace (a + (j - b)) with j in Hn by lia end.
  exact Hn.
Qed.

(** A pattern that ends in a character other than a bracket, a star or a
    question mark is translated to items that end in that literal. *)
Lemma translate_from_last (c : ascii) (l : list ascii) (skip : nat) :
  c <> "]"%char -> c <> "*"%char -> c <> "?"%char -> c <> "["%char ->
  skip <= length l ->
  exists items, Fnmatch.translate_from skip (l ++ [c]) = items ++ [Fnmatch.Lit c].
Proof.
  intros Hc1 Hc2 Hc3 Hc4. revert skip.
  induction l as [|a l IH]; intros skip Hs.
  - assert (skip = 0) by (simpl in Hs; lia). subst. simpl.
    apply Ascii.eqb_neq in Hc2, Hc3, Hc4. rewrite Hc2, Hc3, Hc4. now exists [].
  - simpl. destruct skip as [|k].
    + destruct (Ascii.eqb a "*").
      { destruct (IH 0 ltac:(lia)) as [it E]. rewrite E. now exists (Fnmatch.Star :: it). }
      destruct (Ascii.eqb a "?").
      { destruct (IH 0 ltac:(lia)) as [it E]. rewrite E. now exists (Fnmatch.AnyChar :: it). }
      destruct (Ascii.eqb a "[").
      * destruct (Fnmatch.find_close (l ++ [c])) as [j|] eqn:F.
        -- pose proof (find_close_spec _ _ F) as Hn.
           assert (j < length l).
           { assert (j < length (l ++ [c])) by (apply nth_error_Some; congruence).
             rewrite length_app in H. simpl in H.
             destruct (Nat.eq_dec j (length l)) as [->|]; [|lia].
             rewrite nth_error_app2, Nat.sub_diag in Hn by lia.
             simpl in Hn. congruence. }
           destruct (IH (S j) ltac:(lia)) as [it E]. rewrite E.
           now exists (Fnmatch.charset (firstn j (l ++ [c])) :: it).
        -- destruct (IH 0 ltac:(lia)) as [it E]. rewrite E.
           now exists (Fnmatch.Lit "[" :: it).
      * destruct (IH 0 ltac:(lia)) as [it E]. rewrite E. now exists (Fnmatch.Lit a :: it).
    + simpl in Hs. apply IH. lia.
Qed.

Lemma match_items_star (items : list Fnmatch.item) (s : list ascii) :
  Fnmatch.match_items (Fnmatch.Star :: items) s
  = Fnmatch.match_items items s
    || match s with
       | [] => false
       | _ :: s' => Fnmatch.match_items (Fnmatch.Star :: items) s'
       end.
Proof. destruct s; reflexivity. Qed.

(** Items that end in a literal only match names that end in it. *)
Lemma match_items_last (c : ascii) (items : list Fnmatch.item) (s : list ascii) :
  Fnmatch.match_items (items ++ [Fnmatch.Lit c]) s = true ->
  exists s', s = s' ++ [c].
Proof.
  revert s. induction items as [|it items IH]; intros s.
  - simpl. destruct s as [|a [|b s]]; simpl.
    + discriminate.
    + rewrite andb_true_r. intros E. apply Ascii.eqb_eq in E. subst. now exists [].
    + rewrite andb_false_r. discriminate.
  - assert (Hstep : forall s, (match s with
                               | [] => false
                               | a :: s' => Fnmatch.item_matches it a
                                            && Fnmatch.match_items (items ++ [Fnmatch.Lit c]) s'
                               end) = true -> exists s', s = s' ++ [c]).
    { intros [|a s'] H; [discriminate|].
      apply andb_true_iff in H. destruct H as [_ H].
      destruct (IH _ H) as [t ->]. now exists (a :: t). }
    destruct it; try (intros H; apply Hstep; destruct s; exact H).
    change ((Fnmatch.Star :: items) ++ [Fnmatch.Lit c])
      with (Fnmatch.Star :: (items ++ [Fnmatch.Lit c])).
    induction s as [|a s IHs]; rewrite match_items_star; intros H.
    + rewrite orb_false_r in H. now apply IH.
    + apply orb_true_iff in H. destruct H as [H|H]; [now apply IH|].
      destruct (IHs H) as [t ->]. now exists (a :: t).
Qed.

(** A pattern ending in a slash matches nothing but names ending in one. *)
Lemma fnmatch_trailing_slash (name pat : string) :
  Str.endswith pat "/" = true ->
  Fnmatch.fnmatch name pat = true ->
  exists l, list_ascii_of_string name = l ++ ["/"%char].
Proof.
  intros He Hm. apply endswith_char in He. destruct He as [l Hl].
  unfold Fnmatch.fnmatch, Fnmatch.translate in Hm. rewrite Hl in Hm.
  destruct (translate_from_last "/" l 0) as [items E]; try discriminate; [lia|].
  rewrite E in Hm. now apply match_items_last in Hm.
Qed.

(** ** The ignore rules *)

Lemma is_ignored_stages (fs : node) (p root_path : path) (pats : list string) :
  is_ignored fs p root_path pats
  = default_exact (OsPath.basename p)
    || default_wildcard (OsPath.basename p)
    || existsb (pattern_hits fs p root_path) pats.
Proof.
  unfold is_ignored, default_exact, default_wildcard.
  destruct (Str.mem _ _); [reflexivity|].
  destruct (existsb _ DEFAULT_IGNORE_DIRS); [reflexivity|]. simpl.
  induction pats as [|pat pats IH]; [reflexivity|].
  simpl. unfold pattern_hits at 1.
  destruct (Str.endswith pat "/" && OsPath.isdir fs p && _); [reflexivity|].
  destruct (Fnmatch.fnmatch _ pat || Fnmatch.fnmatch _ pat); [reflexivity|].
  exact IH.
Qed.

Lemma mem_In (x : string) (xs : list string) : Str.mem x xs = true <-> In x xs.
Proof.
  unfold Str.mem. rewrite existsb_exists. split.
  - intros [y [Hy E]]. apply String.eqb_eq in E. now subst.
  - intros H. exists x. split; [exact H | apply String.eqb_refl].
Qed.

Lemma contains_app_last (c : ascii) (s : string) (l : list ascii) :
  list_ascii_of_string s = l ++ [c] -> Str.contains c s = true.
Proof.
  revert l. induction s as [|a s IH]; intros l H; simpl in *.
  - now destruct l.
  - destruct l as [|b l]; simpl in H; inversion H; subst.
    + now rewrite Ascii.eqb_refl.
    + rewrite (IH l); [apply orb_true_r | assumption].
Qed.

Lemma join_ends_with_last (sep : string) (parts : list string) :
  parts <> [] -> exists pre, Str.join sep parts = (pre ++ last parts "")%string.
Proof.
  induction parts as [|x parts IH]; [congruence|]. intros _.
  destruct parts as [|y parts].
  - now exists ""%string.
  - destruct IH as [pre E]; [discriminate|].
    exists (x ++ sep ++ pre)%string.
    change (Str.join sep (x :: y :: parts))
      with (x ++ sep ++ Str.join sep (y :: parts))%string.
    rewrite E. change (last (x :: y :: parts) "") with (last (y :: parts) "").
    now rewrite !append_assoc.
Qed.

Lemma no_trailing_slash (pre x : string) (l : list ascii) :
  valid_name x = true ->
  list_ascii_of_string (pre ++ x) <> l ++ ["/"%char].
Proof.
  unfold valid_name. intros Hv H.
  apply andb_true_iff in Hv. destruct Hv as [Hne Hns].
  apply negb_true_iff in Hne, Hns. apply String.eqb_neq in Hne.
  rewrite list_ascii_app in H.
  destruct (list_ascii_of_string x) as [|a t] eqn:Ex.
  - destruct x; [congruence | discriminate].
  - destruct (exists_last (l := a :: t)) as [t' [z Ez]]; [discriminate|].
    rewrite Ez, app_assoc in H. apply app_inj_tail in H. destruct H as [_ ->].
    rewrite <- Ex in Ez. apply contains_app_last in Ez. congruence.
Qed.

Lemma last_In {A} (l : list A) (d : A) : l <> [] -> In (last l d) l.
Proof.
  intros H. destruct (exists_last H) as [q [z ->]].
  rewrite last_last. apply in_or_app. right. now left.
Qed.

(** Neither the basename nor the root-relative form of a path made of
    valid names ends in a slash. *)
Lemma basename_no_trailing_slash (p : path) (l : list ascii) :
  forallb valid_name p = true ->
  list_ascii_of_string (OsPath.basename p) <> l ++ ["/"%char].
Proof.
  intros Hp. unfold OsPath.basename.
  destruct (list_eq_dec string_dec p []) as [->|Hne].
  - simpl. now destruct l.
  - apply (no_trailing_slash "").
    rewrite forallb_forall in Hp. apply Hp. now apply last_In.
Qed.

Lemma relpath_no_trailing_slash (p root_path : path) (l : list ascii) :
  forallb valid_name p = true ->
  list_ascii_of_string (OsPath.relpath p root_path) <> l ++ ["/"%char].
Proof.
  intros Hp. unfold OsPath.relpath.
  set (i := length (OsPath.commonprefix root_path p)).
  set (rel_list := repeat ".." (length root_path - i) ++ skipn i p).
  assert (Hall : forall x, In x rel_list -> valid_name x = true).
  { intros x Hx. apply in_app_or in Hx. destruct Hx as [Hx|Hx].
    - apply repeat_spec in Hx. now subst.
    - rewrite forallb_forall in Hp. apply Hp.
      rewrite <- (firstn_skipn i p). apply in_or_app. now right. }
  destruct rel_list as [|x r] eqn:E.
  - destruct l as [|a [|b l]]; discriminate.
  - destruct (join_ends_with_last OsPath.sep (x :: r)) as [pre ->]; [discriminate|].
    apply no_trailing_slash. apply Hall. apply last_In. discriminate.
Qed.

(** For a path that is not a directory, made of valid names, a pattern
    ending in a slash never hits. *)
Lemma pattern_hits_slash_file (fs : node) (p root_path : path) (pattern : string) :
  forallb valid_name p = true ->
  OsPath.isdir fs p = false ->
  Str.endswith pattern "/" = true ->
  pattern_hits fs p root_path pattern = false.
Proof.
  intros Hp Hd He. unfold pattern_hits. rewrite Hd, andb_false_r. simpl.
  apply orb_false_iff. split.
  - destruct (Fnmatch.fnmatch _ pattern) eqn:F; [|reflexivity].
    destruct (fnmatch_trailing_slash _ _ He F) as [l Hl].
    now apply relpath_no_trailing_slash in Hl.
  - destruct (Fnmatch.fnmatch _ pattern) eqn:F; [|reflexivity].
    destruct (fnmatch_trailing_slash _ _ He F) as [l Hl].
    now apply basename_no_trailing_slash in Hl.
Qed.

(** C1.  A pattern of the .gitignore that ends in a slash is a
    directory-only rule.  For a candidate that is not a directory, the
    answer of [is_ignored] is the one it gives with every such pattern
    struck from the list: these patterns never cause a file to be ignored,
    whatever its name.  For a candidate that is a directory, such a pattern
    excludes it as soon as its basename or its root-relative path, with a
    slash appended, matches. *)
Theorem trailing_slash_pattern_excludes_directories_only
    (fs : node) (p root_path : path) (pats : list string) :
  forallb valid_name p = true ->
  (OsPath.isdir fs p = false ->
   is_ignored fs p root_path pats
   = is_ignored fs p root_path
       (filter (fun pattern => negb (Str.endswith pattern "/")) pats))
  /\ (forall pattern,
        In pattern pats -> Str.endswith pattern "/" = true ->
        OsPath.isdir fs p = true ->
        Fnmatch.fnmatch (OsPath.relpath p root_path ++ "/") pattern = true
        \/ Fnmatch.fnmatch (OsPath.basename p ++ "/") pattern = true ->
        is_ignored fs p root_path pats = true).
Proof.
  intros Hp. split.
  - intros Hd. rewrite !is_ignored_stages. f_equal.
    induction pats as [|pat pats IH]; [reflexivity|].
    simpl. destruct (Str.endswith pat "/") eqn:E; simpl.
    + now rewrite (pattern_hits_slash_file _ _ _ _ Hp Hd E).
    + now rewrite IH.
  - intros pattern Hin He Hd Hm. rewrite is_ignored_stages.
    apply orb_true_iff. right. apply existsb_exists. exists pattern.
    split; [exact Hin|]. unfold pattern_hits. rewrite He, Hd. simpl.
    apply orb_true_iff. left. apply orb_true_iff.
    destruct Hm as [Hm|Hm]; [left | right]; exact Hm.
Qed.

(** On the sample tree: the line [out/] of the .gitignore leaves the file
    [out] alone and excludes the directory [src/out]. *)
Lemma trailing_slash_pattern_witness :
  is_ignored demo_fs ["proj"; "out"] ["proj"] ["out/"; "*.tmp"; "secret.txt"] = false
  /\ is_ignored demo_fs ["proj"; "src"; "out"] ["proj"] ["out/"; "*.tmp"; "secret.txt"] = true.
Proof.
  split.
  - rewrite (proj1 (trailing_slash_pattern_excludes_directories_only
                      demo_fs ["proj"; "out"] ["proj"]
                      ["out/"; "*.tmp"; "secret.txt"] eq_refl) eq_refl).
    reflexivity.
  - apply (proj2 (trailing_slash_pattern_excludes_directories_only
                    demo_fs ["proj"; "src"; "out"] ["proj"]
                    ["out/"; "*.tmp"; "secret.txt"] eq_refl) "out/").
    + now left.
    + reflexivity.
    + reflexivity.
    + right. reflexivity.
Defined.

Lemma default_wildcard_spec (name : string) :
  default_wildcard name = true
  <-> exists pattern, In pattern DEFAULT_IGNORE_DIRS
                      /\ Str.contains "*" pattern = true
                      /\ Fnmatch.fnmatch name pattern = true.
Proof.
  unfold default_wildcard. rewrite existsb_exists.
  split; intros [pat [Hin H]]; exists pat; split; try exact Hin.
  - now apply andb_true_iff in H.
  - now apply andb_true_iff.
Qed.

Lemma pattern_hits_spec (fs : node) (p root_path : path) (pattern : string) :
  pattern_hits fs p root_path pattern = true
  <-> (Fnmatch.fnmatch (OsPath.relpath p root_path) pattern = true
       \/ Fnmatch.fnmatch (OsPath.basename p) pattern = true)
      \/ (Str.endswith pattern "/" = true /\ OsPath.isdir fs p = true
          /\ (Fnmatch.fnmatch (OsPath.relpath p root_path ++ "/") pattern = true
              \/ Fnmatch.fnmatch (OsPath.basename p ++ "/") pattern = true)).
Proof.
  unfold pattern_hits.
  rewrite !orb_true_iff, !andb_true_iff, !orb_true_iff. tauto.
Qed.

(** C2.  [is_ignored] answers true exactly when one of its three stages
    matches, tried in this order: the basename is a member of the default
    set; the basename matches, by [fnmatch], a default entry that holds a
    star; a pattern of the .gitignore matches the root-relative path or
    the basename (for a directory and a pattern ending in a slash, also
    with a slash appended).  A match of one of the first two stages gives
    true whatever the .gitignore holds, and when no stage matches the
    answer is false. *)
Theorem is_ignored_decision_order
    (fs : node) (p root_path : path) (pats : list string) :
  (is_ignored fs p root_path pats = true
   <-> In (OsPath.basename p) DEFAULT_IGNORE_DIRS
       \/ (exists pattern, In pattern DEFAULT_IGNORE_DIRS
                           /\ Str.contains "*" pattern = true
                           /\ Fnmatch.fnmatch (OsPath.basename p) pattern = true)
       \/ (exists pattern,
             In pattern pats
             /\ ((Fnmatch.fnmatch (OsPath.relpath p root_path) pattern = true
                  \/ Fnmatch.fnmatch (OsPath.basename p) pattern = true)
                 \/ (Str.endswith pattern "/" = true /\ OsPath.isdir fs p = true
                     /\ (Fnmatch.fnmatch (OsPath.relpath p root_path ++ "/") pattern = true
                         \/ Fnmatch.fnmatch (OsPath.basename p ++ "/") pattern = true)))))
  /\ (default_exact (OsPath.basename p) || default_wildcard (OsPath.basename p) = true ->
      forall fs' pats', is_ignored fs' p root_path pats' = true)
  /\ (is_ignored fs p root_path pats = false
      <-> default_exact (OsPath.basename p) = false
          /\ default_wildcard (OsPath.basename p) = false
          /\ forall pattern, In pattern pats -> pattern_hits fs p root_path pattern = false).
Proof.
  split; [|split].
  - rewrite is_ignored_stages, !orb_true_iff.
    unfold default_exact. rewrite mem_In, default_wildcard_spec, existsb_exists.
    split.
    + intros [[H|H]|[pat [Hin H]]]; [now left | right; now left |].
      right. right. exists pat. split; [exact Hin | now apply pattern_hits_spec].
    + intros [H|[H|[pat [Hin H]]]]; [left; now left | left; now right |].
      right. exists pat. split; [exact Hin | now apply pattern_hits_spec].
  - intros H fs' pats'. rewrite is_ignored_stages, H. reflexivity.
  - rewrite is_ignored_stages, !orb_false_iff. split.
    + intros [[H1 H2] H3]. repeat split; try assumption.
      intros pat Hin. destruct (pattern_hits fs p root_path pat) eqn:E; [|reflexivity].
      assert (existsb (pattern_hits fs p root_path) pats = true)
        by (apply existsb_exists; now exists pat).
      congruence.
    + intros [H1 [H2 H3]]. repeat split; try assumption.
      destruct (existsb _ pats) eqn:E; [|reflexivity].
      apply existsb_exists in E. destruct E as [pat [Hin E]].
      rewrite (H3 _ Hin) in E. discriminate.
Qed.

(** ** The traversal *)

Lemma fold_left_invariant {A B} (f : A -> B -> A) (P : A -> Prop) (l : list B) (a : A) :
  P a -> (forall a b, In b l -> P a -> P (f a b)) -> P (fold_left f l a).
Proof.
  revert a. induction l as [|b l IH]; intros a Ha Hf; [exact Ha|].
  simpl. apply IH.
  - apply Hf; [now left | exact Ha].
  - intros a' b' Hb. apply Hf. now right.
Qed.

Lemma list_remove_app (d : string) (done l : list string) :
  (forall x, In x done -> x <> d) ->
  list_remove d (done ++ d :: l) = done ++ l.
Proof.
  induction done as [|x done IH]; intros H; simpl.
  - now rewrite String.eqb_refl.
  - destruct (String.eqb x d) eqn:E.
    + apply String.eqb_eq in E. exfalso. apply (H x); [now left | exact E].
    + rewrite IH; [reflexivity|]. intros y Hy. apply H. now right.
Qed.

(** Removing the ignored names one by one from the list being iterated
    leaves the names that are not ignored, in their order. *)
Lemma prune_dirnames_filter (fs : node) (root_path : path) (pats : list string)
    (dirpath : path) (dirnames : list string) :
  prune_dirnames fs root_path pats dirpath dirnames
  = filter (fun d => negb (is_ignored fs (OsPath.join dirpath d) root_path pats)) dirnames.
Proof.
  unfold prune_dirnames.
  set (keep := fun d => negb (is_ignored fs (OsPath.join dirpath d) root_path pats)).
  set (step := fun (dirnames : list string) (d : string) => _).
  enough (H : forall l done, (forall x, In x done -> keep x = true) ->
                             fold_left step l (done ++ l) = done ++ filter keep l)
    by (apply (H dirnames []); intros x []).
  induction l as [|d l IH]; intros done Hdone; simpl.
  - reflexivity.
  - unfold step at 2. fold (keep d). destruct (keep d) eqn:K.
    + simpl. unfold keep in K. apply negb_true_iff in K. rewrite K.
      replace (done ++ d :: l) with ((done ++ [d]) ++ l) by now rewrite <- app_assoc.
      rewrite IH; [now rewrite <- app_assoc|].
      intros x Hx. apply in_app_or in Hx. destruct Hx as [Hx|[<-|[]]]; [now apply Hdone|].
      unfold keep. now rewrite K.
    + simpl. unfold keep in K. apply negb_false_iff in K. rewrite K.
      rewrite list_remove_app; [now apply IH|].
      intros x Hx ->. apply Hdone in Hx. unfold keep in Hx. rewrite K in Hx. discriminate.
Qed.

Section WalkFacts.
Variable fs : node.
Variable root_path : path.
Variable pats : list string.

Let prune := prune_dirnames fs root_path pats.

(** Every directory the walk yields lies below its top, along
    directories the rules let through. *)
Lemma walk_yields_kept (n : node) :
  forall top t, In t (Os.walk prune top n) ->
  exists comps, fst (fst t) = top ++ comps
                /\ dirs_kept fs root_path pats top comps = true.
Proof.
  induction n as [x c | x es IH] using node_ind; intros top t Ht; [destruct Ht|].
  simpl in Ht. destruct Ht as [<-|Ht].
  - exists []. simpl. now rewrite app_nil_r.
  - apply in_flat_map in Ht. destruct Ht as [e [He Ht]].
    rewrite Forall_forall in IH. specialize (IH e He).
    destruct e as [f c | d sub]; [destruct Ht|].
    destruct (Str.mem d _) eqn:M; [|destruct Ht].
    apply mem_In in M. unfold prune in M. rewrite prune_dirnames_filter in M.
    apply filter_In in M. destruct M as [_ M].
    destruct (IH _ _ Ht) as [comps [E K]].
    exists (d :: comps). split.
    + rewrite E. unfold OsPath.join. now rewrite <- app_assoc.
    + simpl. now rewrite M, K.
Qed.

Lemma pack_file_cases (dirpath : path) (st : pack_state) (filename : string) :
  let p := OsPath.join dirpath filename in
  let rel_path := OsPath.relpath p root_path in
  (pack_file fs root_path pats dirpath st filename = st
   /\ (filename = OUTPUT_FILENAME
       \/ is_ignored fs p root_path pats = true
       \/ Str.mem (Str.lower (snd (OsPath.splitext filename))) INCLUDED_EXTENSIONS = false))
  \/ (filename <> OUTPUT_FILENAME
      /\ is_ignored fs p root_path pats = false
      /\ Str.mem (Str.lower (snd (OsPath.splitext filename))) INCLUDED_EXTENSIONS = true
      /\ ((exists content,
             read_file fs p = Readable content
             /\ pack_file fs root_path pats dirpath st filename
                = {| outfile := (outfile st ++ section_text rel_path content)%string;
                     file_count := file_count st + 1;
                     total_size := total_size st + String.length content;
                     stdout := stdout st ++ ["  Packed: " ++ rel_path]%string;
                     opened := opened st ++ [p];
                     packed := packed st ++ [(p, content)] |})
          \/ (exists e,
                read_file fs p = Unreadable e
                /\ pack_file fs root_path pats dirpath st filename
                   = {| outfile := outfile st;
                        file_count := file_count st;
                        total_size := total_size st;
                        stdout := stdout st ++ ["  Skipped (Read Error): "
                                                  ++ rel_path ++ " - " ++ e]%string;
                        opened := opened st ++ [p];
                        packed := packed st |}))).
Proof.
  intros p rel_path. unfold pack_file. fold p. fold rel_path.
  destruct (String.eqb filename OUTPUT_FILENAME) eqn:E1.
  { left. split; [reflexivity|]. left. now apply String.eqb_eq. }
  destruct (is_ignored fs p root_path pats) eqn:E2.
  { left. split; [reflexivity|]. right. now left. }
  destruct (Str.mem _ INCLUDED_EXTENSIONS) eqn:E3; simpl.
  2:{ left. split; [reflexivity|]. right. now right. }
  right. apply String.eqb_neq in E1. repeat split; try assumption.
  destruct (read_file fs p) as [content|e].
  - left. now exists content.
  - right. now exists e.
Qed.
End WalkFacts.

Lemma concat_snoc (l : list string) (x : string) :
  Str.concat (l ++ [x]) = (Str.concat l ++ x)%string.
Proof.
  induction l as [|y l IH]; simpl.
  - induction x as [|c x IHx]; simpl; [reflexivity | now rewrite IHx].
  - now rewrite IH, append_assoc.
Qed.

Lemma fold_left_eventually {A B} (f : A -> B -> A) (Q : A -> Prop) (l : list B) (b : B) :
  In b l -> (forall a, Q (f a b)) -> (forall a b', Q a -> Q (f a b')) ->
  forall a, Q (fold_left f l a).
Proof.
  intros Hb Hq Hkeep. induction l as [|b' l IH]; [destruct Hb|].
  intros a. simpl. destruct Hb as [->|Hb].
  - apply fold_left_invariant; [apply Hq | intros; now apply Hkeep].
  - now apply IH.
Qed.

Section LoopFacts.
Variable fs : node.
Variable root_path : path.
Variable pats : list string.

Lemma pack_file_consistent (comps : list string) (st : pack_state) (filename : string) :
  dirs_kept fs root_path pats root_path comps = true ->
  consistent fs root_path pats st ->
  consistent fs root_path pats
    (pack_file fs root_path pats (root_path ++ comps) st filename).
Proof.
  intros K (Hc & Hs & Ho & Hp & Ha).
  assert (Hadm : filename <> OUTPUT_FILENAME ->
                 is_ignored fs (OsPath.join (root_path ++ comps) filename) root_path pats = false ->
                 Str.mem (Str.lower (snd (OsPath.splitext filename))) INCLUDED_EXTENSIONS = true ->
                 eligible fs root_path pats (OsPath.join (root_path ++ comps) filename)).
  { intros H1 H2 H3. exists comps, filename. unfold OsPath.join in *.
    rewrite <- app_assoc in *. repeat split; assumption. }
  destruct (pack_file_cases fs root_path pats (root_path ++ comps) st filename)
    as [[-> _] | (H1 & H2 & H3 & [[content [R ->]] | [e [R ->]]])].
  - repeat split; assumption.
  - unfold consistent; simpl. repeat split.
    + rewrite length_app. simpl. lia.
    + rewrite map_app, list_sum_app. simpl. lia.
    + rewrite map_app. simpl. rewrite concat_snoc, Ho. now rewrite append_assoc.
    + apply Forall_app. split.
      * eapply Forall_impl; [|exact Hp]. simpl. intros a [Hin Hr].
        split; [apply in_or_app; now left | exact Hr].
      * constructor; [|constructor]. simpl. split; [|exact R].
        apply in_or_app. right. now left.
    + apply Forall_app. split; [exact Ha|]. constructor; [|constructor]. now apply Hadm.
  - unfold consistent; simpl. repeat split; try assumption.
    + eapply Forall_impl; [|exact Hp]. simpl. intros a [Hin Hr].
      split; [apply in_or_app; now left | exact Hr].
    + apply Forall_app. split; [exact Ha|]. constructor; [|constructor]. now apply Hadm.
Qed.

Lemma walk_loop_consistent (st : pack_state) :
  consistent fs root_path pats st ->
  consistent fs root_path pats (walk_loop fs root_path pats st).
Proof.
  intros H. unfold walk_loop. destruct (fs_lookup fs root_path) as [top|]; [|exact H].
  apply fold_left_invariant; [exact H|].
  intros a [[dirpath dirnames] filenames] Ht Ha.
  destruct (walk_yields_kept fs root_path pats top _ _ Ht) as [comps [E K]].
  simpl in E. subst dirpath.
  apply fold_left_invariant; [exact Ha|].
  intros a' f _ Ha'. now apply pack_file_consistent.
Qed.

(** The traces only grow. *)
Lemma pack_file_grows (dirpath : path) (st : pack_state) (filename : string) :
  incl (opened st) (opened (pack_file fs root_path pats dirpath st filename))
  /\ incl (packed st) (packed (pack_file fs root_path pats dirpath st filename)).
Proof.
  destruct (pack_file_cases fs root_path pats dirpath st filename)
    as [[-> _] | (_ & _ & _ & [[content [_ ->]] | [e [_ ->]]])]; simpl;
    split; try apply incl_refl; apply incl_appl, incl_refl.
Qed.

(** A file of a directory the walk visits, which passes the three tests,
    is handed to [open]; when it can be read its entry is written. *)
Lemma walk_loop_packs (top : node) (comps : list string) (x : string)
    (es : list node) (filename : string) (st : pack_state) :
  fs_lookup fs root_path = Some top ->
  In (root_path ++ comps, prune_dirnames fs root_path pats (root_path ++ comps)
                            (Os.dir_names es), Os.file_names es)
     (Os.walk (prune_dirnames fs root_path pats) root_path top) ->
  In filename (Os.file_names es) ->
  filename <> OUTPUT_FILENAME ->
  is_ignored fs (root_path ++ comps ++ [filename]) root_path pats = false ->
  Str.mem (Str.lower (snd (OsPath.splitext filename))) INCLUDED_EXTENSIONS = true ->
  let st' := walk_loop fs root_path pats st in
  In (root_path ++ comps ++ [filename]) (opened st')
  /\ forall content,
       read_file fs (root_path ++ comps ++ [filename]) = Readable content ->
       In (root_path ++ comps ++ [filename], content) (packed st').
Proof.
  intros Htop Hw Hf H1 H2 H3. unfold walk_loop. rewrite Htop.
  remember (root_path ++ comps ++ [filename]) as p eqn:Ep.
  set (Q := fun st : pack_state =>
              In p (opened st)
              /\ forall content, read_file fs p = Readable content ->
                                 In (p, content) (packed st)).
  assert (Hkeep : forall dirpath a f, Q a -> Q (pack_file fs root_path pats dirpath a f)).
  { intros dirpath a f [Qa Qb].
    destruct (pack_file_grows dirpath a f) as [G1 G2]. split.
    - now apply G1.
    - intros c Hc. apply G2. now apply Qb. }
  apply (fold_left_eventually _ Q _ _ Hw).
  - intros a. apply (fold_left_eventually _ Q _ _ Hf).
    + intros a'.
      assert (E : OsPath.join (root_path ++ comps) filename = p)
        by (unfold OsPath.join; subst p; now rewrite <- app_assoc).
      pose proof (pack_file_cases fs root_path pats (root_path ++ comps) a' filename) as C.
      cbv zeta in C. rewrite E in C.
      destruct C as [[_ [H|[H|H]]] | (_ & _ & _ & [[content [R ->]] | [e [R ->]]])];
        try congruence.
      * split; simpl; [apply in_or_app; right; now left|].
        intros c Hc. rewrite R in Hc. inversion Hc; subst.
        apply in_or_app. right. now left.
      * split; simpl; [apply in_or_app; right; now left|].
        intros c Hc. congruence.
    + intros a' f' Qa. now apply Hkeep.
  - intros a [[dirpath dirnames] filenames] Qa.
    apply fold_left_invariant; [exact Qa|]. intros a' f' _ Qa'. now apply Hkeep.
Qed.
End LoopFacts.

Lemma find_entry_spec (x : string) (es : list node) (e : node) :
  find_entry x es = Some e -> In e es /\ node_name e = x.
Proof.
  induction es as [|a es IH]; simpl; [discriminate|].
  destruct (String.eqb (node_name a) x) eqn:E.
  - intros H. inversion H; subst. apply String.eqb_eq in E. split; [now left | exact E].
  - intros H. destruct (IH H). split; [now right | assumption].
Qed.

Lemma dir_names_In (d : string) (sub es : list node) :
  In (Dir d sub) es -> In d (Os.dir_names es).
Proof.
  intros H. unfold Os.dir_names. apply in_flat_map.
  exists (Dir d sub). split; [exact H | now left].
Qed.

Lemma file_names_In (f : string) (c : read_result) (es : list node) :
  In (File f c) es -> In f (Os.file_names es).
Proof.
  intros H. unfold Os.file_names. apply in_flat_map.
  exists (File f c). split; [exact H | now left].
Qed.

(** A directory found by name below the top, along directories the rules
    let through, is yielded by the walk. *)
Lemma walk_reaches (fs : node) (root_path : path) (pats : list string)
    (comps : list string) :
  forall (n : node) (top : path) (x : string) (es : list node),
  fs_lookup n comps = Some (Dir x es) ->
  dirs_kept fs root_path pats top comps = true ->
  In (top ++ comps,
      prune_dirnames fs root_path pats (top ++ comps) (Os.dir_names es),
      Os.file_names es)
     (Os.walk (prune_dirnames fs root_path pats) top n).
Proof.
  induction comps as [|c comps IH]; intros n top x es Hl Hk.
  - simpl in Hl. inversion Hl; subst. rewrite app_nil_r. now left.
  - simpl in Hl. destruct n as [|x0 es0]; [discriminate|].
    destruct (find_entry c es0) as [e|] eqn:F; [|discriminate].
    apply find_entry_spec in F. destruct F as [Hin Hname].
    simpl in Hk. apply andb_true_iff in Hk. destruct Hk as [Hc Hk].
    destruct e as [f r | d sub].
    { destruct comps; simpl in Hl; discriminate. }
    simpl in Hname. subst d.
    simpl. right. apply in_flat_map. exists (Dir c sub). split; [exact Hin|].
    assert (M : Str.mem c (prune_dirnames fs root_path pats top (Os.dir_names es0)) = true).
    { apply mem_In. rewrite prune_dirnames_filter. apply filter_In.
      split; [now apply dir_names_In with sub | exact Hc]. }
    rewrite M.
    replace (top ++ c :: comps) with (OsPath.join top c ++ comps)
      by (unfold OsPath.join; now rewrite <- app_assoc).
    now apply IH with x.
Qed.

Lemma fs_lookup_app (n : node) (a b : path) :
  fs_lookup n (a ++ b)
  = match fs_lookup n a with Some m => fs_lookup m b | None => None end.
Proof.
  revert n. induction a as [|c a IH]; intros n; simpl; [reflexivity|].
  destruct n as [|x es]; [reflexivity|].
  destruct (find_entry c es); [apply IH | reflexivity].
Qed.

(** ** scan_and_pack as a whole *)

Lemma scan_and_pack_returned (fs : node) (root_path output_file : path)
    (fs' : node) (st : pack_state) :
  scan_and_pack fs root_path output_file = Returned fs' st ->
  exists fs1 printed,
    fs_write fs output_file "" = Some fs1
    /\ st = walk_loop fs1 root_path (fst (load_gitignore fs root_path))
                      (initial_state printed)
    /\ fs_write fs1 output_file (outfile st) = Some fs'.
Proof.
  unfold scan_and_pack. destruct (load_gitignore fs root_path) as [pats warning].
  destruct (fs_write fs output_file "") as [fs1|]; [|discriminate].
  match goal with |- context [walk_loop fs1 root_path pats ?s] => set (st0 := s) end.
  destruct (fs_write fs1 output_file _) as [fs2|] eqn:W; [|discriminate].
  intros H. inversion H; subst.
  exists fs1, (stdout st0). repeat split. exact W.
Qed.

Lemma initial_state_consistent fs root_path pats printed :
  consistent fs root_path pats (initial_state printed).
Proof.
  unfold consistent, initial_state; simpl. repeat split; constructor.
Qed.

(** What a returned run guarantees: the traces agree with the count, the
    size and the text of the output file, and everything opened passed
    the tests of the loop. *)
Lemma scan_and_pack_consistent (fs : node) (root_path output_file : path)
    (fs' : node) (st : pack_state) :
  scan_and_pack fs root_path output_file = Returned fs' st ->
  exists fs1,
    fs_write fs output_file "" = Some fs1
    /\ consistent fs1 root_path (fst (load_gitignore fs root_path)) st.
Proof.
  intros H. apply scan_and_pack_returned in H.
  destruct H as (fs1 & printed & W & -> & _).
  exists fs1. split; [exact W|].
  apply walk_loop_consistent, initial_state_consistent.
Qed.

Lemma dirs_kept_not_default fs root_path pats dirpath comps :
  dirs_kept fs root_path pats dirpath comps = true ->
  forall d, In d comps -> default_exact d = false /\ default_wildcard d = false.
Proof.
  revert dirpath. induction comps as [|c comps IH]; intros dirpath H d Hd; [destruct Hd|].
  simpl in H. apply andb_true_iff in H. destruct H as [Hc H].
  destruct Hd as [<-|Hd]; [|now apply (IH _ H)].
  apply negb_true_iff in Hc. rewrite is_ignored_stages in Hc.
  unfold OsPath.join, OsPath.basename in Hc. rewrite last_last in Hc.
  apply orb_false_iff in Hc. destruct Hc as [Hc _].
  now apply orb_false_iff in Hc.
Qed.

Lemma basename_snoc (a : path) (f : string) : OsPath.basename (a ++ [f]) = f.
Proof. unfold OsPath.basename. apply last_last. Qed.

(** C3.  A directory below the root whose basename is a member of the
    default set, or matches one of its wildcard entries, is pruned before
    the walk descends: in a run that returns, the walk yields no directory
    that lies below such a directory, and every path handed to [open] lies
    below the root along directories none of which is default-ignored, at
    any depth; the entries written to the output file are among the paths
    opened, and the count is the number of entries written. *)
Theorem default_ignored_directories_are_pruned
    (fs : node) (root_path output_file : path) (fs' : node) (st : pack_state) :
  scan_and_pack fs root_path output_file = Returned fs' st ->
  (exists fs1,
     fs_write fs output_file "" = Some fs1
     /\ forall top t,
          fs_lookup fs1 root_path = Some top ->
          In t (Os.walk (prune_dirnames fs1 root_path (fst (load_gitignore fs root_path)))
                        root_path top) ->
          exists comps,
            fst (fst t) = root_path ++ comps
            /\ forall d, In d comps -> default_exact d = false /\ default_wildcard d = false)
  /\ (forall p, In p (opened st) ->
       exists comps filename,
         p = root_path ++ comps ++ [filename]
         /\ forall d, In d comps -> default_exact d = false /\ default_wildcard d = false)
  /\ (forall p content, In (p, content) (packed st) -> In p (opened st))
  /\ file_count st = length (packed st)
  /\ outfile st
     = (META_PROMPT
        ++ Str.concat (map (fun e => section_text (OsPath.relpath (fst e) root_path) (snd e))
                           (packed st)))%string.
Proof.
  intros H. destruct (scan_and_pack_consistent _ _ _ _ _ H)
    as (fs1 & W & Hc & _ & Ho & Hp & Ha).
  split; [|repeat split; try assumption].
  - exists fs1. split; [exact W|]. intros top t _ Ht.
    destruct (walk_yields_kept fs1 root_path _ top _ _ Ht) as (comps & E & K).
    exists comps. split; [exact E|]. now apply dirs_kept_not_default with (1 := K).
  - intros p Hin. rewrite Forall_forall in Ha.
    destruct (Ha p Hin) as (comps & f & E & K & _).
    exists comps, f. split; [exact E|]. now apply dirs_kept_not_default with (1 := K).
  - intros p content Hin. rewrite Forall_forall in Hp. now apply (Hp _ Hin).
Qed.

(** On the sample tree, where [node_modules] and [src/deep/build] hold
    files with an allowed extension. *)
Lemma default_ignored_directories_witness :
  scan_and_pack demo_fs ["proj"] ["proj"; OUTPUT_FILENAME] = Returned demo_after demo_state
  /\ In ["proj"; "src"; "main.c"] (opened demo_state)
  /\ forall p, In p (opened demo_state) ->
       exists comps filename,
         p = ["proj"] ++ comps ++ [filename]
         /\ forall d, In d comps -> default_exact d = false /\ default_wildcard d = false.
Proof.
  split; [exact demo_run_returned|]. split; [vm_compute; tauto|].
  exact (proj1 (proj2 (default_ignored_directories_are_pruned
                         demo_fs ["proj"] ["proj"; OUTPUT_FILENAME]
                         demo_after demo_state demo_run_returned))).
Defined.

(** C4.  A file called [codebase_context.md] is never packed: in a run
    that returns, no path handed to [open], and so no entry written to the
    output file, has the reserved name as its basename, whatever its
    extension and whatever the ignore rules say; in particular the output
    file of a run started in any working directory is not among them. *)
Theorem output_file_never_packed
    (fs : node) (root_path output_file : path) (fs' : node) (st : pack_state) :
  scan_and_pack fs root_path output_file = Returned fs' st ->
  Str.mem (Str.lower (snd (OsPath.splitext OUTPUT_FILENAME))) INCLUDED_EXTENSIONS = true
  /\ (forall p, In p (opened st) -> OsPath.basename p <> OUTPUT_FILENAME)
  /\ (forall p content, In (p, content) (packed st) -> OsPath.basename p <> OUTPUT_FILENAME)
  /\ (forall cwd content, ~ In (OsPath.join cwd OUTPUT_FILENAME, content) (packed st)).
Proof.
  intros H. destruct (scan_and_pack_consistent _ _ _ _ _ H)
    as (fs1 & _ & _ & _ & _ & Hp & Ha).
  rewrite Forall_forall in Ha, Hp.
  assert (Ho : forall p, In p (opened st) -> OsPath.basename p <> OUTPUT_FILENAME).
  { intros p Hin. destruct (Ha p Hin) as (comps & f & -> & _ & Hf & _).
    now rewrite app_assoc, basename_snoc. }
  split; [reflexivity|]. split; [exact Ho|]. split.
  - intros p content Hin. apply Ho. now apply (Hp _ Hin).
  - intros cwd content Hin. apply Hp in Hin. destruct Hin as [Hin _].
    apply Ho in Hin. simpl in Hin. unfold OsPath.join in Hin.
    now rewrite basename_snoc in Hin.
Qed.

(** On the sample tree, which holds the output file of an earlier run. *)
Lemma output_file_never_packed_witness :
  scan_and_pack demo_fs ["proj"] ["proj"; OUTPUT_FILENAME] = Returned demo_after demo_state
  /\ fs_lookup demo_fs ["proj"; OUTPUT_FILENAME] = Some (File OUTPUT_FILENAME (Readable "old artifact"))
  /\ forall p, In p (opened demo_state) -> OsPath.basename p <> OUTPUT_FILENAME.
Proof.
  split; [exact demo_run_returned|]. split; [reflexivity|].
  exact (proj1 (proj2 (output_file_never_packed
                         demo_fs ["proj"] ["proj"; OUTPUT_FILENAME]
                         demo_after demo_state demo_run_returned))).
Defined.

(** ** Writing a file *)

Lemma fresh_file_name c p' text e : fresh_file c p' text = Some e -> node_name e = c.
Proof. destruct p'; simpl; intros H; inversion H. reflexivity. Qed.

Lemma fs_write_cons (x : string) (es : list node) (c : string) (p' : path) (text : string) :
  fs_write (Dir x es) (c :: p') text
  = match update_entry c (fun e => fs_write e p' text) (fresh_file c p' text) es with
    | Some es' => Some (Dir x es')
    | None => None
    end.
Proof. reflexivity. Qed.

Lemma fs_write_name (p : path) (text : string) :
  forall n n', fs_write n p text = Some n' -> node_name n' = node_name n.
Proof.
  destruct p as [|c p']; intros n n' H.
  - simpl in H. destruct n; [|discriminate]. now inversion H.
  - destruct n as [|x es]; [discriminate|]. rewrite fs_write_cons in H.
    destruct (update_entry c _ _ es); [|discriminate]. now inversion H.
Qed.

Lemma update_entry_find_other (c : string) (f : node -> option node)
    (dflt : option node) (es es' : list node) (c' : string) :
  (forall e e', f e = Some e' -> node_name e' = node_name e) ->
  (forall e, dflt = Some e -> node_name e = c) ->
  update_entry c f dflt es = Some es' -> c' <> c ->
  find_entry c' es' = find_entry c' es.
Proof.
  intros f_name dflt_name.
  revert es'. induction es as [|e es IH]; intros es' H Hne; simpl in H.
  - destruct dflt as [d|]; [|discriminate]. inversion H; subst. simpl.
    rewrite (dflt_name d eq_refl).
    destruct (String.eqb c c') eqn:E; [|reflexivity].
    apply String.eqb_eq in E. congruence.
  - destruct (String.eqb (node_name e) c) eqn:E.
    + destruct (f e) as [e'|] eqn:F; [|discriminate]. inversion H; subst. simpl.
      rewrite (f_name _ _ F). apply String.eqb_eq in E. rewrite E.
      destruct (String.eqb c c') eqn:E2; [|reflexivity].
      apply String.eqb_eq in E2. congruence.
    + destruct (update_entry c f dflt es) as [es''|]; [|discriminate].
      inversion H; subst. simpl. now rewrite (IH es'' eq_refl Hne).
Qed.

Lemma update_entry_find_same (c : string) (f : node -> option node)
    (dflt : option node) (es es' : list node) :
  (forall e e', f e = Some e' -> node_name e' = node_name e) ->
  (forall e, dflt = Some e -> node_name e = c) ->
  update_entry c f dflt es = Some es' ->
  match find_entry c es with
  | Some e => exists e', f e = Some e' /\ find_entry c es' = Some e'
  | None => exists d, dflt = Some d /\ find_entry c es' = Some d
  end.
Proof.
  intros f_name dflt_name.
  revert es'. induction es as [|e es IH]; intros es' H; simpl in H |- *.
  - destruct dflt as [d|]; [|discriminate]. inversion H; subst.
    exists d. split; [reflexivity|]. simpl.
    now rewrite (dflt_name d eq_refl), String.eqb_refl.
  - destruct (String.eqb (node_name e) c) eqn:E.
    + destruct (f e) as [e'|] eqn:F; [|discriminate]. inversion H; subst.
      exists e'. split; [reflexivity|]. simpl. now rewrite (f_name _ _ F), E.
    + destruct (update_entry c f dflt es) as [es''|]; [|discriminate].
      inversion H; subst. specialize (IH es'' eq_refl). simpl. rewrite E. exact IH.
Qed.

(** Writing a file changes nothing to which paths are directories. *)
Lemma isdir_write (q : path) (text : string) :
  forall fs fs2 p, fs_write fs q text = Some fs2 -> OsPath.isdir fs2 p = OsPath.isdir fs p.
Proof.
  unfold OsPath.isdir.
  induction q as [|c q' IH]; intros fs fs2 p H.
  - simpl in H. destruct fs as [x r|]; [|discriminate]. inversion H; subst.
    now destruct p.
  - destruct fs as [|x es]; [discriminate|]. rewrite fs_write_cons in H.
    destruct (update_entry c _ _ es) as [es'|] eqn:U; [|discriminate].
    inversion H; subst. destruct p as [|c' p']; [reflexivity|]. simpl.
    destruct (string_dec c' c) as [->|Hne].
    + pose proof (update_entry_find_same c _ _ _ _ (fs_write_name q' text)
                    (fresh_file_name c q' text) U) as S.
      destruct (find_entry c es) as [e|].
      * destruct S as [e' [W ->]]. now apply IH.
      * destruct S as [d [D ->]]. destruct q'; [|discriminate].
        inversion D; subst. now destruct p'.
    + now rewrite (update_entry_find_other c _ _ _ _ c' (fs_write_name q' text)
                     (fresh_file_name c q' text) U Hne).
Qed.

Lemma is_ignored_write (q : path) (text : string) (fs fs2 : node)
    (p root_path : path) (pats : list string) :
  fs_write fs q text = Some fs2 ->
  is_ignored fs2 p root_path pats = is_ignored fs p root_path pats.
Proof.
  intros H. rewrite !is_ignored_stages. f_equal.
  induction pats as [|pat pats IH]; [reflexivity|]. simpl. rewrite IH. f_equal.
  unfold pattern_hits. now rewrite (isdir_write _ _ _ _ p H).
Qed.

Lemma dirs_kept_write (q : path) (text : string) (fs fs2 : node)
    (root_path : path) (pats : list string) (comps : list string) :
  fs_write fs q text = Some fs2 ->
  forall dirpath,
  dirs_kept fs2 root_path pats dirpath comps = dirs_kept fs root_path pats dirpath comps.
Proof.
  intros H. induction comps as [|c comps IH]; intros dirpath; [reflexivity|].
  simpl. now rewrite IH, (is_ignored_write _ _ _ _ _ _ _ H).
Qed.

(** Writing a file leaves every path with another basename as it was. *)
Lemma lookup_write_other (q : path) (text : string) :
  forall fs fs2 p, fs_write fs q text = Some fs2 ->
  last p "" <> last q "" ->
  kind (fs_lookup fs2 p) = kind (fs_lookup fs p).
Proof.
  induction q as [|c q' IH]; intros fs fs2 p H Hl.
  - simpl in H. destruct fs as [x r|]; [|discriminate]. inversion H; subst.
    destruct p as [|c' p']; [now elim Hl | reflexivity].
  - destruct fs as [|x es]; [discriminate|]. rewrite fs_write_cons in H.
    destruct (update_entry c _ _ es) as [es'|] eqn:U; [|discriminate].
    inversion H; subst. destruct p as [|c' p']; [reflexivity|]. simpl.
    destruct (string_dec c' c) as [->|Hne].
    + pose proof (update_entry_find_same c _ _ _ _ (fs_write_name q' text)
                    (fresh_file_name c q' text) U) as S.
      destruct (find_entry c es) as [e|].
      * destruct S as [e' [W ->]].
        destruct p' as [|c2 p2].
        -- destruct q' as [|c3 q3]; [now elim Hl|].
           destruct e as [|y es0]; [discriminate|]. rewrite fs_write_cons in W.
           destruct (update_entry c3 _ _ es0); [|discriminate]. now inversion W.
        -- destruct q' as [|c3 q3].
           ++ simpl in W. destruct e; [|discriminate]. now inversion W.
           ++ apply IH; [exact W|]. exact Hl.
      * destruct S as [d [D ->]]. destruct q'; [|discriminate].
        inversion D; subst. destruct p'; [now elim Hl | reflexivity].
    + now rewrite (update_entry_find_other c _ _ _ _ c' (fs_write_name q' text)
                     (fresh_file_name c q' text) U Hne).
Qed.

(** Reading back what was written. *)
Lemma lookup_write_same (q : path) (text : string) :
  forall fs fs2, fs_write fs q text = Some fs2 ->
  exists x, fs_lookup fs2 q = Some (File x (Readable text)).
Proof.
  induction q as [|c q' IH]; intros fs fs2 H.
  - simpl in H. destruct fs as [x r|]; [|discriminate]. inversion H; subst.
    now exists x.
  - destruct fs as [|x es]; [discriminate|]. rewrite fs_write_cons in H.
    destruct (update_entry c _ _ es) as [es'|] eqn:U; [|discriminate].
    inversion H; subst. simpl.
    pose proof (update_entry_find_same c _ _ _ _ (fs_write_name q' text)
                  (fresh_file_name c q' text) U) as S.
    destruct (find_entry c es) as [e|].
    + destruct S as [e' [W ->]]. now apply IH with e.
    + destruct S as [d [D ->]]. destruct q'; [|discriminate].
      inversion D; subst. now exists c.
Qed.

Lemma update_entry_twice (c : string) (fa fb : node -> option node)
    (da db : option node) (es es' : list node) :
  (forall e e', fa e = Some e' -> node_name e' = node_name e) ->
  (forall e e', fa e = Some e' -> fb e' = fb e) ->
  (forall d, da = Some d -> node_name d = c /\ fb d = db) ->
  (da = None -> db = None) ->
  update_entry c fa da es = Some es' ->
  update_entry c fb db es' = update_entry c fb db es.
Proof.
  intros Hname Hfb Hd Hn. revert es'.
  induction es as [|e es IH]; intros es' H; simpl in H.
  - destruct da as [d|] eqn:D; [|discriminate]. inversion H; subst. simpl.
    destruct (Hd d eq_refl) as [-> Hb]. rewrite String.eqb_refl, Hb.
    destruct db; reflexivity.
  - destruct (String.eqb (node_name e) c) eqn:E.
    + destruct (fa e) as [e'|] eqn:F; [|discriminate]. inversion H; subst. simpl.
      now rewrite (Hname _ _ F), E, (Hfb _ _ F).
    + destruct (update_entry c fa da es) as [es''|]; [|discriminate].
      inversion H; subst. simpl. now rewrite E, (IH es'' eq_refl).
Qed.

(** Writing a file twice is writing it the second time. *)
Lemma fs_write_twice (q : path) (a b : string) :
  forall fs fs2, fs_write fs q a = Some fs2 -> fs_write fs2 q b = fs_write fs q b.
Proof.
  induction q as [|c q' IH]; intros fs fs2 H.
  - simpl in H. destruct fs as [x r|]; [|discriminate]. now inversion H.
  - destruct fs as [|x es]; [discriminate|]. rewrite fs_write_cons in H.
    destruct (update_entry c _ _ es) as [es'|] eqn:U; [|discriminate].
    inversion H; subst. rewrite !fs_write_cons.
    assert (E : update_entry c (fun e => fs_write e q' b) (fresh_file c q' b) es'
                = update_entry c (fun e => fs_write e q' b) (fresh_file c q' b) es).
    { apply (update_entry_twice c (fun e => fs_write e q' a) (fun e => fs_write e q' b)
               (fresh_file c q' a) (fresh_file c q' b) es es').
      - intros e e'. apply fs_write_name.
      - intros e e'. apply IH.
      - intros d D. destruct q'; [|discriminate]. inversion D; subst. now split.
      - destruct q'; [discriminate | reflexivity].
      - exact U. }
    now rewrite E.
Qed.

(** ** Extensions *)

Lemma rfind_from_absent (c : ascii) (s : string) (i : nat) :
  Str.contains c s = false -> Str.rfind_from c s i = None.
Proof.
  revert i. induction s as [|a s IH]; intros i H; [reflexivity|].
  simpl in H. apply orb_false_iff in H. destruct H as [Ha Hs].
  simpl. now rewrite (IH _ Hs), Ha.
Qed.

(** A name made of a dot and a dot-free rest has no extension. *)
Lemma splitext_dotfile (rest : string) :
  Str.contains "." rest = false ->
  OsPath.splitext (String "." rest) = (String "." rest, "").
Proof.
  intros H. unfold OsPath.splitext, Str.rfind.
  change (Str.rfind_from "." (String "." rest) 0)
    with (match Str.rfind_from "." rest 1 with
          | Some j => Some j
          | None => if Ascii.eqb "." "." then Some 0 else None
          end).
  rewrite (rfind_from_absent _ _ _ H). simpl Ascii.eqb. cbv iota.
  destruct (Str.rfind_from "/" (String "." rest) 0) as [sepIndex|]; reflexivity.
Qed.

Lemma scan_and_pack_opened_admitted (fs : node) (root_path output_file : path)
    (fs' : node) (st : pack_state) :
  scan_and_pack fs root_path output_file = Returned fs' st ->
  forall p, In p (opened st) ->
  exists comps filename,
    p = root_path ++ comps ++ [filename]
    /\ OsPath.basename p = filename
    /\ filename <> OUTPUT_FILENAME
    /\ extension_allowed filename = true.
Proof.
  intros H p Hin.
  destruct (scan_and_pack_consistent _ _ _ _ _ H) as (fs1 & _ & _ & _ & _ & _ & Ha).
  rewrite Forall_forall in Ha. destruct (Ha p Hin) as (comps & f & E & _ & Hf & _ & Hx).
  exists comps, f. repeat split; try assumption.
  subst p. now rewrite app_assoc, basename_snoc.
Qed.

(** C9.  A file whose name is a dot followed by a rest without any dot
    (such as [.env]) has, for [os.path.splitext], the empty extension,
    which is not in the allowlist: the loop body leaves the state as it
    is, and in a run that returns no path handed to [open] bears such a
    name.  The string [.env] is nevertheless a member of the allowlist, so
    that a file called [x.env] passes the extension test. *)
Theorem dotfile_is_never_packed (rest : string) :
  Str.contains "." rest = false ->
  OsPath.splitext (String "." rest) = (String "." rest, "")
  /\ extension_allowed (String "." rest) = false
  /\ (forall fs root_path pats dirpath st,
        pack_file fs root_path pats dirpath st (String "." rest) = st)
  /\ (forall fs root_path output_file fs' st,
        scan_and_pack fs root_path output_file = Returned fs' st ->
        forall p, In p (opened st) -> OsPath.basename p <> String "." rest)
  /\ In ".env" INCLUDED_EXTENSIONS
  /\ OsPath.splitext "x.env" = ("x", ".env")
  /\ extension_allowed "x.env" = true.
Proof.
  intros H. pose proof (splitext_dotfile rest H) as E.
  assert (X : extension_allowed (String "." rest) = false)
    by (unfold extension_allowed; now rewrite E).
  split; [exact E|]. split; [exact X|]. split; [|split; [|split; [|split]]].
  - intros fs root_path pats dirpath st. unfold pack_file.
    destruct (String.eqb _ OUTPUT_FILENAME); [reflexivity|].
    destruct (is_ignored _ _ _ _); [reflexivity|].
    fold (extension_allowed (String "." rest)). now rewrite X.
  - intros fs root_path output_file fs' st R p Hin Hb.
    destruct (scan_and_pack_opened_admitted _ _ _ _ _ R p Hin)
      as (comps & f & _ & Hf & _ & Hx).
    congruence.
  - simpl. tauto.
  - reflexivity.
  - reflexivity.
Qed.

(** On the sample tree: [.env] is left out, [x.env] is opened. *)
Lemma dotfile_is_never_packed_witness :
  Str.contains "." "env" = false
  /\ fs_lookup demo_fs ["proj"; ".env"] = Some (File ".env" (Readable "KEY=1"))
  /\ ~ In ["proj"; ".env"] (opened demo_state)
  /\ In ["proj"; "x.env"] (opened demo_state).
Proof.
  split; [reflexivity|]. split; [reflexivity|]. split.
  - intros Hin.
    exact (proj1 (proj2 (proj2 (proj2 (dotfile_is_never_packed "env" eq_refl))))
             demo_fs ["proj"] ["proj"; OUTPUT_FILENAME] demo_after demo_state
             demo_run_returned ["proj"; ".env"] Hin eq_refl).
  - vm_compute. tauto.
Defined.

Lemma kind_file (o : option node) (x : string) (r : read_result) :
  kind o = Some (Some (x, r)) -> o = Some (File x r).
Proof. destruct o as [[y r'|y es]|]; simpl; intros H; inversion H; reflexivity. Qed.

(** A file found by name below the root, along directories the rules let
    through, which passes the tests of the loop body, is handed to [open];
    when it can be read, its entry is written. *)
Lemma walk_loop_packs_file (fs : node) (root_path : path) (pats : list string)
    (comps : list string) (filename : string) (r : read_result) (st : pack_state) :
  fs_lookup fs (root_path ++ comps ++ [filename]) = Some (File filename r) ->
  dirs_kept fs root_path pats root_path comps = true ->
  filename <> OUTPUT_FILENAME ->
  is_ignored fs (root_path ++ comps ++ [filename]) root_path pats = false ->
  extension_allowed filename = true ->
  In (root_path ++ comps ++ [filename]) (opened (walk_loop fs root_path pats st))
  /\ forall content, r = Readable content ->
       In (root_path ++ comps ++ [filename], content)
          (packed (walk_loop fs root_path pats st)).
Proof.
  intros Hl Hk Hf Hi Hx.
  assert (Hr : read_file fs (root_path ++ comps ++ [filename]) = r)
    by (unfold read_file; now rewrite Hl).
  rewrite fs_lookup_app in Hl.
  destruct (fs_lookup fs root_path) as [top|] eqn:Htop; [|discriminate].
  rewrite fs_lookup_app in Hl.
  destruct (fs_lookup top comps) as [m|] eqn:Hm; [|discriminate].
  simpl in Hl. destruct m as [|x es]; [discriminate|].
  destruct (find_entry filename es) as [e|] eqn:F; [|discriminate].
  inversion Hl; subst e. apply find_entry_spec in F. destruct F as [Hin _].
  pose proof (walk_reaches fs root_path pats comps top root_path x es Hm Hk) as Hw.
  destruct (walk_loop_packs fs root_path pats top comps x es filename st Htop Hw
              (file_names_In _ _ _ Hin) Hf Hi Hx) as [Ho Hp].
  split; [exact Ho|]. intros content ->. now apply Hp.
Qed.

(** The same for a whole run started by [main], whose output file bears the
    reserved name: the file is looked up in the file system as it was
    before the run. *)
Lemma scan_and_pack_packs_file (fs : node) (root_path cwd : path) (fs' : node)
    (st : pack_state) (comps : list string) (filename : string) (r : read_result) :
  scan_and_pack fs root_path (OsPath.join cwd OUTPUT_FILENAME) = Returned fs' st ->
  fs_lookup fs (root_path ++ comps ++ [filename]) = Some (File filename r) ->
  dirs_kept fs root_path (fst (load_gitignore fs root_path)) root_path comps = true ->
  filename <> OUTPUT_FILENAME ->
  is_ignored fs (root_path ++ comps ++ [filename]) root_path
             (fst (load_gitignore fs root_path)) = false ->
  extension_allowed filename = true ->
  In (root_path ++ comps ++ [filename]) (opened st)
  /\ forall content, r = Readable content ->
       In (root_path ++ comps ++ [filename], content) (packed st).
Proof.
  intros H Hl Hk Hf Hi Hx.
  set (p := root_path ++ comps ++ [filename]) in *.
  assert (Hb : OsPath.basename p = filename)
    by (unfold p; now rewrite app_assoc, basename_snoc).
  apply scan_and_pack_returned in H. destruct H as (fs1 & printed & W & -> & _).
  assert (Hl1 : fs_lookup fs1 p = Some (File filename r)).
  { apply kind_file. rewrite (lookup_write_other _ _ _ _ p W); [now rewrite Hl|].
    change (OsPath.basename p <> OsPath.basename (OsPath.join cwd OUTPUT_FILENAME)).
    unfold OsPath.join. now rewrite Hb, basename_snoc. }
  rewrite <- (dirs_kept_write _ _ _ _ _ _ _ W) in Hk.
  rewrite <- (is_ignored_write _ _ _ _ _ _ _ W) in Hi.
  now apply (walk_loop_packs_file fs1 root_path _ comps filename r).
Qed.

(** C7.  The extension test is case-insensitive and is one of three tests
    a file must pass.  In a run that returns, every path handed to [open],
    and so every entry written, has its lowercased extension in the
    allowlist: a file whose extension is outside it is excluded even when
    no ignore rule matches.  Conversely a file below the root, reached
    along directories the rules let through, which is not called
    [codebase_context.md] and which no ignore rule matches, is handed to
    [open] exactly when its lowercased extension is in the allowlist, and,
    when it can be read, its entry is written exactly then.  The test only
    looks at the lowercased extension; [notes.TXT] passes it. *)
Theorem extension_test_is_case_insensitive
    (fs : node) (root_path cwd : path) (fs' : node) (st : pack_state) :
  scan_and_pack fs root_path (OsPath.join cwd OUTPUT_FILENAME) = Returned fs' st ->
  (forall p, In p (opened st) -> extension_allowed (OsPath.basename p) = true)
  /\ (forall p content,
        In (p, content) (packed st) -> extension_allowed (OsPath.basename p) = true)
  /\ (forall comps filename r,
        fs_lookup fs (root_path ++ comps ++ [filename]) = Some (File filename r) ->
        dirs_kept fs root_path (fst (load_gitignore fs root_path)) root_path comps = true ->
        filename <> OUTPUT_FILENAME ->
        is_ignored fs (root_path ++ comps ++ [filename]) root_path
                   (fst (load_gitignore fs root_path)) = false ->
        (In (root_path ++ comps ++ [filename]) (opened st)
         <-> extension_allowed filename = true)
        /\ (forall content, r = Readable content ->
              (In (root_path ++ comps ++ [filename], content) (packed st)
               <-> extension_allowed filename = true)))
  /\ (forall f g, Str.lower (snd (OsPath.splitext f)) = Str.lower (snd (OsPath.splitext g)) ->
                  extension_allowed f = extension_allowed g)
  /\ extension_allowed "notes.TXT" = true.
Proof.
  intros H.
  assert (Ho : forall p, In p (opened st) -> extension_allowed (OsPath.basename p) = true).
  { intros p Hin.
    destruct (scan_and_pack_opened_admitted _ _ _ _ _ H p Hin) as (comps & f & _ & -> & _ & Hx).
    exact Hx. }
  assert (Hp : forall p content, In (p, content) (packed st) -> In p (opened st)).
  { intros p content Hin.
    destruct (scan_and_pack_consistent _ _ _ _ _ H) as (fs1 & _ & _ & _ & _ & Hpk & _).
    rewrite Forall_forall in Hpk. now apply (Hpk _ Hin). }
  split; [exact Ho|]. split; [intros p content Hin; eapply Ho, Hp; exact Hin|].
  split; [|split; [|reflexivity]].
  - intros comps filename r Hl Hk Hf Hi.
    assert (Hb : OsPath.basename (root_path ++ comps ++ [filename]) = filename)
      by (now rewrite app_assoc, basename_snoc).
    split; [split|].
    + intros Hin. rewrite <- Hb. now apply Ho.
    + intros Hx. now apply (scan_and_pack_packs_file fs root_path cwd fs' st comps filename r).
    + intros content ->. split.
      * intros Hin. rewrite <- Hb. eapply Ho, Hp. exact Hin.
      * intros Hx.
        now apply (scan_and_pack_packs_file fs root_path cwd fs' st comps filename
                     (Readable content)).
  - intros f g E. unfold extension_allowed. now rewrite E.
Qed.

(** On the sample tree: [notes.TXT] is packed. *)
Lemma extension_test_witness :
  scan_and_pack demo_fs ["proj"] (OsPath.join ["proj"] OUTPUT_FILENAME)
  = Returned demo_after demo_state
  /\ fs_lookup demo_fs ["proj"; "notes.TXT"] = Some (File "notes.TXT" (Readable "hello"))
  /\ In (["proj"; "notes.TXT"], "hello") (packed demo_state).
Proof.
  split; [exact demo_run_returned|]. split; [reflexivity|].
  assert (N : "notes.TXT" <> OUTPUT_FILENAME) by discriminate.
  exact (proj2 (proj2 (proj1 (proj2 (proj2
           (extension_test_is_case_insensitive demo_fs ["proj"] ["proj"]
              demo_after demo_state demo_run_returned)))
           [] "notes.TXT" (Readable "hello") eq_refl eq_refl N eq_refl)
           "hello" eq_refl) eq_refl).
Defined.

(** The extension does not decide alone.  On the sample tree the file
    bearing the reserved name and the file whose read fails are matched by
    no ignore rule and have an allowed extension; neither is packed. *)
Lemma extension_alone_does_not_decide :
  scan_and_pack demo_fs ["proj"] ["proj"; OUTPUT_FILENAME] = Returned demo_after demo_state
  /\ (read_file demo_fs ["proj"; OUTPUT_FILENAME] = Readable "old artifact"
      /\ is_ignored demo_fs ["proj"; OUTPUT_FILENAME] ["proj"]
                    (fst (load_gitignore demo_fs ["proj"])) = false
      /\ extension_allowed OUTPUT_FILENAME = true
      /\ ~ In ["proj"; OUTPUT_FILENAME] (map fst (packed demo_state)))
  /\ (read_file demo_fs ["proj"; "locked.py"] = Unreadable (at_open "[Errno 13] Permission denied")
      /\ is_ignored demo_fs ["proj"; "locked.py"] ["proj"]
                    (fst (load_gitignore demo_fs ["proj"])) = false
      /\ extension_allowed "locked.py" = true
      /\ ~ In ["proj"; "locked.py"] (map fst (packed demo_state))).
Proof.
  split; [exact demo_run_returned|].
  split; (split; [reflexivity|]; split; [reflexivity|]; split; [reflexivity|]);
    vm_compute; intuition discriminate.
Qed.

(** ** Read failures *)

Lemma pack_file_accounted fs root_path pats dirpath st filename :
  accounted fs root_path st ->
  accounted fs root_path (pack_file fs root_path pats dirpath st filename).
Proof.
  unfold accounted. intros H.
  destruct (pack_file_cases fs root_path pats dirpath st filename)
    as [[-> _] | (_ & _ & _ & [[content [R ->]] | [e [R ->]]])]; simpl.
  - exact H.
  - apply Forall_app. split.
    + eapply Forall_impl; [|exact H]. intros p. cbv beta.
      destruct (read_file fs p); intros Hp; apply in_or_app; now left.
    + constructor; [|constructor]. rewrite R. apply in_or_app. right. now left.
  - apply Forall_app. split.
    + eapply Forall_impl; [|exact H]. intros p. cbv beta.
      destruct (read_file fs p); intros Hp; [exact Hp | apply in_or_app; now left].
    + constructor; [|constructor]. rewrite R. apply in_or_app. right. now left.
Qed.

Lemma walk_loop_accounted fs root_path pats st :
  accounted fs root_path st -> accounted fs root_path (walk_loop fs root_path pats st).
Proof.
  intros H. unfold walk_loop. destruct (fs_lookup fs root_path) as [top|]; [|exact H].
  apply fold_left_invariant; [exact H|].
  intros a [[dirpath dirnames] filenames] _ Ha.
  apply fold_left_invariant; [exact Ha|].
  intros a' f _ Ha'. now apply pack_file_accounted.
Qed.

Lemma update_entry_succeeds (c : string) (f : node -> option node)
    (dflt : option node) (es : list node) (e e' : node) :
  find_entry c es = Some e -> f e = Some e' ->
  exists es', update_entry c f dflt es = Some es'.
Proof.
  induction es as [|a es IH]; simpl; [discriminate|].
  destruct (String.eqb (node_name a) c).
  - intros H F. inversion H; subst. rewrite F. eauto.
  - intros H F. destruct (IH H F) as [es' ->]. eauto.
Qed.

(** A file that is there can be written again. *)
Lemma fs_write_existing (q : path) (text : string) :
  forall fs x r, fs_lookup fs q = Some (File x r) ->
  exists fs', fs_write fs q text = Some fs'.
Proof.
  induction q as [|c q' IH]; intros fs x r H.
  - simpl in H. inversion H; subst. simpl. eauto.
  - simpl in H. destruct fs as [|y es]; [discriminate|].
    destruct (find_entry c es) as [e|] eqn:F; [|discriminate].
    destruct (IH e x r H) as [e' W]. rewrite fs_write_cons.
    destruct (update_entry_succeeds c (fun e => fs_write e q' text)
                (fresh_file c q' text) es e e' F W) as [es' ->].
    eauto.
Qed.

(** Once the output file could be opened the run returns. *)
Lemma scan_and_pack_returns (fs : node) (root_path output_file : path) (fs1 : node) :
  fs_write fs output_file "" = Some fs1 ->
  exists fs' printed,
    scan_and_pack fs root_path output_file
    = Returned fs' (walk_loop fs1 root_path (fst (load_gitignore fs root_path))
                              (initial_state printed)).
Proof.
  intros W. unfold scan_and_pack.
  destruct (load_gitignore fs root_path) as [pats warning]. rewrite W. simpl fst.
  match goal with |- context [walk_loop fs1 root_path pats ?s] => set (st0 := s) end.
  destruct (lookup_write_same _ _ _ _ W) as [x Hx].
  destruct (fs_write_existing output_file (outfile (walk_loop fs1 root_path pats st0))
              fs1 x _ Hx) as [fs' ->].
  exists fs', (stdout st0). reflexivity.
Qed.

(** C6.  A file that cannot be read does not abort the run.  Once the
    output file is open the run returns; every opened file whose read
    fails is reported on a line of its own and is absent from the entries
    written, every opened file that can be read has its entry written.
    The traversal goes on with the remaining files: every file of the
    tree that lies below the root along directories the rules let through
    and passes the three tests is opened, and packed when it can be read,
    whatever reads failed before it.  The count, the size and the text of
    the output file are those of the entries written, and that text is
    what the output file holds at the end.  The loop body, on a file whose
    read fails, appends the report and leaves the output text, the count,
    the size and the entries written so far as they were, and the loop
    over the file names of a directory then goes on with the next name. *)
Theorem read_failure_is_skipped
    (fs : node) (root_path output_file : path) (fs1 : node) :
  fs_write fs output_file "" = Some fs1 ->
  exists fs' st,
    scan_and_pack fs root_path output_file = Returned fs' st
    /\ (forall p e, In p (opened st) -> read_file fs1 p = Unreadable e ->
          In (skip_line root_path p e) (stdout st)
          /\ ~ In p (map fst (packed st)))
    /\ (forall p content, In p (opened st) -> read_file fs1 p = Readable content ->
          In (p, content) (packed st))
    /\ (forall comps filename r,
          fs_lookup fs1 (root_path ++ comps ++ [filename]) = Some (File filename r) ->
          dirs_kept fs1 root_path (fst (load_gitignore fs root_path)) root_path comps = true ->
          filename <> OUTPUT_FILENAME ->
          is_ignored fs1 (root_path ++ comps ++ [filename]) root_path
                     (fst (load_gitignore fs root_path)) = false ->
          extension_allowed filename = true ->
          In (root_path ++ comps ++ [filename]) (opened st)
          /\ (forall content, r = Readable content ->
                In (root_path ++ comps ++ [filename], content) (packed st))
          /\ (forall e, r = Unreadable e ->
                In (skip_line root_path (root_path ++ comps ++ [filename]) e) (stdout st)))
    /\ file_count st = length (packed st)
    /\ total_size st = list_sum (map (fun e => String.length (snd e)) (packed st))
    /\ outfile st
       = (META_PROMPT
          ++ Str.concat (map (fun e => section_text (OsPath.relpath (fst e) root_path) (snd e))
                             (packed st)))%string
    /\ read_file fs' output_file = Readable (outfile st)
    /\ (forall pats dirpath st0 filename e,
          filename <> OUTPUT_FILENAME ->
          is_ignored fs1 (OsPath.join dirpath filename) root_path pats = false ->
          extension_allowed filename = true ->
          read_file fs1 (OsPath.join dirpath filename) = Unreadable e ->
          pack_file fs1 root_path pats dirpath st0 filename
          = {| outfile := outfile st0;
               file_count := file_count st0;
               total_size := total_size st0;
               stdout := stdout st0 ++ [skip_line root_path (OsPath.join dirpath filename) e];
               opened := opened st0 ++ [OsPath.join dirpath filename];
               packed := packed st0 |}
          /\ forall rest,
               fold_left (pack_file fs1 root_path pats dirpath) (filename :: rest) st0
               = fold_left (pack_file fs1 root_path pats dirpath) rest
                   {| outfile := outfile st0;
                      file_count := file_count st0;
                      total_size := total_size st0;
                      stdout := stdout st0
                                  ++ [skip_line root_path (OsPath.join dirpath filename) e];
                      opened := opened st0 ++ [OsPath.join dirpath filename];
                      packed := packed st0 |}).
Proof.
  intros W. destruct (scan_and_pack_returns fs root_path output_file fs1 W)
    as (fs' & printed & R).
  set (pats := fst (load_gitignore fs root_path)) in *.
  set (st := walk_loop fs1 root_path pats (initial_state printed)) in *.
  exists fs', st. split; [exact R|].
  assert (C : consistent fs1 root_path pats st)
    by apply walk_loop_consistent, initial_state_consistent.
  assert (A : accounted fs1 root_path st)
    by (apply walk_loop_accounted; constructor).
  destruct C as (Hc & Hs & Ho & Hp & _).
  unfold accounted in A. rewrite Forall_forall in A, Hp.
  split; [|split; [|split; [|split; [|split; [|split; [|split]]]]]];
    try assumption.
  - intros p e Hin Hr. split.
    + specialize (A p Hin). now rewrite Hr in A.
    + intros Hm. apply in_map_iff in Hm. destruct Hm as [[p' c] [E Hm]].
      simpl in E. subst p'. destruct (Hp _ Hm) as [_ Hr']. simpl in Hr'. congruence.
  - intros p content Hin Hr. specialize (A p Hin). now rewrite Hr in A.
  - intros comps filename r L K Hn Hi Hx.
    destruct (walk_loop_packs_file fs1 root_path pats comps filename r
                (initial_state printed) L K Hn Hi Hx) as [Hin Hpk].
    fold st in Hin, Hpk. split; [exact Hin|]. split; [exact Hpk|].
    intros e ->. specialize (A _ Hin). unfold read_file in A. now rewrite L in A.
  - apply scan_and_pack_returned in R. destruct R as (fs1' & printed' & W' & _ & W2).
    destruct (lookup_write_same _ _ _ _ W2) as [x Hx].
    unfold read_file. now rewrite Hx.
  - intros pats' dirpath st0 filename e Hf Hi Hx Hr.
    assert (P : pack_file fs1 root_path pats' dirpath st0 filename
                = {| outfile := outfile st0;
                     file_count := file_count st0;
                     total_size := total_size st0;
                     stdout := stdout st0
                                 ++ [skip_line root_path (OsPath.join dirpath filename) e];
                     opened := opened st0 ++ [OsPath.join dirpath filename];
                     packed := packed st0 |}).
    { destruct (pack_file_cases fs1 root_path pats' dirpath st0 filename)
        as [[_ [H|[H|H]]] | (_ & _ & _ & [[content [R' _]] | [e' [R' ->]]])];
        try congruence.
      - unfold extension_allowed in Hx. congruence.
      - rewrite Hr in R'. inversion R'; subst. reflexivity. }
    split; [exact P|]. intros rest. cbn [fold_left]. now rewrite P.
Qed.

(** On the sample tree: [locked.py] is reported and skipped, and
    [src/main.c], met later, is opened and packed. *)
Lemma read_failure_witness :
  fs_write demo_fs ["proj"; OUTPUT_FILENAME] "" = Some demo_walk_fs
  /\ read_file demo_walk_fs ["proj"; "locked.py"]
     = Unreadable (at_open "[Errno 13] Permission denied")
  /\ In ["proj"; "locked.py"] (opened demo_state)
  /\ exists fs' st,
       scan_and_pack demo_fs ["proj"] ["proj"; OUTPUT_FILENAME] = Returned fs' st
       /\ In "  Skipped (Read Error): locked.py - [Errno 13] Permission denied" (stdout st)
       /\ ~ In ["proj"; "locked.py"] (map fst (packed st))
       /\ In ["proj"; "src"; "main.c"] (opened st)
       /\ In (["proj"; "src"; "main.c"], "int main;") (packed st).
Proof.
  split; [reflexivity|]. split; [reflexivity|]. split; [vm_compute; tauto|].
  destruct (read_failure_is_skipped demo_fs ["proj"] ["proj"; OUTPUT_FILENAME]
              demo_walk_fs eq_refl) as (fs' & st & R & Hu & _ & Hall & _).
  exists fs', st. split; [exact R|].
  assert (E : st = demo_state)
    by (rewrite demo_run_returned in R; now inversion R).
  assert (O1 : In ["proj"; "locked.py"] (opened st)) by (rewrite E; vm_compute; tauto).
  destruct (Hu _ (at_open "[Errno 13] Permission denied") O1 eq_refl) as [H1 H2].
  split; [exact H1|]. split; [exact H2|].
  destruct (Hall ["src"] "main.c" (Readable "int main;") eq_refl eq_refl
              ltac:(discriminate) eq_refl eq_refl) as (O2 & P2 & _).
  split; [exact O2 | exact (P2 _ eq_refl)].
Defined.

(** ** What main prints *)

Lemma load_gitignore_warning (fs : node) (root_path : path) :
  Forall (fun l => scan_line l = true) (snd (load_gitignore fs root_path)).
Proof.
  unfold load_gitignore.
  destruct (fs_lookup fs _) as [[x [text|e]|x es]|]; simpl.
  - constructor.
  - constructor; [reflexivity | constructor].
  - constructor; [reflexivity | constructor].
  - constructor.
Qed.

Lemma pack_file_stdout fs root_path pats dirpath st filename :
  Forall (fun l => scan_line l = true) (stdout st) ->
  Forall (fun l => scan_line l = true)
         (stdout (pack_file fs root_path pats dirpath st filename)).
Proof.
  intros H.
  destruct (pack_file_cases fs root_path pats dirpath st filename)
    as [[-> _] | (_ & _ & _ & [[content [_ ->]] | [e [_ ->]]])]; simpl;
    [exact H | |]; apply Forall_app; split; try exact H;
    (constructor; [reflexivity | constructor]).
Qed.

Lemma scan_and_pack_stdout (fs : node) (root_path output_file : path)
    (fs' : node) (st : pack_state) :
  scan_and_pack fs root_path output_file = Returned fs' st ->
  Forall (fun l => scan_line l = true) (stdout st).
Proof.
  unfold scan_and_pack. pose proof (load_gitignore_warning fs root_path) as Hw.
  destruct (load_gitignore fs root_path) as [pats warning]. simpl in Hw.
  destruct (fs_write fs output_file "") as [fs1|]; [|discriminate].
  match goal with |- context [walk_loop fs1 root_path pats ?s] => set (st0 := s) end.
  destruct (fs_write fs1 output_file _) as [fs2|]; [|discriminate].
  intros H. inversion H; subst. unfold walk_loop.
  assert (H0 : Forall (fun l => scan_line l = true) (stdout st0)).
  { simpl. constructor; [reflexivity | exact Hw]. }
  destruct (fs_lookup fs1 root_path) as [top|]; [|exact H0].
  apply (fold_left_invariant _ (fun st => Forall (fun l => scan_line l = true) (stdout st)));
    [exact H0|].
  intros a [[dirpath dirnames] filenames] _ Ha.
  apply (fold_left_invariant _ (fun st => Forall (fun l => scan_line l = true) (stdout st)));
    [exact Ha|].
  intros a' f _ Ha'. now apply pack_file_stdout.
Qed.

Lemma not_a_scan_line (l : string) (printed : list string) :
  scan_line l = false ->
  Forall (fun l => scan_line l = true) printed -> ~ In l printed.
Proof.
  intros Hl Hp Hin. rewrite Forall_forall in Hp. apply Hp in Hin. congruence.
Qed.

(** C5.  A run that packs no file is reported as such and as nothing
    else.  When [scan_and_pack] returns the count zero, [main] prints, last,
    the line saying that no matching file was found, never the line
    announcing success; it writes no prompt file, touches no clipboard and
    opens neither browser nor file manager; the output file it leaves holds
    the preamble and nothing else, so it is not empty.  When the count is
    not zero the line saying that nothing was found is never printed, and
    the success line is printed once the prompt file is written. *)
Theorem nothing_packed_is_reported_distinctly
    (inv : invocation) (fs fs' : node) (st : pack_state) :
  OsPath.isdir fs (target_path_of inv) = true ->
  scan_and_pack fs (target_path_of inv) (output_path_of inv) = Returned fs' st ->
  (file_count st = 0 ->
     w_stdout (main inv fs) = stdout st ++ [nothing_line]
     /\ ~ In success_line (w_stdout (main inv fs))
     /\ w_fs (main inv fs) = fs'
     /\ w_clipboard (main inv fs) = None
     /\ w_browser (main inv fs) = []
     /\ w_explorer (main inv fs) = []
     /\ packed st = []
     /\ read_file fs' (output_path_of inv) = Readable META_PROMPT
     /\ META_PROMPT <> "")
  /\ (file_count st <> 0 ->
        ~ In nothing_line (w_stdout (main inv fs))
        /\ forall fs'',
             fs_write fs' (OsPath.join (getcwd inv) "prompt.txt") USER_PROMPT = Some fs'' ->
             In success_line (w_stdout (main inv fs))
             /\ w_fs (main inv fs) = fs''
             /\ w_browser (main inv fs) = [GEMINI_URL]).
Proof.
  intros Hd R. pose proof (scan_and_pack_stdout _ _ _ _ _ R) as Hs.
  unfold main. rewrite Hd, R. simpl negb. cbv iota. split.
  - intros Hz. rewrite Hz. simpl. repeat split.
    + intros Hin. apply in_app_or in Hin. destruct Hin as [Hin|[Hin|[]]].
      * revert Hin. now apply not_a_scan_line.
      * discriminate Hin.
    + destruct (scan_and_pack_consistent _ _ _ _ _ R) as (fs1 & _ & Hc & _).
      rewrite Hz in Hc. now destruct (packed st).
    + destruct (scan_and_pack_consistent _ _ _ _ _ R) as (fs1 & _ & Hc & _ & Ho & _).
      rewrite Hz in Hc. destruct (packed st); [|discriminate]. simpl in Ho.
      apply scan_and_pack_returned in R. destruct R as (fs1' & printed & _ & _ & W2).
      destruct (lookup_write_same _ _ _ _ W2) as [x Hx].
      unfold read_file. rewrite Hx, Ho. reflexivity.
    + discriminate.
  - intros Hnz. apply Nat.eqb_neq in Hnz. rewrite Hnz. split.
    + destruct (fs_write fs' _ USER_PROMPT) as [fs''|]; cbn [w_stdout]; intros Hin;
        apply in_app_or in Hin; destruct Hin as [Hin|Hin];
        try (revert Hin; now apply not_a_scan_line).
      * apply in_app_or in Hin. destruct Hin as [Hin|Hin].
        -- unfold nothing_line, dashes, success_line in Hin. simpl in Hin.
           intuition discriminate.
        -- destruct (explorer_error inv); simpl in Hin; intuition discriminate.
      * simpl in Hin. intuition discriminate.
    + intros fs'' W. rewrite W. cbn [w_stdout w_fs w_browser]. repeat split.
      apply in_or_app. right. apply in_or_app. left. right. now left.
Qed.

(** On a tree without any file to pack. *)
Lemma nothing_packed_witness :
  OsPath.isdir empty_fs (target_path_of empty_inv) = true
  /\ file_count (state_after (scan_and_pack empty_fs ["work"] ["work"; OUTPUT_FILENAME])) = 0
  /\ w_stdout (main empty_inv empty_fs) = ["Scanning project at: /work..."; nothing_line]
  /\ read_file (w_fs (main empty_inv empty_fs)) ["work"; OUTPUT_FILENAME]
     = Readable META_PROMPT
  /\ fs_lookup (w_fs (main empty_inv empty_fs)) ["work"; "prompt.txt"] = None.
Proof.
  split; [reflexivity|]. split; [reflexivity|].
  pose proof (proj1 (nothing_packed_is_reported_distinctly empty_inv empty_fs
                       (fs_after (scan_and_pack empty_fs ["work"] ["work"; OUTPUT_FILENAME]))
                       (state_after (scan_and_pack empty_fs ["work"] ["work"; OUTPUT_FILENAME]))
                       eq_refl eq_refl) eq_refl) as (H1 & _ & H3 & _ & _ & _ & _ & H8 & _).
  split; [rewrite H1; reflexivity|].
  split; [rewrite H3; exact H8|].
  rewrite H3. reflexivity.
Defined.

(** ** Running twice *)

Lemma load_gitignore_write (q : path) (text : string) (fs fs2 : node) (root_path : path) :
  fs_write fs q text = Some fs2 ->
  OsPath.basename q <> ".gitignore" ->
  load_gitignore fs2 root_path = load_gitignore fs root_path.
Proof.
  intros W Hq. unfold load_gitignore.
  assert (K : kind (fs_lookup fs2 (OsPath.join root_path ".gitignore"))
              = kind (fs_lookup fs (OsPath.join root_path ".gitignore"))).
  { apply (lookup_write_other _ _ _ _ _ W).
    change (OsPath.basename (OsPath.join root_path ".gitignore") <> OsPath.basename q).
    unfold OsPath.join. rewrite basename_snoc. congruence. }
  destruct (fs_lookup fs2 _) as [[x r|x es]|], (fs_lookup fs _) as [[y r'|y es']|];
    simpl in K; inversion K; reflexivity.
Qed.

(** A run does not depend on what the output file held before it. *)
Lemma scan_and_pack_write (fs fs2 : node) (root_path cwd : path) (text : string) :
  fs_write fs (OsPath.join cwd OUTPUT_FILENAME) text = Some fs2 ->
  scan_and_pack fs2 root_path (OsPath.join cwd OUTPUT_FILENAME)
  = scan_and_pack fs root_path (OsPath.join cwd OUTPUT_FILENAME).
Proof.
  intros W. unfold scan_and_pack.
  rewrite (load_gitignore_write _ _ _ _ root_path W).
  - rewrite (fs_write_twice _ _ _ _ _ W).
    destruct (lookup_write_same _ _ _ _ W) as [x Hx].
    destruct (fs_write_existing _ "" _ _ _ Hx) as [fs1 W1].
    rewrite (fs_write_twice _ _ _ _ _ W) in W1. now rewrite W1.
  - unfold OsPath.join. rewrite basename_snoc. discriminate.
Qed.

(** *** What the output file holds while the walk runs

    The output file is written through a buffer: while the walk runs it
    may hold nothing, or a part of the text.  The loop never reads it, so
    its content does not matter. *)

Lemma shape_name (n : node) : node_name (shape n) = node_name n.
Proof. now destruct n. Qed.

Lemma dir_names_shape (es es' : list node) :
  map shape es = map shape es' -> Os.dir_names es = Os.dir_names es'.
Proof.
  revert es'. induction es as [|e es IH]; intros [|e' es'] H; try discriminate;
    [reflexivity|].
  simpl in H. inversion H as [[He Hes]]. unfold Os.dir_names. simpl.
  fold (Os.dir_names es). fold (Os.dir_names es'). rewrite (IH _ Hes).
  destruct e, e'; simpl in He; inversion He; reflexivity.
Qed.

Lemma file_names_shape (es es' : list node) :
  map shape es = map shape es' -> Os.file_names es = Os.file_names es'.
Proof.
  revert es'. induction es as [|e es IH]; intros [|e' es'] H; try discriminate;
    [reflexivity|].
  simpl in H. inversion H as [[He Hes]]. unfold Os.file_names. simpl.
  fold (Os.file_names es). fold (Os.file_names es'). rewrite (IH _ Hes).
  destruct e, e'; simpl in He; inversion He; reflexivity.
Qed.

(** The walk only looks at names and nesting, and at what the body does to
    the names of the sub-directories. *)
Lemma walk_shape (e1 e2 : path -> list string -> list string) (n : node) :
  (forall p d, e1 p d = e2 p d) ->
  forall n' top, shape n = shape n' -> Os.walk e1 top n = Os.walk e2 top n'.
Proof.
  intros He. induction n as [x c | x es IH] using node_ind; intros n' top H.
  - destruct n'; [reflexivity | discriminate].
  - destruct n' as [|x' es']; [discriminate|]. simpl in H. inversion H as [[Hx Hes]].
    simpl. rewrite (dir_names_shape _ _ Hes), (file_names_shape _ _ Hes), He.
    f_equal. set (dirnames := e2 top (Os.dir_names es')). clearbody dirnames.
    clear H Hx. revert es' Hes.
    induction es as [|e es IHes]; intros [|e' es'] Hes; try discriminate; [reflexivity|].
    simpl in Hes. inversion Hes as [[H1 H2]]. inversion IH as [|? ? IHe IHr]; subst.
    simpl. rewrite (IHes IHr _ H2). f_equal.
    destruct e as [f c|d sub], e' as [f' c'|d' sub']; simpl in H1; try discriminate;
      [reflexivity|].
    inversion H1; subst. destruct (Str.mem d' dirnames); [|reflexivity].
    apply IHe. simpl. now f_equal.
Qed.

Lemma find_entry_shape (c : string) (es es' : list node) :
  map shape es = map shape es' ->
  option_map shape (find_entry c es) = option_map shape (find_entry c es').
Proof.
  revert es'. induction es as [|e es IH]; intros [|e' es'] H; try discriminate;
    [reflexivity|].
  simpl in H. inversion H as [[He Hes]]. simpl.
  rewrite <- (shape_name e), <- (shape_name e'), He.
  destruct (String.eqb _ c); [simpl; now rewrite He | now apply IH].
Qed.

Lemma lookup_shape (p : path) :
  forall n n', shape n = shape n' ->
  option_map shape (fs_lookup n p) = option_map shape (fs_lookup n' p).
Proof.
  induction p as [|c p IH]; intros n n' H; simpl; [now rewrite H|].
  destruct n as [|x es], n' as [|x' es']; try discriminate; [reflexivity|].
  simpl in H. inversion H as [[Hx Hes]].
  pose proof (find_entry_shape c _ _ Hes) as F.
  destruct (find_entry c es) as [e|], (find_entry c es') as [e'|]; simpl in F;
    try discriminate; [|reflexivity].
  apply IH. now inversion F.
Qed.

Lemma update_entry_shape (c : string) (fa fb : node -> option node)
    (da db : option node) (es esa esb : list node) :
  (forall e ea eb, fa e = Some ea -> fb e = Some eb -> shape ea = shape eb) ->
  (forall a b, da = Some a -> db = Some b -> shape a = shape b) ->
  update_entry c fa da es = Some esa ->
  update_entry c fb db es = Some esb ->
  map shape esa = map shape esb.
Proof.
  intros Hf Hd. revert esa esb.
  induction es as [|e es IH]; intros esa esb Ha Hb; simpl in Ha, Hb.
  - destruct da as [a|], db as [b|]; try discriminate.
    inversion Ha; inversion Hb; subst. simpl. now rewrite (Hd a b).
  - destruct (String.eqb (node_name e) c).
    + destruct (fa e) as [ea|] eqn:Fa, (fb e) as [eb|] eqn:Fb; try discriminate.
      inversion Ha; inversion Hb; subst. simpl. now rewrite (Hf e ea eb).
    + destruct (update_entry c fa da es) as [ea|], (update_entry c fb db es) as [eb|];
        try discriminate.
      inversion Ha; inversion Hb; subst. simpl. now rewrite (IH ea eb).
Qed.

(** Two texts written to the same file give trees of the same shape. *)
Lemma shape_write (q : path) (a b : string) :
  forall fs fsa fsb,
  fs_write fs q a = Some fsa -> fs_write fs q b = Some fsb -> shape fsa = shape fsb.
Proof.
  induction q as [|c q' IH]; intros fs fsa fsb Wa Wb.
  - simpl in Wa, Wb. destruct fs; [|discriminate].
    inversion Wa; inversion Wb; reflexivity.
  - destruct fs as [|x es]; [discriminate|]. rewrite fs_write_cons in Wa, Wb.
    destruct (update_entry c _ (fresh_file c q' a) es) as [esa|] eqn:Ua; [|discriminate].
    destruct (update_entry c _ (fresh_file c q' b) es) as [esb|] eqn:Ub; [|discriminate].
    inversion Wa; inversion Wb; subst. simpl. f_equal.
    apply (update_entry_shape c _ _ _ _ es esa esb) with (3 := Ua) (4 := Ub).
    + intros e ea eb. apply IH.
    + intros x1 x2 H1 H2. destruct q'; [|discriminate].
      inversion H1; inversion H2; reflexivity.
Qed.

Lemma open_error_shape (fs fs2 : node) (p : path) :
  shape fs = shape fs2 -> open_error fs p = open_error fs2 p.
Proof.
  intros H. unfold open_error, OsPath.isdir.
  assert (K : forall q, match fs_lookup fs q, fs_lookup fs2 q with
                        | Some (File _ _), Some (File _ _) => True
                        | Some (Dir _ _), Some (Dir _ _) => True
                        | None, None => True
                        | _, _ => False
                        end).
  { intros q. pose proof (lookup_shape q _ _ H) as L.
    destruct (fs_lookup fs q) as [[|]|], (fs_lookup fs2 q) as [[|]|];
      simpl in L; try discriminate; exact I. }
  assert (E : existsb (fun k => match fs_lookup fs (firstn k p) with
                                | Some (File _ _) => true | _ => false end)
                      (seq 0 (length p))
              = existsb (fun k => match fs_lookup fs2 (firstn k p) with
                                  | Some (File _ _) => true | _ => false end)
                        (seq 0 (length p))).
  { induction (seq 0 (length p)) as [|k l IHl]; [reflexivity|]. simpl. rewrite IHl.
    f_equal. specialize (K (firstn k p)).
    destruct (fs_lookup fs (firstn k p)) as [[|]|], (fs_lookup fs2 (firstn k p)) as [[|]|];
      tauto. }
  rewrite E. specialize (K p).
  destruct (fs_lookup fs p) as [[|]|], (fs_lookup fs2 p) as [[|]|]; tauto.
Qed.

(** The loop gives the same state whatever the output file holds while it
    runs. *)
Lemma walk_loop_ignores_output (fs fsa fsb : node) (root_path cwd : path)
    (a b : string) (pats : list string) (st : pack_state) :
  fs_write fs (OsPath.join cwd OUTPUT_FILENAME) a = Some fsa ->
  fs_write fs (OsPath.join cwd OUTPUT_FILENAME) b = Some fsb ->
  walk_loop fsa root_path pats st = walk_loop fsb root_path pats st.
Proof.
  intros Wa Wb. pose proof (shape_write _ _ _ _ _ _ Wa Wb) as Hs.
  assert (Hi : forall p, is_ignored fsa p root_path pats = is_ignored fsb p root_path pats).
  { intros p. now rewrite (is_ignored_write _ _ _ _ _ _ _ Wa),
                          (is_ignored_write _ _ _ _ _ _ _ Wb). }
  assert (Hp : forall dirpath s f,
             pack_file fsa root_path pats dirpath s f
             = pack_file fsb root_path pats dirpath s f).
  { intros dirpath s f. unfold pack_file. rewrite Hi.
    destruct (String.eqb f OUTPUT_FILENAME) eqn:E; [reflexivity|].
    apply String.eqb_neq in E.
    assert (R : read_file fsa (OsPath.join dirpath f) = read_file fsb (OsPath.join dirpath f)).
    { unfold read_file. rewrite (open_error_shape _ _ _ Hs).
      assert (L : forall t fs2, fs_write fs (OsPath.join cwd OUTPUT_FILENAME) t = Some fs2 ->
                  kind (fs_lookup fs2 (OsPath.join dirpath f))
                  = kind (fs_lookup fs (OsPath.join dirpath f))).
      { intros t fs2 W. apply (lookup_write_other _ _ _ _ _ W).
        change (OsPath.basename (OsPath.join dirpath f)
                <> OsPath.basename (OsPath.join cwd OUTPUT_FILENAME)).
        unfold OsPath.join. now rewrite !basename_snoc. }
      pose proof (L _ _ Wa) as La. pose proof (L _ _ Wb) as Lb. rewrite <- Lb in La.
      destruct (fs_lookup fsa _) as [[|]|], (fs_lookup fsb _) as [[|]|];
        simpl in La; inversion La; reflexivity. }
    now rewrite R. }
  unfold walk_loop. pose proof (lookup_shape root_path _ _ Hs) as Lr.
  destruct (fs_lookup fsa root_path) as [ta|], (fs_lookup fsb root_path) as [tb|];
    simpl in Lr; try discriminate; [|reflexivity].
  inversion Lr as [Ht].
  rewrite (walk_shape (prune_dirnames fsa root_path pats) (prune_dirnames fsb root_path pats)
             ta) with (n' := tb) (top := root_path); [| |exact Ht].
  - generalize (Os.walk (prune_dirnames fsb root_path pats) root_path tb). intros l.
    revert st. induction l as [|[[dirpath dn] fns] l IHl]; intros st0; [reflexivity|].
    simpl. rewrite <- IHl. f_equal.
    revert st0. induction fns as [|f fns IHf]; intros st0; [reflexivity|].
    simpl. now rewrite Hp, IHf.
  - intros p d. rewrite !prune_dirnames_filter. apply filter_ext. intros x. now rewrite Hi.
Qed.

(** C8.  Packing twice in a row gives the same packed sections.  A run
    that returns leaves a file system on which the next run, with the same
    root and working directory, returns the very same state (output text,
    count, size, entries in the same order) and leaves the file system as
    it found it; more generally the result of a run is the same on any
    file system that differs from the first one only by what the output
    file holds, and the loop gives the same state whatever the output file
    holds while it runs. *)
Theorem pack_twice_same_sections
    (fs : node) (root_path cwd : path) (fs' : node) (st : pack_state) :
  scan_and_pack fs root_path (OsPath.join cwd OUTPUT_FILENAME) = Returned fs' st ->
  scan_and_pack fs' root_path (OsPath.join cwd OUTPUT_FILENAME) = Returned fs' st
  /\ read_file fs' (OsPath.join cwd OUTPUT_FILENAME) = Readable (outfile st)
  /\ (forall text fs2,
        fs_write fs (OsPath.join cwd OUTPUT_FILENAME) text = Some fs2 ->
        scan_and_pack fs2 root_path (OsPath.join cwd OUTPUT_FILENAME) = Returned fs' st)
  /\ (forall a b fsa fsb pats st0,
        fs_write fs (OsPath.join cwd OUTPUT_FILENAME) a = Some fsa ->
        fs_write fs (OsPath.join cwd OUTPUT_FILENAME) b = Some fsb ->
        walk_loop fsa root_path pats st0 = walk_loop fsb root_path pats st0).
Proof.
  intros R.
  assert (G : forall text fs2,
             fs_write fs (OsPath.join cwd OUTPUT_FILENAME) text = Some fs2 ->
             scan_and_pack fs2 root_path (OsPath.join cwd OUTPUT_FILENAME) = Returned fs' st)
    by (intros text fs2 W; now rewrite (scan_and_pack_write _ _ _ _ _ W)).
  destruct (scan_and_pack_returned _ _ _ _ _ R) as (fs1 & printed & W1 & _ & W2).
  split; [|split; [|split; [exact G|]]].
  - apply (G (outfile st)). now rewrite <- (fs_write_twice _ _ _ _ _ W1).
  - destruct (lookup_write_same _ _ _ _ W2) as [x Hx]. unfold read_file. now rewrite Hx.
  - intros a b fsa fsb pats st0 Wa Wb.
    exact (walk_loop_ignores_output fs fsa fsb root_path cwd a b pats st0 Wa Wb).
Qed.

(** On the sample tree: the first run changes the file system, the
    second one finds it and leaves it as the first one left it. *)
Lemma pack_twice_witness :
  scan_and_pack demo_fs ["proj"] (OsPath.join ["proj"] OUTPUT_FILENAME)
  = Returned demo_after demo_state
  /\ demo_after <> demo_fs
  /\ scan_and_pack demo_after ["proj"] (OsPath.join ["proj"] OUTPUT_FILENAME)
     = Returned demo_after demo_state.
Proof.
  split; [exact demo_run_returned|]. split; [discriminate|].
  exact (proj1 (pack_twice_same_sections demo_fs ["proj"] ["proj"]
                  demo_after demo_state demo_run_returned)).
Defined.

(** ** The prompt file *)

Lemma fs_lookup_name (fs : node) (a : path) (c : string) (n : node) :
  fs_lookup fs (a ++ [c]) = Some n -> node_name n = c.
Proof.
  rewrite fs_lookup_app. destruct (fs_lookup fs a) as [m|]; [|discriminate].
  simpl. destruct m as [|x es]; [discriminate|].
  destruct (find_entry c es) as [e|] eqn:F; [|discriminate].
  intros H. inversion H; subst. now apply find_entry_spec in F.
Qed.

(** When [main] opened the browser it had written the prompt file. *)
Lemma main_success (inv : invocation) (fs : node) :
  w_browser (main inv fs) = [GEMINI_URL] ->
  exists fs' st,
    scan_and_pack fs (target_path_of inv) (output_path_of inv) = Returned fs' st
    /\ fs_write fs' (OsPath.join (getcwd inv) "prompt.txt") USER_PROMPT
       = Some (w_fs (main inv fs)).
Proof.
  unfold main. destruct (negb (OsPath.isdir fs (target_path_of inv))); [discriminate|].
  destruct (scan_and_pack fs _ _) as [fs' st|fs' printed e]; [|discriminate].
  destruct (file_count st =? 0)%nat; [discriminate|].
  destruct (fs_write fs' _ USER_PROMPT) as [fs''|] eqn:W; [|discriminate].
  intros _. exists fs', st. split; [reflexivity | exact W].
Qed.

Lemma concat_In (x : string) (l : list string) :
  In x l -> exists before after, Str.concat l = (before ++ x ++ after)%string.
Proof.
  induction l as [|y l IH]; [intros []|]. intros [->|H].
  - exists ""%string, (Str.concat l). reflexivity.
  - destruct (IH H) as (b & a & E). exists (y ++ b)%string, a.
    simpl. now rewrite E, append_assoc.
Qed.

Lemma is_ignored_false (fs : node) (p root_path : path) (pats : list string) :
  default_exact (OsPath.basename p) = false ->
  default_wildcard (OsPath.basename p) = false ->
  (forall pattern, In pattern pats -> pattern_hits fs p root_path pattern = false) ->
  is_ignored fs p root_path pats = false.
Proof.
  intros H1 H2 H3. rewrite is_ignored_stages, H1, H2. simpl.
  destruct (existsb _ pats) eqn:E; [|reflexivity].
  apply existsb_exists in E. destruct E as [pat [Hin E]].
  rewrite (H3 _ Hin) in E. discriminate.
Qed.

(** C10.  The prompt file has no exclusion of its own.  Its name is not
    the reserved one, is not default-ignored and has an allowed extension.
    Once a run of [main] has written it in the working directory, a later
    run whose root lies above that directory packs it, with the prompt as
    its content, provided that no directory from the root down to the
    working directory is pruned by an ignore rule and that no pattern of
    the .gitignore matches the file. *)
Theorem prompt_file_is_packed_by_later_runs
    (inv : invocation) (fs : node) (root_path cwd' : path) (comps : list string)
    (fs' : node) (st : pack_state) :
  w_browser (main inv fs) = [GEMINI_URL] ->
  getcwd inv = root_path ++ comps ->
  scan_and_pack (w_fs (main inv fs)) root_path (OsPath.join cwd' OUTPUT_FILENAME)
  = Returned fs' st ->
  dirs_kept (w_fs (main inv fs)) root_path
            (fst (load_gitignore (w_fs (main inv fs)) root_path)) root_path comps = true ->
  (forall pattern,
     In pattern (fst (load_gitignore (w_fs (main inv fs)) root_path)) ->
     pattern_hits (w_fs (main inv fs)) (root_path ++ comps ++ ["prompt.txt"])
                  root_path pattern = false) ->
  ("prompt.txt" <> OUTPUT_FILENAME
   /\ default_exact "prompt.txt" = false
   /\ default_wildcard "prompt.txt" = false
   /\ extension_allowed "prompt.txt" = true)
  /\ read_file (w_fs (main inv fs)) (root_path ++ comps ++ ["prompt.txt"])
     = Readable USER_PROMPT
  /\ In (root_path ++ comps ++ ["prompt.txt"], USER_PROMPT) (packed st)
  /\ exists before after,
       outfile st
       = (before
          ++ section_text
               (OsPath.relpath (root_path ++ comps ++ ["prompt.txt"])%list root_path)
               USER_PROMPT
          ++ after)%string.
Proof.
  intros Hs Hcwd R Hk Hg.
  destruct (main_success inv fs Hs) as (fs0 & st0 & _ & W).
  set (fsw := w_fs (main inv fs)) in *.
  set (p := root_path ++ comps ++ ["prompt.txt"]) in *.
  assert (Hp : OsPath.join (getcwd inv) "prompt.txt" = p)
    by (unfold OsPath.join, p; now rewrite Hcwd, <- app_assoc).
  rewrite Hp in W. destruct (lookup_write_same _ _ _ _ W) as [x Hx].
  assert (x = "prompt.txt").
  { unfold p in Hx. rewrite app_assoc in Hx. now apply fs_lookup_name in Hx. }
  subst x.
  assert (N : "prompt.txt" <> OUTPUT_FILENAME) by discriminate.
  assert (Hi : is_ignored fsw p root_path (fst (load_gitignore fsw root_path)) = false).
  { apply is_ignored_false; [| |exact Hg];
      unfold p; rewrite app_assoc, basename_snoc; reflexivity. }
  destruct (scan_and_pack_packs_file fsw root_path cwd' fs' st comps "prompt.txt"
              (Readable USER_PROMPT) R Hx Hk N Hi eq_refl) as [_ Hpk].
  specialize (Hpk USER_PROMPT eq_refl).
  split; [repeat split; try reflexivity; exact N|].
  split; [unfold read_file; now rewrite Hx|]. split; [exact Hpk|].
  destruct (scan_and_pack_consistent _ _ _ _ _ R) as (fs1 & _ & _ & _ & Ho & _).
  destruct (concat_In _ _ (in_map (fun e => section_text (OsPath.relpath (fst e) root_path)
                                                         (snd e)) _ _ Hpk))
    as (b & a & E).
  exists (META_PROMPT ++ b)%string, a. rewrite Ho, E. simpl fst. simpl snd.
  now rewrite append_assoc.
Qed.

(** On the sample tree, run from the root: the first run writes the prompt
    file, which was not there, and the next one packs it. *)
Lemma prompt_file_witness :
  w_browser (main demo_inv demo_fs) = [GEMINI_URL]
  /\ fs_lookup demo_fs ["proj"; "prompt.txt"] = None
  /\ In (["proj"; "prompt.txt"], USER_PROMPT)
        (packed (state_after (scan_and_pack (w_fs (main demo_inv demo_fs))
                                            ["proj"] ["proj"; OUTPUT_FILENAME]))).
Proof.
  split; [reflexivity|]. split; [reflexivity|].
  refine (proj1 (proj2 (proj2
            (prompt_file_is_packed_by_later_runs demo_inv demo_fs ["proj"] ["proj"] []
               (fs_after (scan_and_pack (w_fs (main demo_inv demo_fs))
                                        ["proj"] ["proj"; OUTPUT_FILENAME]))
               (state_after (scan_and_pack (w_fs (main demo_inv demo_fs))
                                           ["proj"] ["proj"; OUTPUT_FILENAME]))
               eq_refl eq_refl _ eq_refl _)))).
  - vm_compute. reflexivity.
  - intros pattern Hin. vm_compute in Hin.
    destruct Hin as [<-|[<-|[<-|[]]]]; vm_compute; reflexivity.
Defined.

(** A run started in a pruned directory of the tree it scans writes a
    prompt file that no later run packs, although the root contains the
    working directory and there is no .gitignore at all. *)
Lemma prompt_file_below_pruned_directory :
  target_path_of pruned_inv = ["proj"]
  /\ getcwd pruned_inv = ["proj"] ++ ["build"]
  /\ w_browser (main pruned_inv pruned_fs) = [GEMINI_URL]
  /\ read_file (w_fs (main pruned_inv pruned_fs)) ["proj"; "build"; "prompt.txt"]
     = Readable USER_PROMPT
  /\ load_gitignore (w_fs (main pruned_inv pruned_fs)) ["proj"] = ([], [])
  /\ scan_and_pack (w_fs (main pruned_inv pruned_fs)) ["proj"] (output_path_of pruned_inv)
     = Returned
         (fs_after (scan_and_pack (w_fs (main pruned_inv pruned_fs)) ["proj"]
                                  (output_path_of pruned_inv)))
         (state_after (scan_and_pack (w_fs (main pruned_inv pruned_fs)) ["proj"]
                                     (output_path_of pruned_inv)))
  /\ opened (state_after (scan_and_pack (w_fs (main pruned_inv pruned_fs)) ["proj"]
                                        (output_path_of pruned_inv)))
     = [["proj"; "a.py"]]
  /\ ~ In (["proj"; "build"; "prompt.txt"], USER_PROMPT)
          (packed (state_after (scan_and_pack (w_fs (main pruned_inv pruned_fs)) ["proj"]
                                              (output_path_of pruned_inv)))).
Proof.
  repeat split; try (vm_compute; reflexivity).
  vm_compute. intros [H|[]]. discriminate H.
Qed.

(** * Further properties *)

(** ** The ignore rules, continued *)

(** X1.  Lines 116-119 remove the ignored names from [dirnames] while
    iterating over a copy of it: what is left is exactly the names that
    are not ignored, in their order, whether or not a name occurs twice. *)
Theorem prune_keeps_the_unignored_names
    (fs : node) (root_path : path) (pats : list string)
    (dirpath : path) (dirnames : list string) :
  prune_dirnames fs root_path pats dirpath dirnames
  = filter (fun d => negb (is_ignored fs (OsPath.join dirpath d) root_path pats)) dirnames
  /\ forall d,
       In d (prune_dirnames fs root_path pats dirpath dirnames)
       <-> In d dirnames /\ is_ignored fs (OsPath.join dirpath d) root_path pats = false.
Proof.
  split; [apply prune_dirnames_filter|].
  intros d. rewrite prune_dirnames_filter, filter_In, negb_true_iff. tauto.
Qed.

(** X2.  The patterns of the .gitignore only add up: a path is ignored
    under two lists put together exactly when it is ignored under one of
    them, so that the order of the lines does not matter and no line, not
    even one starting with an exclamation mark, takes back what another
    line or a default ignores. *)
Theorem patterns_only_add_up
    (fs : node) (p root_path : path) (pats1 pats2 : list string) :
  is_ignored fs p root_path (pats1 ++ pats2)
  = is_ignored fs p root_path pats1 || is_ignored fs p root_path pats2
  /\ is_ignored fs p root_path (pats1 ++ pats2) = is_ignored fs p root_path (pats2 ++ pats1)
  /\ (forall line, is_ignored fs p root_path pats1 = true ->
                   is_ignored fs p root_path (pats1 ++ ["!" ++ line]%string) = true).
Proof.
  assert (E : forall a b, is_ignored fs p root_path (a ++ b)
                          = is_ignored fs p root_path a || is_ignored fs p root_path b).
  { intros a b. rewrite !is_ignored_stages, existsb_app.
    destruct (default_exact _ || default_wildcard _); simpl; [reflexivity|].
    reflexivity. }
  split; [apply E|]. split.
  - rewrite !E. apply orb_comm.
  - intros line H. now rewrite E, H.
Qed.

(** ** What a run leaves on the disk *)

Lemma scan_and_pack_disk (fs : node) (root_path output_file : path) :
  match scan_and_pack fs root_path output_file with
  | Returned fs' st =>
      fs_write fs output_file (outfile st) = Some fs'
      /\ (forall p, OsPath.isdir fs' p = OsPath.isdir fs p)
      /\ (forall p, OsPath.basename p <> OsPath.basename output_file ->
                    kind (fs_lookup fs' p) = kind (fs_lookup fs p))
  | Raised fs' printed e =>
      fs' = fs /\ fs_write fs output_file "" = None /\ e = open_error fs output_file
  end.
Proof.
  destruct (scan_and_pack fs root_path output_file) as [fs' st|fs' printed e] eqn:R.
  - destruct (scan_and_pack_returned _ _ _ _ _ R) as (fs1 & pr & W1 & _ & W2).
    assert (W : fs_write fs output_file (outfile st) = Some fs')
      by (now rewrite <- (fs_write_twice _ _ _ _ _ W1)).
    split; [exact W|]. split.
    + intros p. exact (isdir_write _ _ _ _ p W).
    + intros p Hp. exact (lookup_write_other _ _ _ _ p W Hp).
  - destruct (fs_write fs output_file "") as [fs1|] eqn:W1.
    + destruct (scan_and_pack_returns fs root_path output_file fs1 W1) as (a & b & E).
      congruence.
    + unfold scan_and_pack in R. destruct (load_gitignore fs root_path) as [pats w].
      rewrite W1 in R. inversion R. repeat split.
Qed.

Lemma fs_write_fails_whatever (q : path) (a b : string) (fs : node) :
  fs_write fs q a = None -> fs_write fs q b = None.
Proof.
  intros N. destruct (fs_write fs q b) as [g|] eqn:W; [|reflexivity].
  destruct (lookup_write_same _ _ _ _ W) as [x Hx].
  destruct (fs_write_existing _ a _ _ _ Hx) as [g' Hg].
  rewrite (fs_write_twice _ _ _ _ _ W) in Hg. congruence.
Qed.

(** X3.  [scan_and_pack] writes the output file and nothing else.  When it
    returns, the file system is the one it found with the output file
    holding the text built; no path changes between directory and
    non-directory, and every path with another basename than the output
    file is as it was, name and content.  It raises exactly when the output
    file cannot be opened for writing; the exception is then the one of
    [open], and the file system is untouched. *)
Theorem scan_writes_only_the_output_file
    (fs : node) (root_path output_file : path) :
  match scan_and_pack fs root_path output_file with
  | Returned fs' st =>
      fs_write fs output_file (outfile st) = Some fs'
      /\ (exists x, fs_lookup fs' output_file = Some (File x (Readable (outfile st))))
      /\ (forall p, OsPath.isdir fs' p = OsPath.isdir fs p)
      /\ (forall p, OsPath.basename p <> OsPath.basename output_file ->
                    kind (fs_lookup fs' p) = kind (fs_lookup fs p))
  | Raised fs' printed e =>
      fs' = fs /\ e = open_error fs output_file
      /\ forall text, fs_write fs output_file text = None
  end.
Proof.
  pose proof (scan_and_pack_disk fs root_path output_file) as D.
  destruct (scan_and_pack fs root_path output_file) as [fs' st|fs' printed e].
  - destruct D as (W & I & K). split; [exact W|]. split; [|now split].
    exact (lookup_write_same _ _ _ _ W).
  - destruct D as (E & N & M). split; [exact E|]. split; [exact M|].
    intros text. exact (fs_write_fails_whatever _ _ text _ N).
Qed.

(** The file system [main] leaves is the one it found, or the one left by
    [scan_and_pack], or that one with the prompt file written. *)
Lemma main_disk (inv : invocation) (fs : node) :
  w_fs (main inv fs) = fs
  \/ (OsPath.isdir fs (target_path_of inv) = true
      /\ ((exists st, scan_and_pack fs (target_path_of inv) (output_path_of inv)
                      = Returned (w_fs (main inv fs)) st)
          \/ (exists fs' st,
                scan_and_pack fs (target_path_of inv) (output_path_of inv)
                = Returned fs' st
                /\ file_count st <> 0
                /\ fs_write fs' (OsPath.join (getcwd inv) "prompt.txt") USER_PROMPT
                   = Some (w_fs (main inv fs))
                /\ w_browser (main inv fs) = [GEMINI_URL]))).
Proof.
  unfold main. destruct (OsPath.isdir fs (target_path_of inv)); [|now left].
  cbn [negb].
  pose proof (scan_and_pack_disk fs (target_path_of inv) (output_path_of inv)) as D.
  destruct (scan_and_pack fs _ _) as [fs' st|fs' printed e].
  - right. split; [reflexivity|]. destruct (file_count st =? 0)%nat eqn:Z.
    + left. now exists st.
    + destruct (fs_write fs' _ USER_PROMPT) as [fs''|] eqn:W.
      * right. exists fs', st. apply Nat.eqb_neq in Z. now repeat split.
      * left. now exists st.
  - left. now destruct D.
Qed.

(** X4.  [main] writes at most two files, the output file and the prompt
    file, both in the working directory: no path changes between directory
    and non-directory, and every path whose basename is neither
    [codebase_context.md] nor [prompt.txt] is as it was, name and content,
    whatever the arguments and however the run ends. *)
Theorem main_writes_only_its_two_files (inv : invocation) (fs : node) :
  (forall p, OsPath.isdir (w_fs (main inv fs)) p = OsPath.isdir fs p)
  /\ (forall p,
        OsPath.basename p <> OUTPUT_FILENAME -> OsPath.basename p <> "prompt.txt" ->
        kind (fs_lookup (w_fs (main inv fs)) p) = kind (fs_lookup fs p)).
Proof.
  assert (B : OsPath.basename (output_path_of inv) = OUTPUT_FILENAME)
    by (unfold output_path_of, OsPath.join; apply basename_snoc).
  destruct (main_disk inv fs) as [E | [_ [[st R] | (fs' & st & R & _ & W & _)]]].
  - rewrite E. now split.
  - pose proof (scan_and_pack_disk fs (target_path_of inv) (output_path_of inv)) as D.
    rewrite R in D. destruct D as (_ & D1 & D2). split; [exact D1|].
    intros p H1 _. apply D2. now rewrite B.
  - pose proof (scan_and_pack_disk fs (target_path_of inv) (output_path_of inv)) as D.
    rewrite R in D. destruct D as (_ & D1 & D2). split.
    + intros p. now rewrite (isdir_write _ _ _ _ p W), D1.
    + intros p H1 H2. rewrite (lookup_write_other _ _ _ _ p W).
      * apply D2. now rewrite B.
      * unfold OsPath.join. fold (OsPath.basename p).
        change (OsPath.basename p <> OsPath.basename (getcwd inv ++ ["prompt.txt"])).
        now rewrite basename_snoc.
Qed.

Lemma scan_and_pack_raised_stdout (fs : node) (root_path output_file : path)
    (fs' : node) (printed : list string) (e : string) :
  scan_and_pack fs root_path output_file = Raised fs' printed e ->
  Forall (fun l => scan_line l = true) printed.
Proof.
  intros R. pose proof (scan_and_pack_disk fs root_path output_file) as D.
  rewrite R in D. destruct D as (_ & W & _).
  unfold scan_and_pack in R. pose proof (load_gitignore_warning fs root_path) as Hw.
  destruct (load_gitignore fs root_path) as [pats warning]. simpl in Hw.
  rewrite W in R. inversion R; subst. simpl. constructor; [reflexivity | exact Hw].
Qed.

(** X5.  A clipboard or a file manager that cannot be reached changes
    nothing to the run itself: the files written and the browser opened are
    the same on any host, only the clipboard and the file manager differ,
    and they are used exactly when the run reached its success message. *)
Theorem collaborators_do_not_change_the_run
    (inv : invocation) (fs : node) (ce ee : option string) :
  w_fs (main (with_collaborators inv ce ee) fs) = w_fs (main inv fs)
  /\ w_browser (main (with_collaborators inv ce ee) fs) = w_browser (main inv fs)
  /\ (In success_line (w_stdout (main (with_collaborators inv ce ee) fs))
      <-> In success_line (w_stdout (main inv fs)))
  /\ (In success_line (w_stdout (main inv fs)) ->
      w_clipboard (main (with_collaborators inv ce ee) fs)
      = match ce with None => Some USER_PROMPT | Some _ => None end
      /\ w_explorer (main (with_collaborators inv ce ee) fs)
         = match ee with None => [getcwd inv] | Some _ => [] end)
  /\ (~ In success_line (w_stdout (main inv fs)) ->
      w_explorer (main (with_collaborators inv ce ee) fs) = []).
Proof.
  unfold main, with_collaborators, target_path_of, output_path_of. cbn [getcwd args_path
    args_flag_path env_CONTEXT_ROOT clipboard_error explorer_error].
  set (target := match or_else _ _ with Some s => _ | None => _ end).
  destruct (negb (OsPath.isdir fs target)).
  { cbn [w_fs w_browser w_stdout w_clipboard w_explorer].
    split; [reflexivity|]. split; [reflexivity|]. split; [tauto|].
    split; [|reflexivity]. intros [E|[]]. discriminate E. }
  destruct (scan_and_pack fs target _) as [fs' st|fs' printed e] eqn:R.
  2:{ cbn [w_fs w_browser w_stdout w_clipboard w_explorer].
      split; [reflexivity|]. split; [reflexivity|]. split; [tauto|].
      split; [|reflexivity]. intros E. exfalso.
      apply in_app_or in E. destruct E as [E|[E|[]]]; [|discriminate E].
      revert E. apply not_a_scan_line; [reflexivity|].
      apply (scan_and_pack_raised_stdout _ _ _ _ _ _ R). }
  pose proof (scan_and_pack_stdout _ _ _ _ _ R) as Hs.
  assert (NS : ~ In success_line (stdout st)).
  { apply not_a_scan_line; [reflexivity | exact Hs]. }
  assert (NT : forall l : string, l <> success_line -> ~ In success_line (stdout st ++ [l])).
  { intros l Hl E. apply in_app_or in E. destruct E as [E|[E|[]]]; [tauto|congruence]. }
  destruct (file_count st =? 0)%nat.
  { cbn [w_fs w_browser w_stdout w_clipboard w_explorer].
    split; [reflexivity|]. split; [reflexivity|]. split; [tauto|].
    split; [|reflexivity]. intros E. exfalso. revert E. apply NT. discriminate. }
  destruct (fs_write fs' _ USER_PROMPT) as [fs''|];
    cbn [w_fs w_browser w_stdout w_clipboard w_explorer].
  - split; [reflexivity|]. split; [reflexivity|]. split.
    + split; intros _; apply in_or_app; right; apply in_or_app; left; right; now left.
    + split; [intros _; now split|].
      intros E. exfalso. apply E. apply in_or_app; right; apply in_or_app; left; right; now left.
  - split; [reflexivity|]. split; [reflexivity|]. split; [tauto|].
    split; [|reflexivity]. intros E. exfalso. revert E. apply NT. discriminate.
Qed.

(** ** Patterns without wildcards, and with one star *)

Lemma translate_plain (l : list ascii) :
  forallb plain_char l = true ->
  Fnmatch.translate_from 0 l = map Fnmatch.Lit l.
Proof.
  induction l as [|c l IH]; [reflexivity|]. cbn [forallb]. intros H.
  apply andb_prop in H. destruct H as [Hc Hl]. unfold plain_char in Hc.
  apply andb_prop in Hc. destruct Hc as [Hc H3]. apply andb_prop in Hc.
  destruct Hc as [H1 H2]. apply negb_true_iff in H1, H2, H3.
  cbn [Fnmatch.translate_from map]. rewrite H1, H2, H3. now rewrite IH.
Qed.

Lemma match_lits (l s : list ascii) :
  Fnmatch.match_items (map Fnmatch.Lit l) s = true <-> s = l.
Proof.
  revert s. induction l as [|c l IH]; intros [|a s]; cbn [map Fnmatch.match_items];
    try (split; [discriminate | discriminate]); [tauto|].
  cbn [Fnmatch.item_matches]. rewrite andb_true_iff, Ascii.eqb_eq, IH.
  split; [intros [-> ->]; reflexivity | intros H; inversion H; now split].
Qed.

Lemma match_star_lits (l s : list ascii) :
  Fnmatch.match_items (Fnmatch.Star :: map Fnmatch.Lit l) s = true
  <-> exists pre, s = pre ++ l.
Proof.
  induction s as [|a s IH]; rewrite match_items_star, orb_true_iff, match_lits.
  - split.
    + intros [<-|H]; [now exists [] | discriminate].
    + intros [pre H]. left. symmetry in H. apply app_eq_nil in H. now destruct H.
  - rewrite IH. split.
    + intros [<-|[pre ->]]; [now exists [] | now exists (a :: pre)].
    + intros [[|b pre] H]; [now left|]. right. inversion H. now exists pre.
Qed.

Lemma match_lits_star (l s : list ascii) :
  Fnmatch.match_items (map Fnmatch.Lit l ++ [Fnmatch.Star]) s = true
  <-> exists post, s = l ++ post.
Proof.
  revert s. induction l as [|c l IH]; intros s.
  - cbn [map app]. split; [intros _; now exists s|]. intros _.
    induction s as [|a s IHs]; rewrite match_items_star; [reflexivity|].
    rewrite IHs. apply orb_true_r.
  - destruct s as [|a s]; cbn [map app Fnmatch.match_items].
    + split; [discriminate | intros [post H]; discriminate H].
    + cbn [Fnmatch.item_matches]. rewrite andb_true_iff, Ascii.eqb_eq.
      rewrite IH. split.
      * intros [-> [post ->]]. now exists post.
      * intros [post H]. inversion H. split; [reflexivity | now exists post].
Qed.

Lemma list_ascii_inj (a b : string) :
  list_ascii_of_string a = list_ascii_of_string b -> a = b.
Proof.
  intros H. rewrite <- (string_of_list_ascii_of_string a),
    <- (string_of_list_ascii_of_string b). now rewrite H.
Qed.

Lemma endswith_spec (s suffix : string) :
  Str.endswith s suffix = true <-> exists pre, s = (pre ++ suffix)%string.
Proof.
  induction s as [|a s IH].
  - cbn [Str.endswith]. destruct (String.eqb "" suffix) eqn:E.
    + apply String.eqb_eq in E. split; [intros _; now exists ""|reflexivity].
    + split; [discriminate|]. intros [[|b pre] H]; [|discriminate H].
      simpl in H. subst. now rewrite String.eqb_refl in E.
  - rewrite endswith_cons. destruct (String.eqb (String a s) suffix) eqn:E.
    + apply String.eqb_eq in E. split; [intros _; now exists ""|reflexivity].
    + rewrite IH. split.
      * intros [pre ->]. now exists (String a pre).
      * intros [[|b pre] H].
        -- simpl in H. subst. now rewrite String.eqb_refl in E.
        -- inversion H. now exists pre.
Qed.

Lemma startswith_spec (s p : string) :
  Str.startswith s p = true <-> exists post, s = (p ++ post)%string.
Proof.
  revert s. induction p as [|a p IH]; intros s.
  - split; [intros _; now exists s | reflexivity].
  - destruct s as [|b s]; cbn [Str.startswith].
    + split; [discriminate | intros [post H]; discriminate H].
    + rewrite andb_true_iff, Ascii.eqb_eq, IH. split.
      * intros [-> [post ->]]. now exists post.
      * intros [post H]. inversion H. split; [reflexivity | now exists post].
Qed.

Lemma fnmatch_plain (name pattern : string) :
  plain pattern = true -> Fnmatch.fnmatch name pattern = String.eqb name pattern.
Proof.
  intros H. apply eq_true_iff_eq. unfold Fnmatch.fnmatch, Fnmatch.translate.
  rewrite (translate_plain _ H), match_lits, String.eqb_eq.
  split; [apply list_ascii_inj | now intros ->].
Qed.

Lemma fnmatch_star_plain (name suffix : string) :
  plain suffix = true ->
  Fnmatch.fnmatch name ("*" ++ suffix) = Str.endswith name suffix.
Proof.
  intros H. apply eq_true_iff_eq. unfold Fnmatch.fnmatch, Fnmatch.translate.
  cbn [append list_ascii_of_string Fnmatch.translate_from].
  change (Ascii.eqb "*" "*") with true. cbv iota.
  rewrite (translate_plain _ H), match_star_lits, endswith_spec. split.
  - intros [pre E]. exists (string_of_list_ascii pre). apply list_ascii_inj.
    now rewrite list_ascii_app, list_ascii_of_string_of_list_ascii.
  - intros [pre ->]. exists (list_ascii_of_string pre). apply list_ascii_app.
Qed.

Lemma translate_from_app_plain (l rest : list ascii) :
  forallb plain_char l = true ->
  Fnmatch.translate_from 0 (l ++ rest) = map Fnmatch.Lit l ++ Fnmatch.translate_from 0 rest.
Proof.
  induction l as [|c l IH]; [reflexivity|]. cbn [forallb]. intros H.
  apply andb_prop in H. destruct H as [Hc Hl]. unfold plain_char in Hc.
  apply andb_prop in Hc. destruct Hc as [Hc H3]. apply andb_prop in Hc.
  destruct Hc as [H1 H2]. apply negb_true_iff in H1, H2, H3.
  cbn [Fnmatch.translate_from map app]. rewrite H1, H2, H3. now rewrite IH.
Qed.

Lemma fnmatch_plain_star (name prefix : string) :
  plain prefix = true ->
  Fnmatch.fnmatch name (prefix ++ "*") = Str.startswith name prefix.
Proof.
  intros H. apply eq_true_iff_eq. unfold Fnmatch.fnmatch, Fnmatch.translate.
  rewrite list_ascii_app, (translate_from_app_plain _ _ H).
  change (Fnmatch.translate_from 0 (list_ascii_of_string "*")) with [Fnmatch.Star].
  rewrite match_lits_star, startswith_spec. split.
  - intros [post E]. exists (string_of_list_ascii post). apply list_ascii_inj.
    now rewrite list_ascii_app, list_ascii_of_string_of_list_ascii.
  - intros [post ->]. exists (list_ascii_of_string post). apply list_ascii_app.
Qed.

(** X6.  The two wildcard entries of the default list are suffix tests:
    whatever [.gitignore] says, an entry is ignored by the defaults exactly
    when its name is one of the default names or ends in [.log] or in
    [.audit.json]; so a file called [.log] or [x.audit.json] is left out,
    at any depth. *)
Theorem default_wildcards_are_suffix_tests
    (fs : node) (p root_path : path) (pats : list string) :
  default_wildcard (OsPath.basename p)
  = Str.endswith (OsPath.basename p) ".log"
    || Str.endswith (OsPath.basename p) ".audit.json"
  /\ is_ignored fs p root_path []
     = Str.mem (OsPath.basename p) DEFAULT_IGNORE_DIRS
       || Str.endswith (OsPath.basename p) ".log"
       || Str.endswith (OsPath.basename p) ".audit.json"
  /\ (Str.endswith (OsPath.basename p) ".log"
      || Str.endswith (OsPath.basename p) ".audit.json" = true ->
      is_ignored fs p root_path pats = true).
Proof.
  assert (W : forall name, default_wildcard name
                = Str.endswith name ".log" || Str.endswith name ".audit.json").
  { intros name. unfold default_wildcard, DEFAULT_IGNORE_DIRS. cbn [existsb].
    change (Fnmatch.fnmatch name "*.log")
      with (Fnmatch.fnmatch name ("*" ++ ".log")).
    change (Fnmatch.fnmatch name "*.audit.json")
      with (Fnmatch.fnmatch name ("*" ++ ".audit.json")).
    rewrite (fnmatch_star_plain name ".log" eq_refl).
    rewrite (fnmatch_star_plain name ".audit.json" eq_refl).
    cbn [Str.contains]. cbv [Ascii.eqb Bool.eqb]. cbn [orb andb].
    now rewrite orb_false_r. }
  split; [apply W|]. split.
  - rewrite is_ignored_stages, W. cbn [existsb]. unfold default_exact.
    now rewrite orb_false_r, orb_assoc.
  - intros H. rewrite is_ignored_stages, W, H. now rewrite orb_true_r.
Qed.

(** X7.  A [.gitignore] line without [*], [?] and [[] is compared as it
    stands: it excludes an entry exactly when it equals the entry's path
    relative to the root or the entry's name (so a bare name excludes the
    entries of that name at every depth), or, when it ends in a slash and
    the entry is a directory, when it equals one of the two followed by a
    slash. *)
Theorem plain_pattern_is_compared_literally
    (fs : node) (p root_path : path) (pattern : string)
    (Hplain : plain pattern = true) :
  pattern_hits fs p root_path pattern
  = (Str.endswith pattern "/" && OsPath.isdir fs p
     && (String.eqb (OsPath.relpath p root_path ++ "/") pattern
         || String.eqb (OsPath.basename p ++ "/") pattern))
    || (String.eqb (OsPath.relpath p root_path) pattern
        || String.eqb (OsPath.basename p) pattern).
Proof.
  unfold pattern_hits. now rewrite !(fnmatch_plain _ _ Hplain).
Qed.

Lemma plain_pattern_witness :
  plain "secret.txt" = true
  /\ pattern_hits demo_fs ["proj"; "secret.txt"] ["proj"] "secret.txt" = true.
Proof.
  split; [reflexivity|].
  rewrite (plain_pattern_is_compared_literally demo_fs ["proj"; "secret.txt"]
             ["proj"] "secret.txt" eq_refl).
  reflexivity.
Defined.

(** ** Patterns that begin with a slash *)

Lemma fnmatch_slash_head (name rest : string) :
  Fnmatch.fnmatch name ("/" ++ rest) = true -> Str.startswith name "/" = true.
Proof.
  unfold Fnmatch.fnmatch, Fnmatch.translate.
  cbn [append list_ascii_of_string Fnmatch.translate_from].
  change (Ascii.eqb "/" "*") with false. change (Ascii.eqb "/" "?") with false.
  change (Ascii.eqb "/" "[") with false. cbv iota.
  destruct name as [|c name]; cbn [list_ascii_of_string Fnmatch.match_items];
    [discriminate|].
  cbn [Fnmatch.item_matches Str.startswith]. intros H. apply andb_prop in H.
  now rewrite (proj1 H).
Qed.

Lemma valid_name_head (x suffix : string) :
  valid_name x = true -> Str.startswith (x ++ suffix) "/" = false.
Proof.
  unfold valid_name. destruct x as [|c x]; [discriminate|]. intros H.
  apply andb_prop in H. destruct H as [_ H]. apply negb_true_iff in H.
  cbn [Str.contains] in H. apply orb_false_iff in H. destruct H as [H _].
  cbn [append Str.startswith]. rewrite Ascii.eqb_sym, H. reflexivity.
Qed.

Lemma join_head (sep x : string) (rest : list string) :
  exists t, Str.join sep (x :: rest) = (x ++ t)%string.
Proof.
  destruct rest as [|y rest]; cbn [Str.join].
  - exists "". clear. induction x as [|c x IH]; simpl; [reflexivity | now rewrite <- IH].
  - now exists (sep ++ Str.join sep (y :: rest))%string.
Qed.

Lemma forallb_skipn {A} (f : A -> bool) (n : nat) (l : list A) :
  forallb f l = true -> forallb f (skipn n l) = true.
Proof.
  revert l. induction n as [|n IH]; intros [|a l]; simpl; auto.
  intros H. apply andb_prop in H. now apply IH.
Qed.

Lemma relpath_head (p root_path : path) (suffix : string) :
  forallb valid_name p = true ->
  Str.startswith (OsPath.relpath p root_path ++ suffix) "/" = false.
Proof.
  intros Hp. unfold OsPath.relpath.
  set (i := length (OsPath.commonprefix root_path p)).
  pose proof (forallb_skipn valid_name i p Hp) as Hs.
  destruct (length root_path - i) as [|k]; cbn [repeat app].
  - destruct (skipn i p) as [|x rest]; [reflexivity|].
    destruct (join_head OsPath.sep x rest) as [t ->]. rewrite append_assoc.
    apply valid_name_head. cbn [forallb] in Hs. apply andb_prop in Hs. apply Hs.
  - destruct (join_head OsPath.sep ".." (repeat ".." k ++ skipn i p)) as [t ->].
    reflexivity.
Qed.

Lemma basename_head (p : path) (suffix : string) :
  forallb valid_name p = true -> p <> [] ->
  Str.startswith (OsPath.basename p ++ suffix) "/" = false.
Proof.
  intros Hp Hne. apply valid_name_head. unfold OsPath.basename.
  rewrite forallb_forall in Hp. apply Hp. clear Hp.
  induction p as [|x p IH]; [contradiction|]. destruct p as [|y p]; [now left|].
  right. apply IH. discriminate.
Qed.

(** X8.  A pattern that begins with a slash, the way [.gitignore] anchors
    a pattern at the root, never excludes anything: neither the path
    relative to the root nor the name of an entry begins with a slash. *)
Theorem anchored_pattern_never_hits
    (fs : node) (p root_path : path) (rest : string)
    (Hvalid : forallb valid_name p = true) (Hne : p <> []) :
  pattern_hits fs p root_path ("/" ++ rest) = false.
Proof.
  assert (F : forall name, Str.startswith name "/" = false ->
                           Fnmatch.fnmatch name ("/" ++ rest) = false).
  { intros name H. destruct (Fnmatch.fnmatch name ("/" ++ rest)) eqn:E;
      [|reflexivity]. apply fnmatch_slash_head in E. congruence. }
  pose proof (relpath_head p root_path "" Hvalid) as R0.
  pose proof (basename_head p "" Hvalid Hne) as B0.
  assert (A : forall s : string, (s ++ "")%string = s)
    by (induction s as [|c s IH]; simpl; [reflexivity | now rewrite IH]).
  rewrite A in R0, B0.
  unfold pattern_hits.
  rewrite (F _ (relpath_head p root_path "/" Hvalid)).
  rewrite (F _ (basename_head p "/" Hvalid Hne)).
  rewrite (F _ R0), (F _ B0). cbn [orb]. now rewrite andb_false_r.
Qed.

Lemma anchored_pattern_witness :
  forallb valid_name ["proj"; "src"] = true
  /\ ["proj"; "src"] <> []
  /\ OsPath.isdir demo_fs ["proj"; "src"] = true
  /\ pattern_hits demo_fs ["proj"; "src"] ["proj"] "/src" = false
  /\ pattern_hits demo_fs ["proj"; "src"] ["proj"] "/src/" = false
  /\ pattern_hits demo_fs ["proj"; "src"] ["proj"] "src/" = true.
Proof.
  split; [reflexivity|]. split; [discriminate|]. split; [reflexivity|].
  split; [|split].
  - apply (anchored_pattern_never_hits demo_fs ["proj"; "src"] ["proj"] "src");
      [reflexivity | discriminate].
  - apply (anchored_pattern_never_hits demo_fs ["proj"; "src"] ["proj"] "src/");
      [reflexivity | discriminate].
  - reflexivity.
Defined.

(** ** What load_gitignore keeps *)

Lemma rstrip_idempotent (s : string) : Str.rstrip (Str.rstrip s) = Str.rstrip s.
Proof.
  induction s as [|c s IH]; [reflexivity|]. cbn [Str.rstrip].
  destruct (Str.rstrip s) as [|d r] eqn:E.
  - destruct (Str.is_space c) eqn:Hc; [reflexivity|]. cbn [Str.rstrip]. now rewrite Hc.
  - cbn [Str.rstrip]. cbn [Str.rstrip] in IH. now rewrite IH.
Qed.

Lemma rstrip_head (c : ascii) (s : string) :
  Str.is_space c = false -> exists r, Str.rstrip (String c s) = String c r.
Proof.
  intros Hc. cbn [Str.rstrip]. destruct (Str.rstrip s) as [|d r].
  - rewrite Hc. now exists "".
  - now exists (String d r).
Qed.

Lemma lstrip_head (s : string) :
  Str.lstrip s = "" \/ exists c t, Str.lstrip s = String c t /\ Str.is_space c = false.
Proof.
  induction s as [|c s IH]; [now left|]. cbn [Str.lstrip].
  destruct (Str.is_space c) eqn:Hc; [exact IH|]. right. now exists c, s.
Qed.

Lemma strip_idempotent (s : string) : Str.strip (Str.strip s) = Str.strip s.
Proof.
  unfold Str.strip. destruct (lstrip_head s) as [E | (c & t & E & Hc)]; rewrite E.
  - reflexivity.
  - destruct (rstrip_head c t Hc) as [r Hr]. rewrite Hr at 1.
    cbn [Str.lstrip]. rewrite Hc, <- Hr. apply rstrip_idempotent.
Qed.

(** X9.  Every pattern [load_gitignore] returns is a line of the file with
    the blanks at its ends removed; none is empty and none begins with the
    comment sign.  At most one warning is printed, and none when the file
    can be read to its end.  When the read fails the patterns of the lines
    handed over before the failure are returned along with the warning; a
    failure of [open] itself gives no pattern. *)
Theorem loaded_patterns_are_stripped_lines (fs : node) (root_path : path) :
  Forall (fun pattern =>
            pattern <> ""
            /\ Str.startswith pattern "#" = false
            /\ Str.strip pattern = pattern)
         (fst (load_gitignore fs root_path))
  /\ length (snd (load_gitignore fs root_path)) <= 1
  /\ (forall x text,
        fs_lookup fs (OsPath.join root_path ".gitignore") = Some (File x (Readable text)) ->
        load_gitignore fs root_path = (patterns_of text, []))
  /\ (forall x e,
        fs_lookup fs (OsPath.join root_path ".gitignore") = Some (File x (Unreadable e)) ->
        load_gitignore fs root_path
        = (patterns_of (delivered e),
           ["Warning: Could not read .gitignore: " ++ message e]%string)
        /\ (delivered e = "" -> fst (load_gitignore fs root_path) = [])).
Proof.
  assert (P : forall text,
            Forall (fun pattern =>
                      pattern <> ""
                      /\ Str.startswith pattern "#" = false
                      /\ Str.strip pattern = pattern)
                   (patterns_of text)).
  { intros text. rewrite Forall_forall. intros pattern H. apply filter_In in H.
    destruct H as [H K]. apply in_map_iff in H. destruct H as (line & <- & _).
    apply andb_prop in K. destruct K as [K1 K2]. apply negb_true_iff in K1, K2.
    split; [|split].
    - intros E. rewrite E in K1. discriminate K1.
    - exact K2.
    - apply strip_idempotent. }
  unfold load_gitignore.
  destruct (fs_lookup fs _) as [[x [text|e]|x es]|]; cbn [fst snd length].
  - split; [apply P|]. split; [lia|]. split.
    + intros y t H. now inversion H.
    + intros y e H. discriminate H.
  - split; [apply P|]. split; [lia|]. split.
    + intros y t H. discriminate H.
    + intros y e' H. inversion H; subst. split; [reflexivity|].
      intros D. now rewrite D.
  - split; [constructor|]. split; [lia|]. split; intros y t H; discriminate H.
  - split; [constructor|]. split; [lia|]. split; intros y t H; discriminate H.
Qed.

Example load_gitignore_torn :
  load_gitignore torn_fs ["proj"]
  = (["gen/"], ["Warning: Could not read .gitignore: [Errno 5] Input/output error"])
  /\ is_ignored torn_fs ["proj"; "gen"] ["proj"] (fst (load_gitignore torn_fs ["proj"]))
     = true.
Proof. split; reflexivity. Qed.

Lemma append_empty (s : string) : (s ++ "")%string = s.
Proof. induction s as [|c s IH]; simpl; [reflexivity | now rewrite IH]. Qed.

Lemma lines_aux_app (p : string) :
  Str.contains (ascii_of_nat 10) p = false ->
  Str.contains (ascii_of_nat 13) p = false ->
  forall cur s, Str.lines_aux cur (p ++ s) = Str.lines_aux (cur ++ p) s.
Proof.
  induction p as [|c p IH]; intros H10 H13 cur s.
  - now rewrite append_empty.
  - cbn [Str.contains] in H10, H13. apply orb_false_iff in H10, H13.
    destruct H10 as [C10 H10], H13 as [C13 H13].
    cbn [append Str.lines_aux].
    assert (N10 : (nat_of_ascii c =? 10)%nat = false).
    { apply Nat.eqb_neq. intros E. apply Ascii.eqb_neq in C10. apply C10.
      now rewrite <- E, ascii_nat_embedding. }
    assert (N13 : (nat_of_ascii c =? 13)%nat = false).
    { apply Nat.eqb_neq. intros E. apply Ascii.eqb_neq in C13. apply C13.
      now rewrite <- E, ascii_nat_embedding. }
    rewrite N10, N13. cbn [orb]. rewrite (IH H10 H13).
    now rewrite append_assoc.
Qed.

Lemma clean_pattern_spec (pattern : string) :
  clean_pattern pattern = true ->
  pattern <> "" /\ Str.startswith pattern "#" = false /\ Str.strip pattern = pattern
  /\ Str.contains (ascii_of_nat 10) pattern = false
  /\ Str.contains (ascii_of_nat 13) pattern = false.
Proof.
  unfold clean_pattern. intros H.
  apply andb_prop in H. destruct H as [H H5]. apply andb_prop in H.
  destruct H as [H H4]. apply andb_prop in H. destruct H as [H H3].
  apply andb_prop in H. destruct H as [H1 H2].
  apply negb_true_iff in H1, H2, H4, H5. apply String.eqb_eq in H3.
  repeat split; try assumption. intros E. rewrite E in H1. discriminate H1.
Qed.

Lemma lines_join (pats : list string) :
  forallb clean_pattern pats = true ->
  Str.lines (Str.join Str.nl pats) = pats.
Proof.
  unfold Str.lines. induction pats as [|p pats IH]; [reflexivity|].
  cbn [forallb]. intros H. apply andb_prop in H. destruct H as [Hp Hr].
  destruct (clean_pattern_spec p Hp) as (Hne & _ & _ & H10 & H13).
  destruct pats as [|q pats].
  - cbn [Str.join]. rewrite <- (append_empty p) at 1.
    rewrite (lines_aux_app p H10 H13). cbn [append Str.lines_aux].
    destruct p; [contradiction|reflexivity].
  - change (Str.join Str.nl (p :: q :: pats))
      with (p ++ Str.nl ++ Str.join Str.nl (q :: pats))%string.
    rewrite (lines_aux_app p H10 H13). cbn [append]. unfold Str.nl at 1.
    cbn [append Str.lines_aux]. change (nat_of_ascii (ascii_of_nat 10) =? 10)%nat with true.
    cbn [orb]. now rewrite (IH Hr).
Qed.

(** X10.  A [.gitignore] made of patterns, one on each line, gives back
    these patterns, in their order and with nothing printed, when each of
    them is what a line can yield: not empty, not a comment, without blanks
    at its ends and without a line break. *)
Theorem load_gitignore_round_trip
    (fs : node) (root_path : path) (x : string) (pats : list string)
    (Hfile : fs_lookup fs (OsPath.join root_path ".gitignore")
             = Some (File x (Readable (Str.join Str.nl pats))))
    (Hclean : forallb clean_pattern pats = true) :
  load_gitignore fs root_path = (pats, []).
Proof.
  unfold load_gitignore. rewrite Hfile. unfold patterns_of. f_equal.
  rewrite (lines_join pats Hclean).
  clear Hfile. induction pats as [|p pats IH]; [reflexivity|].
  cbn [forallb] in Hclean. apply andb_prop in Hclean. destruct Hclean as [Hp Hr].
  destruct (clean_pattern_spec p Hp) as (Hne & Hc & Hs & _).
  cbn [map filter]. rewrite Hs, Hc.
  destruct (String.eqb p "") eqn:E; [apply String.eqb_eq in E; contradiction|].
  cbn [negb andb]. now rewrite (IH Hr).
Qed.

Lemma load_gitignore_round_trip_witness :
  fs_lookup tidy_fs (OsPath.join ["proj"] ".gitignore")
  = Some (File ".gitignore" (Readable (Str.join Str.nl tidy_patterns)))
  /\ forallb clean_pattern tidy_patterns = true
  /\ load_gitignore tidy_fs ["proj"] = (tidy_patterns, []).
Proof.
  split; [reflexivity|]. split; [reflexivity|].
  apply (load_gitignore_round_trip tidy_fs ["proj"] ".gitignore" tidy_patterns);
    reflexivity.
Defined.

(** ** The log and the headings of a run *)

Lemma commonprefix_app (root_path rel : path) :
  OsPath.commonprefix root_path (root_path ++ rel) = root_path.
Proof.
  induction root_path as [|x r IH]; [now destruct rel|].
  cbn [app OsPath.commonprefix]. now rewrite String.eqb_refl, IH.
Qed.

Lemma skipn_app_exact {A} (l r : list A) : skipn (length l) (l ++ r) = r.
Proof. induction l as [|a l IH]; [reflexivity | exact IH]. Qed.

Lemma relpath_below (root_path rel : path) :
  rel <> [] -> OsPath.relpath (root_path ++ rel) root_path = Str.join "/" rel.
Proof.
  intros Hne. unfold OsPath.relpath. rewrite commonprefix_app, Nat.sub_diag.
  cbn [repeat app]. rewrite skipn_app_exact. destruct rel; [contradiction|reflexivity].
Qed.

Section LogFacts.
Variable fs : node.
Variable root_path : path.
Variable pats : list string.

Lemma continues_refl (st : pack_state) : continues fs root_path st st.
Proof. exists []. cbn [map flat_map]. now rewrite !app_nil_r. Qed.

Lemma pack_file_continues (dirpath : path) (st0 st : pack_state) (filename : string) :
  continues fs root_path st0 st ->
  continues fs root_path st0 (pack_file fs root_path pats dirpath st filename).
Proof.
  intros (new & Ho & Hs & Hp).
  destruct (pack_file_cases fs root_path pats dirpath st filename)
    as [[-> _] | (_ & _ & _ & [[content [R ->]] | [e [R ->]]])].
  - now exists new.
  - exists (new ++ [OsPath.join dirpath filename]).
    cbn [opened stdout packed]. rewrite Ho, Hs, Hp, map_app, flat_map_app, !app_assoc.
    cbn [map flat_map]. unfold log_line, packed_entry. rewrite R.
    now rewrite app_nil_r.
  - exists (new ++ [OsPath.join dirpath filename]).
    cbn [opened stdout packed]. rewrite Ho, Hs, Hp, map_app, flat_map_app, !app_assoc.
    cbn [map flat_map]. unfold log_line, packed_entry, skip_line. rewrite R.
    now rewrite !app_nil_r.
Qed.

Lemma walk_loop_continues (st : pack_state) :
  continues fs root_path st (walk_loop fs root_path pats st).
Proof.
  unfold walk_loop. destruct (fs_lookup fs root_path) as [top|]; [|apply continues_refl].
  apply fold_left_invariant; [apply continues_refl|].
  intros a [[dirpath dirnames] filenames] _ Ha.
  apply fold_left_invariant; [exact Ha|].
  intros a' f _ Ha'. now apply pack_file_continues.
Qed.
End LogFacts.

Lemma packed_entry_count (fs : node) (l : list path) :
  length (flat_map (packed_entry fs) l) = length (filter (is_readable fs) l).
Proof.
  induction l as [|p l IH]; [reflexivity|]. cbn [flat_map filter].
  rewrite length_app, IH. unfold packed_entry, is_readable.
  now destruct (read_file fs p).
Qed.

(** X11.  The log of a run that returns is the announcement, the warning
    about [.gitignore] if there is one, and then one line for each file
    handed to [open], in the order of opening: [Packed] with the relative
    path when it could be read, [Skipped] with the error otherwise.  The
    entries written are those of the files that could be read, in the same
    order, and the count returned is their number. *)
Theorem log_has_one_line_for_each_file_opened
    (fs : node) (root_path output_file : path) (fs' : node) (st : pack_state)
    (Hrun : scan_and_pack fs root_path output_file = Returned fs' st) :
  exists fs1,
    fs_write fs output_file "" = Some fs1
    /\ stdout st
       = scanning_line root_path :: snd (load_gitignore fs root_path)
         ++ map (log_line fs1 root_path) (opened st)
    /\ packed st = flat_map (packed_entry fs1) (opened st)
    /\ file_count st = length (filter (is_readable fs1) (opened st)).
Proof.
  destruct (scan_and_pack_consistent _ _ _ _ _ Hrun) as (fs1' & W' & C).
  revert Hrun. unfold scan_and_pack.
  destruct (load_gitignore fs root_path) as [pats warning]. cbn [fst snd] in *.
  destruct (fs_write fs output_file "") as [fs1|]; [|discriminate].
  match goal with |- context [walk_loop fs1 root_path pats ?s] => set (st0 := s) end.
  destruct (fs_write fs1 output_file _) as [fs2|]; [|discriminate].
  intros H. inversion H; subst. exists fs1. split; [reflexivity|].
  destruct (walk_loop_continues fs1 root_path pats st0) as (new & Ho & Hs & Hp).
  cbn [opened stdout packed st0 app] in Ho, Hs, Hp.
  rewrite Ho. split; [exact Hs|]. split; [exact Hp|].
  inversion W'; subst fs1'. destruct C as (C1 & _).
  rewrite C1, Hp. apply packed_entry_count.
Qed.

Lemma log_witness :
  scan_and_pack demo_fs ["proj"] ["proj"; OUTPUT_FILENAME] = Returned demo_after demo_state
  /\ exists fs1,
       fs_write demo_fs ["proj"; OUTPUT_FILENAME] "" = Some fs1
       /\ stdout demo_state
          = scanning_line ["proj"] :: snd (load_gitignore demo_fs ["proj"])
            ++ map (log_line fs1 ["proj"]) (opened demo_state)
       /\ packed demo_state = flat_map (packed_entry fs1) (opened demo_state)
       /\ file_count demo_state = length (filter (is_readable fs1) (opened demo_state)).
Proof.
  split; [exact demo_run_returned|].
  exact (log_has_one_line_for_each_file_opened demo_fs ["proj"] ["proj"; OUTPUT_FILENAME]
           demo_after demo_state demo_run_returned).
Defined.

(** X12.  Files are named relative to the root, in the headings of the
    output file and in the log: every path handed to [open] lies below the
    root, and the name used for it is made of its components below the
    root, joined by slashes; it never climbs out of the root. *)
Theorem files_are_named_relative_to_the_root
    (fs : node) (root_path output_file : path) (fs' : node) (st : pack_state)
    (Hrun : scan_and_pack fs root_path output_file = Returned fs' st) :
  Forall (fun p => exists rel,
                     rel <> [] /\ p = root_path ++ rel
                     /\ OsPath.relpath p root_path = Str.join "/" rel)
         (opened st)
  /\ Forall (fun e => exists rel,
                     rel <> [] /\ fst e = root_path ++ rel
                     /\ section_text (OsPath.relpath (fst e) root_path) (snd e)
                        = section_text (Str.join "/" rel) (snd e))
            (packed st).
Proof.
  assert (O : forall p, In p (opened st) ->
                exists rel, rel <> [] /\ p = root_path ++ rel
                            /\ OsPath.relpath p root_path = Str.join "/" rel).
  { intros p Hp.
    destruct (scan_and_pack_opened_admitted _ _ _ _ _ Hrun p Hp)
      as (comps & filename & -> & _).
    exists (comps ++ [filename]). split; [now destruct comps|]. split; [reflexivity|].
    apply relpath_below. now destruct comps. }
  split; [now apply Forall_forall|].
  destruct (scan_and_pack_consistent _ _ _ _ _ Hrun) as (fs1 & _ & C).
  destruct C as (_ & _ & _ & C4 & _). rewrite Forall_forall in *.
  intros e He. cbv beta. destruct (C4 e He) as [Ho _].
  destruct (O _ Ho) as (rel & H1 & H2 & H3).
  exists rel. split; [exact H1|]. split; [exact H2|].
  exact (f_equal (fun r => section_text r (snd e)) H3).
Qed.

Lemma relative_names_witness :
  scan_and_pack demo_fs ["proj"] ["proj"; OUTPUT_FILENAME] = Returned demo_after demo_state
  /\ In ["proj"; "src"; "main.c"] (opened demo_state)
  /\ OsPath.relpath ["proj"; "src"; "main.c"] ["proj"] = "src/main.c"
  /\ Forall (fun p => exists rel,
                        rel <> [] /\ p = ["proj"] ++ rel
                        /\ OsPath.relpath p ["proj"] = Str.join "/" rel)
            (opened demo_state).
Proof.
  split; [exact demo_run_returned|]. split; [vm_compute; tauto|]. split; [reflexivity|].
  exact (proj1 (files_are_named_relative_to_the_root demo_fs ["proj"]
                  ["proj"; OUTPUT_FILENAME] demo_after demo_state demo_run_returned)).
Defined.

Lemma length_append (a b : string) :
  String.length (a ++ b) = String.length a + String.length b.
Proof. induction a as [|c a IH]; simpl; [reflexivity | now rewrite IH]. Qed.

Lemma section_text_length (rel_path content : string) :
  String.length (section_text rel_path content)
  = 23 + String.length rel_path + String.length content.
Proof.
  unfold section_text. rewrite !length_append. unfold Str.nl.
  cbn [String.length]. lia.
Qed.

Lemma sections_length (root_path : path) (l : list (path * string)) :
  String.length
    (Str.concat (map (fun e => section_text (OsPath.relpath (fst e) root_path) (snd e)) l))
  = list_sum (map (fun e => String.length (snd e)) l)
    + list_sum (map (fun e => 23 + String.length (OsPath.relpath (fst e) root_path)) l).
Proof.
  induction l as [|e l IH]; [reflexivity|].
  cbn [map list_sum]. unfold Str.concat in *. cbn [fold_right].
  rewrite length_append, section_text_length, IH. unfold list_sum. cbn [fold_right]. lia.
Qed.

(** X13.  The size a run reports counts the characters of the files
    packed and nothing else, so that it is smaller than the output file:
    the output file is longer by the preamble and, for every file packed,
    by the twenty-three characters of the frame around it and by the
    relative path in its heading. *)
Theorem reported_size_leaves_out_the_framing
    (fs : node) (root_path output_file : path) (fs' : node) (st : pack_state)
    (Hrun : scan_and_pack fs root_path output_file = Returned fs' st) :
  (exists x, fs_lookup fs' output_file = Some (File x (Readable (outfile st))))
  /\ String.length (outfile st)
     = String.length META_PROMPT + total_size st
       + list_sum (map (fun e => 23 + String.length (OsPath.relpath (fst e) root_path))
                       (packed st))
  /\ total_size st + 23 * file_count st < String.length (outfile st).
Proof.
  destruct (scan_and_pack_returned _ _ _ _ _ Hrun) as (fs1 & pr & _ & _ & W2).
  split; [exact (lookup_write_same _ _ _ _ W2)|].
  destruct (scan_and_pack_consistent _ _ _ _ _ Hrun) as (fs1' & _ & C).
  destruct C as (C1 & C2 & C3 & _).
  assert (L : String.length (outfile st)
     = String.length META_PROMPT + total_size st
       + list_sum (map (fun e => 23 + String.length (OsPath.relpath (fst e) root_path))
                       (packed st))).
  { rewrite C3, C2, length_append, sections_length. lia. }
  split; [exact L|]. rewrite L, C1.
  assert (P : 0 < String.length META_PROMPT) by (vm_compute; lia).
  assert (23 * length (packed st)
          <= list_sum (map (fun e => 23 + String.length (OsPath.relpath (fst e) root_path))
                           (packed st))).
  { clear. unfold list_sum.
    induction (packed st) as [|e l IH]; cbn [map fold_right length]; lia. }
  lia.
Qed.

Lemma reported_size_witness :
  scan_and_pack demo_fs ["proj"] ["proj"; OUTPUT_FILENAME] = Returned demo_after demo_state
  /\ total_size demo_state + 23 * file_count demo_state < String.length (outfile demo_state).
Proof.
  split; [exact demo_run_returned|].
  exact (proj2 (proj2 (reported_size_leaves_out_the_framing demo_fs ["proj"]
                         ["proj"; OUTPUT_FILENAME] demo_after demo_state
                         demo_run_returned))).
Defined.

(** ** Running again *)

Lemma update_entry_same (c : string) (f : node -> option node) (dflt : option node)
    (es : list node) (e : node) :
  find_entry c es = Some e -> f e = Some e -> update_entry c f dflt es = Some es.
Proof.
  induction es as [|a es IH]; [discriminate|]. cbn [find_entry update_entry].
  destruct (String.eqb (node_name a) c).
  - intros H Hf. inversion H; subst. now rewrite Hf.
  - intros H Hf. now rewrite (IH H Hf).
Qed.

Lemma fs_write_same (p : path) (text : string) :
  forall fs x, fs_lookup fs p = Some (File x (Readable text)) ->
               fs_write fs p text = Some fs.
Proof.
  induction p as [|c p IH]; intros fs x H.
  - cbn [fs_lookup] in H. inversion H. reflexivity.
  - destruct fs as [y r|y es]; [discriminate|]. cbn [fs_lookup] in H.
    destruct (find_entry c es) as [e|] eqn:E; [|discriminate].
    cbn [fs_write]. now rewrite (update_entry_same c _ _ es e E (IH e x H)).
Qed.


Lemma main_write (inv : invocation) (fs fs2 : node) (text : string) :
  OsPath.isdir fs (target_path_of inv) = true ->
  fs_write fs (output_path_of inv) text = Some fs2 -> main inv fs2 = main inv fs.
Proof.
  intros I W. unfold main.
  rewrite (isdir_write _ _ _ _ (target_path_of inv) W), I. cbn [negb].
  unfold output_path_of in *. rewrite (scan_and_pack_write _ _ _ _ _ W).
  pose proof (scan_and_pack_disk fs (target_path_of inv)
                (OsPath.join (getcwd inv) OUTPUT_FILENAME)) as D.
  destruct (scan_and_pack fs _ _) as [fs' st|fs' printed e]; [reflexivity|].
  destruct D as (_ & N & _).
  rewrite (fs_write_fails_whatever _ _ text _ N) in W. discriminate W.
Qed.

Lemma main_again (inv : invocation) (fs : node) :
  (OsPath.isdir fs (target_path_of inv) = true /\ exists fs' st,
     scan_and_pack fs (target_path_of inv) (output_path_of inv) = Returned fs' st
     /\ fs_write fs' (OsPath.join (getcwd inv) "prompt.txt") USER_PROMPT
        = Some (w_fs (main inv fs))
     /\ w_browser (main inv fs) = [GEMINI_URL])
  \/ main inv (w_fs (main inv fs)) = main inv fs.
Proof.
  destruct (main_disk inv fs) as [E | [I [[st R] | (fs' & st & R & _ & W & B)]]].
  - right. now rewrite E.
  - right. pose proof (scan_and_pack_disk fs (target_path_of inv) (output_path_of inv)) as D.
    rewrite R in D. destruct D as (W & _). exact (main_write inv _ _ _ I W).
  - left. split; [exact I|]. now exists fs', st.
Qed.

Lemma main_prompt_kept (inv : invocation) (fs : node) (x : string) :
  fs_lookup fs (OsPath.join (getcwd inv) "prompt.txt")
  = Some (File x (Readable USER_PROMPT)) ->
  main inv (w_fs (main inv fs)) = main inv fs.
Proof.
  intros P. destruct (main_again inv fs) as [(I & fs' & st & R & W & _) | E]; [|exact E].
  pose proof (scan_and_pack_disk fs (target_path_of inv) (output_path_of inv)) as D.
  rewrite R in D. destruct D as (Wo & _ & K).
  assert (P' : fs_lookup fs' (OsPath.join (getcwd inv) "prompt.txt")
               = Some (File x (Readable USER_PROMPT))).
  { apply kind_file. rewrite K; [now rewrite P|].
    unfold output_path_of, OsPath.join. rewrite !basename_snoc. discriminate. }
  rewrite (fs_write_same _ _ _ _ P') in W. inversion W as [E]. rewrite <- E.
  exact (main_write inv _ _ _ I Wo).
Qed.

(** X14.  Running again changes nothing any more.  What [main] prints and
    leaves, once the target is a directory, does not depend on what the
    output file held before; a run that
    did not reach the browser, run again on the file system it left, prints
    and leaves the same; so does a run started where the prompt file is
    already in place; and in every case the third run in a row is the
    second one over again: same lines printed, same files left. *)
Theorem third_run_repeats_the_second (inv : invocation) (fs : node) :
  (forall text fs2,
     OsPath.isdir fs (target_path_of inv) = true ->
     fs_write fs (output_path_of inv) text = Some fs2 -> main inv fs2 = main inv fs)
  /\ (w_browser (main inv fs) = [] -> main inv (w_fs (main inv fs)) = main inv fs)
  /\ (forall x, fs_lookup fs (OsPath.join (getcwd inv) "prompt.txt")
                = Some (File x (Readable USER_PROMPT)) ->
                main inv (w_fs (main inv fs)) = main inv fs)
  /\ main inv (w_fs (main inv (w_fs (main inv fs)))) = main inv (w_fs (main inv fs)).
Proof.
  split; [intros text fs2; apply main_write|]. split; [|split].
  - intros B. destruct (main_again inv fs) as [(_ & fs' & st & _ & _ & B') | E]; [|exact E].
    rewrite B in B'. discriminate B'.
  - intros x. apply main_prompt_kept.
  - destruct (main_again inv fs) as [(_ & fs' & st & R & W & _) | E]; [|now rewrite E].
    destruct (lookup_write_same _ _ _ _ W) as [x Hx].
    exact (main_prompt_kept inv _ x Hx).
Qed.

(** ** The files a run opens *)

Lemma distinct_NoDup (l : list string) : distinct l = true -> NoDup l.
Proof.
  induction l as [|x l IH]; [constructor|]. cbn [distinct]. intros H.
  apply andb_prop in H. destruct H as [H1 H2]. apply negb_true_iff in H1.
  constructor; [|now apply IH]. intros Hin. apply mem_In in Hin. congruence.
Qed.

Lemma find_entry_distinct (es : list node) (e : node) :
  distinct (map node_name es) = true -> In e es ->
  find_entry (node_name e) es = Some e.
Proof.
  induction es as [|a es IH]; [contradiction|]. cbn [map distinct find_entry].
  intros H Hin. apply andb_prop in H. destruct H as [H1 H2].
  apply negb_true_iff in H1. destruct Hin as [->|Hin].
  - now rewrite String.eqb_refl.
  - destruct (String.eqb (node_name a) (node_name e)) eqn:E; [|now apply IH].
    apply String.eqb_eq in E. exfalso.
    assert (M : Str.mem (node_name a) (map node_name es) = true)
      by (apply mem_In; rewrite E; now apply in_map).
    congruence.
Qed.

Lemma file_names_spec (f : string) (es : list node) :
  In f (Os.file_names es) <-> exists r, In (File f r) es.
Proof.
  unfold Os.file_names. rewrite in_flat_map. split.
  - intros ([g r|d sub] & He & Hf); [|destruct Hf].
    destruct Hf as [<-|[]]. now exists r.
  - intros [r He]. exists (File f r). split; [exact He | now left].
Qed.

Lemma file_names_NoDup (es : list node) :
  distinct (map node_name es) = true -> NoDup (Os.file_names es).
Proof.
  induction es as [|a es IH]; [constructor|]. cbn [map distinct]. intros H.
  apply andb_prop in H. destruct H as [H1 H2]. apply negb_true_iff in H1.
  specialize (IH H2). destruct a as [f r|d sub]; [|exact IH].
  change (Os.file_names (File f r :: es)) with (f :: Os.file_names es).
  constructor; [|exact IH]. intros Hin. apply file_names_spec in Hin.
  destruct Hin as [r' Hin].
  assert (M : Str.mem f (map node_name es) = true)
    by (apply mem_In; change f with (node_name (File f r')); now apply in_map).
  cbn [node_name] in H1. congruence.
Qed.

Lemma files_walked_cons (t : path * list string * list string)
    (l : list (path * list string * list string)) :
  files_walked (t :: l) = map (OsPath.join (fst (fst t))) (snd t) ++ files_walked l.
Proof. reflexivity. Qed.

Lemma files_walked_flat_map {A} (g : A -> list (path * list string * list string))
    (l : list A) :
  files_walked (flat_map g l) = flat_map (fun a => files_walked (g a)) l.
Proof.
  induction l as [|a l IH]; [reflexivity|]. cbn [flat_map].
  unfold files_walked in *. now rewrite flat_map_app, IH.
Qed.

Section WalkedFiles.
Variable edit : path -> list string -> list string.

(** Every file of a walk is a file of the tree, below the top. *)
Lemma files_walked_spec (n : node) :
  well_formed n = true ->
  forall top p, In p (files_walked (Os.walk edit top n)) ->
  exists rel f r, p = top ++ rel ++ [f] /\ fs_lookup n (rel ++ [f]) = Some (File f r).
Proof.
  induction n as [x c | x es IH] using node_ind; intros Hwf top p Hp; [destruct Hp|].
  cbn [well_formed] in Hwf. apply andb_prop in Hwf. destruct Hwf as [Hd Hw].
  cbn [Os.walk] in Hp. rewrite files_walked_cons in Hp. cbn [fst snd] in Hp.
  apply in_app_or in Hp. destruct Hp as [Hp|Hp].
  - apply in_map_iff in Hp. destruct Hp as (f & <- & Hf).
    apply file_names_spec in Hf. destruct Hf as [r Hf].
    exists [], f, r. split; [reflexivity|]. cbn [app fs_lookup].
    pose proof (find_entry_distinct es (File f r) Hd Hf) as F.
    cbn [node_name] in F. now rewrite F.
  - rewrite files_walked_flat_map in Hp. apply in_flat_map in Hp.
    destruct Hp as (e & He & Hp). rewrite Forall_forall in IH.
    destruct e as [g c | d sub]; [destruct Hp|].
    destruct (Str.mem d _); [|destruct Hp].
    rewrite forallb_forall in Hw.
    destruct (IH _ He (Hw _ He) _ _ Hp) as (rel & f & r & -> & L).
    exists (d :: rel), f, r. split.
    + unfold OsPath.join. now rewrite <- !app_assoc.
    + cbn [app fs_lookup].
      pose proof (find_entry_distinct es (Dir d sub) Hd He) as F.
      cbn [node_name] in F. now rewrite F.
Qed.

Lemma files_walked_NoDup (n : node) :
  well_formed n = true -> forall top, NoDup (files_walked (Os.walk edit top n)).
Proof.
  induction n as [x c | x es IH] using node_ind; intros Hwf top; [constructor|].
  cbn [well_formed] in Hwf. apply andb_prop in Hwf. destruct Hwf as [Hd Hw].
  cbn [Os.walk]. rewrite files_walked_cons, files_walked_flat_map. cbn [fst snd].
  set (dn := edit top (Os.dir_names es)). clearbody dn.
  set (h := fun e : node => files_walked _).
  assert (Hh : forall e p, In e es -> In p (h e) ->
                 exists rel f, p = top ++ node_name e :: rel ++ [f]).
  { intros e p He Hp. unfold h in Hp. destruct e as [g c | d sub]; [destruct Hp|].
    destruct (Str.mem d _); [|destruct Hp]. rewrite forallb_forall in Hw.
    destruct (files_walked_spec _ (Hw _ He) _ _ Hp) as (rel & f & r & -> & _).
    exists rel, f. unfold OsPath.join. now rewrite <- !app_assoc. }
  apply NoDup_app.
  - apply NoDup_map_NoDup_ForallPairs; [|now apply file_names_NoDup].
    intros a b _ _ E. unfold OsPath.join in E. apply app_inv_head in E. now inversion E.
  - clear - IH Hd Hw Hh. induction es as [|a es IHes]; [constructor|].
    cbn [flat_map]. cbn [map distinct] in Hd. apply andb_prop in Hd.
    destruct Hd as [Ha Hd]. apply negb_true_iff in Ha.
    cbn [forallb] in Hw. apply andb_prop in Hw. destruct Hw as [Hwa Hw].
    apply NoDup_app.
    + unfold h. destruct a as [g c | d sub]; [constructor|].
      destruct (Str.mem d _); [|constructor].
      apply (Forall_inv IH). exact Hwa.
    + apply IHes; [exact (Forall_inv_tail IH) | exact Hd | exact Hw |].
      intros e p He. apply Hh. now right.
    + intros p Hp Hq. apply in_flat_map in Hq. destruct Hq as (e & He & Hq).
      destruct (Hh a p (or_introl eq_refl) Hp) as (rel & f & E).
      destruct (Hh e p (or_intror He) Hq) as (rel' & f' & E').
      rewrite E in E'. apply app_inv_head in E'. injection E' as N _.
      assert (M : Str.mem (node_name a) (map node_name es) = true)
        by (apply mem_In; rewrite N; now apply in_map).
      congruence.
  - intros p Hp Hq. apply in_map_iff in Hp. destruct Hp as (f & <- & _).
    apply in_flat_map in Hq. destruct Hq as (e & He & Hq).
    destruct (Hh e _ He Hq) as (rel & f' & E). unfold OsPath.join in E.
    apply app_inv_head in E. injection E as _ N. now destruct rel.
Qed.
End WalkedFiles.

Lemma pack_file_opened (fs : node) (root_path : path) (pats : list string)
    (dirpath : path) (st : pack_state) (filename : string) :
  opened (pack_file fs root_path pats dirpath st filename)
  = opened st ++ filter (passes fs root_path pats) [OsPath.join dirpath filename].
Proof.
  assert (B : OsPath.basename (OsPath.join dirpath filename) = filename)
    by exact (basename_snoc dirpath filename).
  unfold pack_file, passes, extension_allowed. cbn [filter]. rewrite B.
  destruct (String.eqb filename OUTPUT_FILENAME); cbn [negb andb];
    [now rewrite app_nil_r|].
  destruct (is_ignored fs _ root_path pats); cbn [negb andb]; [now rewrite app_nil_r|].
  destruct (Str.mem _ INCLUDED_EXTENSIONS); cbn [negb]; [|now rewrite app_nil_r].
  now destruct (read_file fs _).
Qed.

Lemma fold_pack_file_opened (fs : node) (root_path : path) (pats : list string)
    (dirpath : path) (filenames : list string) :
  forall st,
  opened (fold_left (pack_file fs root_path pats dirpath) filenames st)
  = opened st ++ filter (passes fs root_path pats) (map (OsPath.join dirpath) filenames).
Proof.
  induction filenames as [|f l IH]; intros st; [now rewrite app_nil_r|].
  cbn [fold_left map]. rewrite IH, pack_file_opened, <- app_assoc. f_equal.
  change (OsPath.join dirpath f :: map (OsPath.join dirpath) l)
    with ([OsPath.join dirpath f] ++ map (OsPath.join dirpath) l).
  now rewrite filter_app.
Qed.

Lemma walk_loop_opened (fs : node) (root_path : path) (pats : list string)
    (st : pack_state) :
  opened (walk_loop fs root_path pats st)
  = opened st
    ++ filter (passes fs root_path pats)
         (match fs_lookup fs root_path with
          | Some top => files_walked (Os.walk (prune_dirnames fs root_path pats)
                                              root_path top)
          | None => []
          end).
Proof.
  unfold walk_loop. destruct (fs_lookup fs root_path) as [top|];
    [|now rewrite app_nil_r].
  generalize (Os.walk (prune_dirnames fs root_path pats) root_path top).
  intros l. revert st. induction l as [|[[d dn] fns] l IH]; intros st;
    [now rewrite app_nil_r|].
  cbn [fold_left]. rewrite IH, fold_pack_file_opened, files_walked_cons, filter_app.
  cbn [fst snd]. now rewrite app_assoc.
Qed.

(** Writing a file keeps the names distinct. *)
Lemma update_entry_well_formed (c : string) (f : node -> option node)
    (dflt : option node) :
  (forall d, dflt = Some d -> node_name d = c /\ well_formed d = true) ->
  forall es es',
  (forall e e', In e es -> f e = Some e' ->
                node_name e' = node_name e
                /\ (well_formed e = true -> well_formed e' = true)) ->
  update_entry c f dflt es = Some es' ->
  distinct (map node_name es) = true -> forallb well_formed es = true ->
  distinct (map node_name es') = true /\ forallb well_formed es' = true
  /\ forall y, In y (map node_name es') -> In y (map node_name es) \/ y = c.
Proof.
  intros Hdflt. induction es as [|a es IH]; intros es' Hf U Hd Hw.
  - cbn [update_entry] in U. destruct dflt as [d|]; [|discriminate].
    inversion U; subst. destruct (Hdflt d eq_refl) as [N W].
    cbn [map distinct forallb Str.mem existsb negb andb]. rewrite W.
    repeat split. intros y [<-|[]]. now right.
  - cbn [update_entry] in U. cbn [map distinct] in Hd. apply andb_prop in Hd.
    destruct Hd as [Ha Hd]. cbn [forallb] in Hw. apply andb_prop in Hw.
    destruct Hw as [Hwa Hw]. destruct (String.eqb (node_name a) c) eqn:E.
    + destruct (f a) as [a'|] eqn:Fa; [|discriminate]. inversion U; subst.
      destruct (Hf a a' (or_introl eq_refl) Fa) as [N W].
      cbn [map distinct forallb]. rewrite N, Ha, Hd, (W Hwa), Hw.
      repeat split. intros y Hy. left. exact Hy.
    + destruct (update_entry c f dflt es) as [es''|] eqn:U'; [|discriminate].
      inversion U; subst.
      destruct (IH es'' (fun e e' He => Hf e e' (or_intror He)) eq_refl Hd Hw)
        as (D & W & S).
      cbn [map distinct forallb]. rewrite D, Hwa, W. repeat split.
      * rewrite andb_true_r. apply negb_true_iff. apply negb_true_iff in Ha.
        destruct (Str.mem (node_name a) (map node_name es'')) eqn:M; [|reflexivity].
        apply mem_In in M. destruct (S _ M) as [M'|M'].
        -- apply mem_In in M'. congruence.
        -- apply String.eqb_neq in E. contradiction.
      * intros y [<-|Hy]; [left; now left|].
        destruct (S _ Hy) as [H|H]; [left; now right | now right].
Qed.

Lemma fs_write_well_formed (q : path) (text : string) :
  forall fs fs2, fs_write fs q text = Some fs2 ->
                 well_formed fs = true -> well_formed fs2 = true.
Proof.
  induction q as [|c q IH]; intros fs fs2 W Hwf.
  - destruct fs; cbn [fs_write] in W; [|discriminate]. now inversion W.
  - destruct fs as [x r|x es]; [discriminate|]. rewrite fs_write_cons in W.
    destruct (update_entry c _ _ es) as [es'|] eqn:U; [|discriminate].
    inversion W; subst. cbn [well_formed] in *. apply andb_prop in Hwf.
    destruct Hwf as [Hd Hw].
    destruct (update_entry_well_formed c (fun e => fs_write e q text)
                (fresh_file c q text)) with (es := es) (es' := es') as (D & W' & _);
      try assumption.
    + intros d Hd'. split; [exact (fresh_file_name _ _ _ _ Hd')|].
      unfold fresh_file in Hd'. destruct q; inversion Hd'. reflexivity.
    + intros e e' _ He. split; [exact (fs_write_name _ _ _ _ He)|].
      intros Hwe. exact (IH _ _ He Hwe).
    + now rewrite D, W'.
Qed.

Lemma well_formed_lookup (p : path) :
  forall n m, well_formed n = true -> fs_lookup n p = Some m -> well_formed m = true.
Proof.
  induction p as [|c p IH]; intros n m Hwf L.
  - cbn [fs_lookup] in L. now inversion L; subst.
  - destruct n as [x r|x es]; [discriminate|]. cbn [fs_lookup] in L.
    destruct (find_entry c es) as [e|] eqn:E; [|discriminate].
    apply find_entry_spec in E. destruct E as [He _].
    cbn [well_formed] in Hwf. apply andb_prop in Hwf. destruct Hwf as [_ Hw].
    rewrite forallb_forall in Hw. exact (IH _ _ (Hw _ He) L).
Qed.

Lemma packed_entry_paths (fs : node) (l : list path) :
  map fst (flat_map (packed_entry fs) l) = filter (is_readable fs) l.
Proof.
  induction l as [|p l IH]; [reflexivity|]. cbn [flat_map filter].
  rewrite map_app, IH. unfold packed_entry, is_readable.
  now destruct (read_file fs p).
Qed.

(** X15.  On a tree whose directories hold no two entries of one name, a
    run that returns hands to [open] exactly the files of the tree that lie
    below the root along directories the rules let through, are not called
    [codebase_context.md], are not ignored and have an allowed extension;
    it hands each of them over once, so that no file has two sections in
    the output file. *)
Theorem each_file_is_opened_once
    (fs : node) (root_path cwd : path) (fs' : node) (st : pack_state)
    (Hwf : well_formed fs = true)
    (Hrun : scan_and_pack fs root_path (OsPath.join cwd OUTPUT_FILENAME) = Returned fs' st) :
  NoDup (opened st)
  /\ NoDup (map fst (packed st))
  /\ (forall p,
        In p (opened st)
        <-> exists comps filename r,
              p = root_path ++ comps ++ [filename]
              /\ fs_lookup fs p = Some (File filename r)
              /\ dirs_kept fs root_path (fst (load_gitignore fs root_path))
                           root_path comps = true
              /\ filename <> OUTPUT_FILENAME
              /\ is_ignored fs p root_path (fst (load_gitignore fs root_path)) = false
              /\ extension_allowed filename = true).
Proof.
  destruct (scan_and_pack_returned _ _ _ _ _ Hrun) as (fs1 & printed & W1 & Hst & _).
  set (pats := fst (load_gitignore fs root_path)) in *.
  pose proof (fs_write_well_formed _ _ _ _ W1 Hwf) as Hwf1.
  pose proof (walk_loop_opened fs1 root_path pats (initial_state printed)) as Ho.
  rewrite <- Hst in Ho. cbn [initial_state opened app] in Ho.
  assert (N : NoDup (opened st)).
  { rewrite Ho. apply NoDup_filter.
    destruct (fs_lookup fs1 root_path) as [top|] eqn:L; [|constructor].
    apply files_walked_NoDup. exact (well_formed_lookup _ _ _ Hwf1 L). }
  split; [exact N|]. split.
  - destruct (walk_loop_continues fs1 root_path pats (initial_state printed))
      as (new & Hn & _ & Hp).
    rewrite <- Hst in Hn, Hp. cbn [initial_state opened packed app] in Hn, Hp.
    rewrite Hp, packed_entry_paths, <- Hn. now apply NoDup_filter.
  - intros p. split.
    + intros Hp.
      destruct (scan_and_pack_consistent _ _ _ _ _ Hrun) as (fs1' & W1' & C).
      rewrite W1 in W1'. inversion W1'; subst fs1'.
      destruct C as (_ & _ & _ & _ & C). rewrite Forall_forall in C.
      destruct (C p Hp) as (comps & filename & E & K & Hn & Hi & He).
      rewrite Ho in Hp. apply filter_In in Hp. destruct Hp as [Hp _].
      destruct (fs_lookup fs1 root_path) as [top|] eqn:L; [|destruct Hp].
      destruct (files_walked_spec _ top (well_formed_lookup _ _ _ Hwf1 L) _ _ Hp)
        as (rel & f & r & E' & Lf).
      rewrite E in E'. apply app_inv_head in E'. apply app_inj_tail in E'.
      destruct E' as [<- <-].
      exists comps, filename, r. split; [exact E|].
      fold pats in K, Hi.
      rewrite (dirs_kept_write _ _ _ _ _ _ comps W1) in K.
      rewrite (is_ignored_write _ _ _ _ _ _ _ W1) in Hi.
      repeat split; try assumption.
      apply kind_file. rewrite <- (lookup_write_other _ _ _ _ p W1).
      * rewrite E, fs_lookup_app, L, Lf. reflexivity.
      * rewrite E, app_assoc. unfold OsPath.join. rewrite !last_last. exact Hn.
    + intros (comps & filename & r & -> & L & K & Hn & Hi & He).
      exact (proj1 (scan_and_pack_packs_file _ _ _ _ _ _ _ _ Hrun L K Hn Hi He)).
Qed.

Lemma each_file_witness :
  well_formed demo_fs = true
  /\ scan_and_pack demo_fs ["proj"] (OsPath.join ["proj"] OUTPUT_FILENAME)
     = Returned demo_after demo_state
  /\ NoDup (opened demo_state)
  /\ NoDup (map fst (packed demo_state)).
Proof.
  split; [reflexivity|]. split; [exact demo_run_returned|].
  pose proof (each_file_is_opened_once demo_fs ["proj"] ["proj"] demo_after demo_state
                eq_refl demo_run_returned) as H.
  split; [exact (proj1 H) | exact (proj1 (proj2 H))].
Defined.

(** ** Patterns with one star *)

Lemma endswith_other_char (s : string) (c d : ascii) :
  c <> d -> Str.endswith (s ++ String c "") (String d "") = false.
Proof.
  intros N. destruct (Str.endswith _ _) eqn:E; [|reflexivity].
  apply endswith_char in E. destruct E as [l E]. rewrite list_ascii_app in E.
  cbn [list_ascii_of_string] in E. apply app_inj_tail in E. destruct E as [_ E].
  contradiction.
Qed.

(** X16.  A pattern made of a plain text and one star is a prefix or a
    suffix test, and the star runs across slashes: [text*] excludes the
    entries whose path relative to the root, or whose name, begins with the
    text, and [*text], when the text does not end in a slash, those whose
    relative path or name ends with it. *)
Theorem one_star_pattern_is_a_prefix_or_suffix_test
    (fs : node) (p root_path : path) (text : string)
    (Hplain : plain text = true) :
  pattern_hits fs p root_path (text ++ "*")
  = Str.startswith (OsPath.relpath p root_path) text
    || Str.startswith (OsPath.basename p) text
  /\ (Str.endswith text "/" = false ->
      pattern_hits fs p root_path ("*" ++ text)
      = Str.endswith (OsPath.relpath p root_path) text
        || Str.endswith (OsPath.basename p) text).
Proof.
  unfold pattern_hits. split.
  - rewrite (endswith_other_char text "*" "/") by discriminate.
    now rewrite !(fnmatch_plain_star _ _ Hplain).
  - intros Hs.
    assert (E : Str.endswith ("*" ++ text) "/" = false).
    { cbn [append]. rewrite endswith_cons.
      destruct (String.eqb (String "*" text) "/") eqn:E; [|exact Hs].
      apply String.eqb_eq in E. discriminate E. }
    rewrite E. now rewrite !(fnmatch_star_plain _ _ Hplain).
Qed.

Lemma one_star_pattern_witness :
  plain "sr" = true
  /\ plain ".c" = true
  /\ pattern_hits demo_fs ["proj"; "src"; "deep"; "build"; "y.py"] ["proj"] "sr*" = true
  /\ pattern_hits demo_fs ["proj"; "src"; "main.c"] ["proj"] "*.c" = true.
Proof.
  split; [reflexivity|]. split; [reflexivity|]. split.
  - change "sr*" with ("sr" ++ "*")%string.
    rewrite (proj1 (one_star_pattern_is_a_prefix_or_suffix_test demo_fs
                      ["proj"; "src"; "deep"; "build"; "y.py"] ["proj"] "sr" eq_refl)).
    reflexivity.
  - change "*.c" with ("*" ++ ".c")%string.
    rewrite (proj2 (one_star_pattern_is_a_prefix_or_suffix_test demo_fs
                      ["proj"; "src"; "main.c"] ["proj"] ".c" eq_refl) eq_refl).
    reflexivity.
Defined.

(** ** A root that is not a directory *)

Lemma lookup_below_non_directory (fs : node) (p : path) (x : string) :
  OsPath.isdir fs p = false -> fs_lookup fs (OsPath.join p x) = None.
Proof.
  unfold OsPath.isdir, OsPath.join. rewrite fs_lookup_app.
  destruct (fs_lookup fs p) as [[y r|y es]|]; [reflexivity | discriminate | reflexivity].
Qed.

(** X17.  [scan_and_pack] on a root that is not a directory, or does not
    exist, fails in no way: once the output file is open it returns with
    nothing opened, the count and the size zero, only the announcement
    printed and the preamble alone in the output file. *)
Theorem scanning_what_is_not_a_directory
    (fs : node) (root_path output_file : path)
    (Hnot : OsPath.isdir fs root_path = false) :
  match scan_and_pack fs root_path output_file with
  | Returned fs' st =>
      file_count st = 0 /\ total_size st = 0 /\ opened st = [] /\ packed st = []
      /\ outfile st = META_PROMPT
      /\ stdout st = [scanning_line root_path]
      /\ fs_write fs output_file META_PROMPT = Some fs'
  | Raised fs' printed e =>
      fs' = fs /\ printed = [scanning_line root_path]
      /\ fs_write fs output_file "" = None
  end.
Proof.
  pose proof (scan_and_pack_disk fs root_path output_file) as D.
  assert (G : load_gitignore fs root_path = ([], [])).
  { unfold load_gitignore.
    now rewrite (lookup_below_non_directory fs root_path ".gitignore" Hnot). }
  unfold scan_and_pack in *. rewrite G in *.
  destruct (fs_write fs output_file "") as [fs1|] eqn:W1.
  - assert (L : walk_loop fs1 root_path []
                  {| outfile := META_PROMPT; file_count := 0; total_size := 0;
                     stdout := [scanning_line root_path] ++ []; opened := [];
                     packed := [] |}
                = {| outfile := META_PROMPT; file_count := 0; total_size := 0;
                     stdout := [scanning_line root_path] ++ []; opened := [];
                     packed := [] |}).
    { unfold walk_loop. pose proof (isdir_write _ _ _ _ root_path W1) as I.
      rewrite Hnot in I. unfold OsPath.isdir in I.
      destruct (fs_lookup fs1 root_path) as [[y r|y es]|];
        [reflexivity | discriminate | reflexivity]. }
    unfold scanning_line in L. rewrite L in *. cbn [outfile] in *.
    destruct (fs_write fs1 output_file META_PROMPT) as [fs2|] eqn:W2.
    + cbn [file_count total_size opened packed outfile stdout app].
      repeat split. exact (proj1 D).
    + exfalso. rewrite (fs_write_twice _ _ _ _ _ W1) in W2.
      destruct (lookup_write_same _ _ _ _ W1) as [x Hx].
      destruct (fs_write_existing _ META_PROMPT _ _ _ Hx) as [g Hg].
      rewrite (fs_write_twice _ _ _ _ _ W1) in Hg. congruence.
  - repeat split.
Qed.

Lemma not_a_directory_witness :
  OsPath.isdir demo_fs ["proj"; "a.py"] = false
  /\ scan_and_pack demo_fs ["proj"; "a.py"] ["proj"; OUTPUT_FILENAME]
     = Returned (fs_after (scan_and_pack demo_fs ["proj"; "a.py"] ["proj"; OUTPUT_FILENAME]))
                (state_after (scan_and_pack demo_fs ["proj"; "a.py"]
                                ["proj"; OUTPUT_FILENAME]))
  /\ match scan_and_pack demo_fs ["proj"; "a.py"] ["proj"; OUTPUT_FILENAME] with
     | Returned fs' st =>
         file_count st = 0 /\ total_size st = 0 /\ opened st = [] /\ packed st = []
         /\ outfile st = META_PROMPT
         /\ stdout st = [scanning_line ["proj"; "a.py"]]
         /\ fs_write demo_fs ["proj"; OUTPUT_FILENAME] META_PROMPT = Some fs'
     | Raised fs' printed e =>
         fs' = demo_fs /\ printed = [scanning_line ["proj"; "a.py"]]
         /\ fs_write demo_fs ["proj"; OUTPUT_FILENAME] "" = None
     end.
Proof.
  split; [reflexivity|]. split; [vm_compute; reflexivity|].
  exact (scanning_what_is_not_a_directory demo_fs ["proj"; "a.py"]
           ["proj"; OUTPUT_FILENAME] eq_refl).
Defined.

(** ** The extension of a file name *)

Lemma rfind_from_app (c : ascii) (a b : string) :
  Str.contains c b = false ->
  forall i, Str.rfind_from c (a ++ String c b) i = Some (i + String.length a).
Proof.
  intros Hb. induction a as [|x a IH]; intros i.
  - cbn [append Str.rfind_from String.length].
    rewrite (rfind_from_absent _ _ _ Hb), Ascii.eqb_refl. f_equal. lia.
  - cbn [append Str.rfind_from String.length]. rewrite IH. f_equal. lia.
Qed.

Lemma contains_app (c : ascii) (a b : string) :
  Str.contains c (a ++ b) = Str.contains c a || Str.contains c b.
Proof.
  induction a as [|x a IH]; [reflexivity|]. cbn [append Str.contains].
  now rewrite IH, orb_assoc.
Qed.

Lemma take_app (a b : string) : Str.take (String.length a) (a ++ b) = a.
Proof. induction a as [|x a IH]; [now destruct b | cbn; now rewrite IH]. Qed.

Lemma drop_app (a b : string) : Str.drop (String.length a) (a ++ b) = b.
Proof. induction a as [|x a IH]; [now destruct b | exact IH]. Qed.

(** X18.  The extension of a file name is what follows its last dot, the
    dot included, provided that something other than dots precedes that
    dot: for a name [stem.ext] whose [ext] holds no dot, [os.path.splitext]
    gives [stem] and [.ext], and the file passes the extension test exactly
    when [.ext], in lower case, is in the allowlist.  So [archive.tar.gz]
    is judged by [.gz] alone. *)
Theorem extension_is_what_follows_the_last_dot (stem ext : string)
    (Hext : Str.contains "." ext = false)
    (Hname : Str.contains "/" (stem ++ "." ++ ext) = false)
    (Hstem : OsPath.all_dots stem = false) :
  OsPath.splitext (stem ++ "." ++ ext) = (stem, ("." ++ ext)%string)
  /\ extension_allowed (stem ++ "." ++ ext)
     = Str.mem (Str.lower ("." ++ ext)) INCLUDED_EXTENSIONS.
Proof.
  assert (S : OsPath.splitext (stem ++ "." ++ ext) = (stem, ("." ++ ext)%string)).
  { unfold OsPath.splitext, Str.rfind. cbn [append].
    rewrite (rfind_from_app "." stem ext Hext 0).
    cbn [append] in Hname. rewrite (rfind_from_absent _ _ _ Hname).
    cbn [Nat.add Nat.leb]. rewrite Nat.sub_0_r. cbn [Str.drop].
    now rewrite take_app, Hstem, drop_app. }
  split; [exact S|]. unfold extension_allowed. now rewrite S.
Qed.

Lemma extension_witness :
  Str.contains "." "gz" = false
  /\ Str.contains "/" ("archive.tar" ++ "." ++ "gz") = false
  /\ OsPath.all_dots "archive.tar" = false
  /\ OsPath.splitext "archive.tar.gz" = ("archive.tar", ".gz")
  /\ extension_allowed "archive.tar.gz" = false.
Proof.
  split; [reflexivity|]. split; [reflexivity|]. split; [reflexivity|].
  destruct (extension_is_what_follows_the_last_dot "archive.tar" "gz"
              eq_refl eq_refl eq_refl) as [S A].
  split; [exact S | exact A].
Defined.

(** ** The size printed *)

Lemma to_float_exact (n : N) : (n < 2 ^ 53)%N -> to_float n = n.
Proof. intros H. unfold to_float. apply N.ltb_lt in H. now rewrite H. Qed.

(** X19.  As long as the count of characters is below [2^53], so that the
    division is exact, the size [main] prints is the count divided by
    [2^20], rounded to the nearest hundredth: the digits printed are those
    of a number of hundredths that differs from the exact quotient by half
    a hundredth at most.  Up to 5242 characters the size printed is
    [0.00]. *)
Theorem size_is_rounded_to_the_nearest_hundredth (total_chars : N)
    (Hexact : (total_chars < 2 ^ 53)%N) :
  (exists cents : N,
     format_mb total_chars = hundredths cents
     /\ (2 * 1048576 * cents <= 200 * total_chars + 1048576)%N
     /\ (200 * total_chars <= 1048576 * (2 * cents + 1))%N)
  /\ ((total_chars <= 5242)%N -> format_mb total_chars = "0.00").
Proof.
  unfold format_mb. rewrite (to_float_exact _ Hexact). clear Hexact.
  pose proof (N.div_mod (total_chars * 100) 1048576 ltac:(discriminate)) as E.
  pose proof (N.mod_lt (total_chars * 100) 1048576 ltac:(discriminate)) as L.
  set (q := (total_chars * 100 / 1048576)%N) in *.
  set (r := (total_chars * 100 mod 1048576)%N) in *.
  split.
  - destruct (N.ltb_spec 524288 r) as [H|H].
    + exists (q + 1)%N. split; [reflexivity|]. lia.
    + destruct (N.eqb_spec r 524288) as [H'|H'].
      * destruct (N.even q); [exists q | exists (q + 1)%N];
          (split; [reflexivity|]); lia.
      * exists q. split; [reflexivity|]. lia.
  - intros Hn. assert (Hq : q = 0%N) by (unfold q; apply N.div_small; lia).
    assert (Hr : r = (total_chars * 100)%N) by (unfold r; apply N.mod_small; lia).
    destruct (N.ltb_spec 524288 r) as [H|H]; [lia|].
    destruct (N.eqb_spec r 524288) as [H'|H']; [lia|].
    rewrite Hq. reflexivity.
Qed.

Lemma size_witness :
  (13002343 < 2 ^ 53)%N
  /\ format_mb 13002343 = "12.40"
  /\ exists cents : N,
       format_mb 13002343 = hundredths cents
       /\ (2 * 1048576 * cents <= 200 * 13002343 + 1048576)%N
       /\ (200 * 13002343 <= 1048576 * (2 * cents + 1))%N.
Proof.
  split; [reflexivity|]. split; [reflexivity|].
  exact (proj1 (size_is_rounded_to_the_nearest_hundredth 13002343 eq_refl)).
Defined.

(** ** The root that is scanned *)

Lemma normal_name_spec (c : string) :
  normal_name c = true
  <-> c <> "" /\ Str.contains "/" c = false /\ c <> "." /\ c <> "..".
Proof.
  unfold normal_name, valid_name.
  rewrite !andb_true_iff, !negb_true_iff, !String.eqb_neq. tauto.
Qed.

Lemma forallb_removelast {A} (f : A -> bool) (l : list A) :
  forallb f l = true -> forallb f (removelast l) = true.
Proof.
  induction l as [|a l IH]; [reflexivity|]. cbn [forallb]. intros H.
  apply andb_prop in H. destruct H as [Ha Hl].
  destruct l as [|b l]; [reflexivity|]. cbn [removelast forallb].
  cbn [removelast] in IH. now rewrite Ha, (IH Hl).
Qed.

Lemma split_aux_no_slash (s : string) :
  forall cur, Str.contains "/" cur = false ->
  Forall (fun c => Str.contains "/" c = false) (OsPath.split_aux cur s).
Proof.
  induction s as [|a s IH]; intros cur H; cbn [OsPath.split_aux].
  - now constructor.
  - destruct (Ascii.eqb a "/") eqn:E.
    + constructor; [exact H | now apply IH].
    + apply IH. rewrite contains_app, H. cbn [Str.contains]. now rewrite E.
Qed.

Lemma normpath_normal (comps : list string) :
  Forall (fun c => Str.contains "/" c = false) comps ->
  forall acc, forallb normal_name acc = true ->
  forallb normal_name (OsPath.normpath acc comps) = true.
Proof.
  induction 1 as [|c comps Hc _ IH]; intros acc Hacc; [exact Hacc|].
  cbn [OsPath.normpath].
  destruct (String.eqb c "") eqn:E1; [now apply IH|].
  destruct (String.eqb c ".") eqn:E2; [now apply IH|]. cbn [orb].
  destruct (String.eqb c "..") eqn:E3.
  - apply IH. now apply forallb_removelast.
  - apply IH. rewrite forallb_app, Hacc. cbn [forallb].
    rewrite andb_true_r. apply normal_name_spec.
    apply String.eqb_neq in E1, E2, E3. now repeat split.
Qed.

Lemma normpath_id (comps : list string) :
  forallb normal_name comps = true ->
  forall acc, OsPath.normpath acc comps = acc ++ comps.
Proof.
  induction comps as [|c comps IH]; intros H acc; [now rewrite app_nil_r|].
  cbn [forallb] in H. apply andb_prop in H. destruct H as [Hc H].
  apply normal_name_spec in Hc. destruct Hc as (N1 & _ & N2 & N3).
  apply String.eqb_neq in N1, N2, N3. cbn [OsPath.normpath].
  rewrite N1, N2, N3. cbn [orb]. rewrite (IH H). now rewrite <- app_assoc.
Qed.

Lemma split_aux_app (x : string) :
  Str.contains "/" x = false ->
  forall cur s, OsPath.split_aux cur (x ++ s) = OsPath.split_aux (cur ++ x) s.
Proof.
  induction x as [|a x IH]; intros H cur s.
  - now rewrite append_empty.
  - cbn [Str.contains] in H. apply orb_false_iff in H. destruct H as [Ha Hx].
    cbn [append OsPath.split_aux]. rewrite Ha, (IH Hx). now rewrite append_assoc.
Qed.

Lemma split_join (p : path) :
  forallb normal_name p = true -> p <> [] ->
  OsPath.split_aux "" (Str.join "/" p) = p.
Proof.
  induction p as [|x p IH]; intros H Hne; [contradiction|].
  cbn [forallb] in H. apply andb_prop in H. destruct H as [Hx H].
  apply normal_name_spec in Hx. destruct Hx as (_ & Hs & _).
  destruct p as [|y p].
  - cbn [Str.join]. rewrite <- (append_empty x) at 1.
    now rewrite (split_aux_app x Hs).
  - change (Str.join "/" (x :: y :: p)) with (x ++ "/" ++ Str.join "/" (y :: p))%string.
    rewrite (split_aux_app x Hs). cbn [append OsPath.split_aux].
    change (Ascii.eqb "/" "/") with true. cbv iota.
    rewrite IH; [reflexivity | exact H | discriminate].
Qed.

Lemma abspath_normal (cwd : path) (s : string) :
  forallb normal_name cwd = true ->
  forallb normal_name (OsPath.abspath cwd s) = true.
Proof.
  intros H. unfold OsPath.abspath.
  destruct (Str.startswith s "/"); apply normpath_normal;
    try apply split_aux_no_slash; try reflexivity; exact H.
Qed.

Lemma abspath_path_str (cwd p : path) :
  forallb normal_name p = true -> OsPath.abspath cwd (path_str p) = p.
Proof.
  intros H. unfold OsPath.abspath, path_str. cbn [append Str.startswith].
  change (Ascii.eqb "/" "/") with true. cbn [andb OsPath.split_aux].
  change (Ascii.eqb "/" "/") with true. cbv iota.
  cbn [OsPath.normpath String.eqb orb].
  destruct p as [|x p]; [reflexivity|].
  rewrite split_join; [|exact H|discriminate]. now rewrite (normpath_id _ H).
Qed.

(** X20.  The root [main] scans is the first of the positional argument,
    the [--path] flag and [CONTEXT_ROOT] that is given and not empty, made
    absolute, and the working directory when there is none.  It is a
    normalised path: when the working directory is one, no component of the
    root is empty, [.] or [..] or holds a slash; and the path printed for
    it, given back as the argument from any working directory, designates
    the same root. *)
Theorem scanned_root_is_a_normalised_path (inv : invocation)
    (Hcwd : forallb normal_name (getcwd inv) = true) :
  forallb normal_name (target_path_of inv) = true
  /\ (forall inv',
        args_path inv' = Some (path_str (target_path_of inv)) ->
        target_path_of inv' = target_path_of inv)
  /\ (or_else (args_path inv) (or_else (args_flag_path inv) (env_CONTEXT_ROOT inv)) = None
      -> target_path_of inv = getcwd inv)
  /\ (forall s, s <> "" -> args_path inv = Some s ->
                target_path_of inv = OsPath.abspath (getcwd inv) s).
Proof.
  assert (N : forallb normal_name (target_path_of inv) = true).
  { unfold target_path_of. destruct (or_else _ _); [now apply abspath_normal | exact Hcwd]. }
  split; [exact N|]. split; [|split].
  - intros inv' A. unfold target_path_of at 1. rewrite A. unfold or_else at 1.
    unfold path_str at 1. cbn [append String.eqb]. fold (path_str (target_path_of inv)).
    now apply abspath_path_str.
  - intros E. unfold target_path_of. now rewrite E.
  - intros s Hs A. unfold target_path_of. rewrite A. unfold or_else at 1.
    apply String.eqb_neq in Hs. now rewrite Hs.
Qed.

Lemma scanned_root_witness :
  forallb normal_name (getcwd pruned_inv) = true
  /\ target_path_of pruned_inv = ["proj"]
  /\ forallb normal_name (target_path_of pruned_inv) = true.
Proof.
  split; [reflexivity|]. split; [reflexivity|].
  exact (proj1 (scanned_root_is_a_normalised_path pruned_inv eq_refl)).
Defined.
